(** * TechSprint server: a shallow embedding of [index.js]

    The server is a set of Express handlers over three MongoDB
    collections ([users], [all-courses], [enrolled-courses]).  The
    development follows the layers of the source:

    - [JS]: the values the handlers see (JSON bodies, BSON documents),
      property access, truthiness, [parseInt], string helpers;
    - [Bson]: [ObjectId] and the BSON comparison order;
    - [Regex]: the fragment of [$regex] patterns that is modelled;
    - [Mongo]: filters, cursors, [insertOne], [updateOne], [deleteOne]
      and the aggregation stages the handlers use;
    - [Joi]: the schema combinators used by [courseSchema];
    - [Server]: the middlewares and the handlers, line by line.

    Scope of the data model.  A collection is the list of its documents
    in natural order.  A document is an association list in field order.
    A stored number is an integer (a JSON number with a fraction, [-0]
    and [NaN] as a stored value are not represented); a number the
    handlers compute with is a double, exact up to [2^53] and known only
    by its sign beyond.  Arrays are not represented, so neither is
    MongoDB's matching through arrays; strings are sequences of bytes,
    and [$regex] is modelled on printable ASCII text.  A query-string
    parameter is a string (a repeated parameter, which Express turns
    into an array, is not represented); [req.body] is [undefined] or a
    JSON object, which is what [express.json()] leaves there in its
    default strict mode once arrays are left out.  A verified token
    carries an email.  Time and the driver's generated [_id] are inputs
    of a request ([env]); what [ObjectId] makes of a number is a
    collaborator, as are the identity verifier, Joi's string formats and
    the order of the groups of [$group].

    A handler is a function from the request and the database to an
    answer and a database: the request served alone.  The two handlers
    that look a document up and insert one when there is none
    ([POST /users], [POST /enroll]) are moreover given as their two
    accesses to the database, between which another request may be
    served.  A handler returns [None] where the request leaves the
    modelled fragment: a pattern outside the regex fragment or a search
    over text that is not printable ASCII, a page, a limit or a number
    of skipped documents that is not an integer of the exact range, an
    update path. *)

From Stdlib Require Import ZArith List String Ascii Bool Lia.
From Stdlib Require Import Sorted Permutation DecimalString FinFun.
Import ListNotations.

Local Open Scope string_scope.
Local Open Scope list_scope.
Local Open Scope Z_scope.

(** ** JavaScript values *)

Module JS.

(** [ObjectId]: twelve bytes, kept here as their canonical lower-case
    hexadecimal text ([toHexString]). *)
Record ObjectId := mkObjectId { toHexString : string }.

#[warnings="-register-all"]
Inductive value :=
| VNull
| VBool (b : bool)
| VNum (n : Z)
| VStr (s : string)
| VDate (ms : Z)
| VId (o : ObjectId)
| VObj (fields : list (string * value)).

Definition doc := list (string * value).

(** [undefined] is not a stored value: reading a property gives
    [option value], with [None] for [undefined]. *)
Definition jsval := option value.

Fixpoint get_field (k : string) (d : doc) : jsval :=
  match d with
  | [] => None
  | (k', v) :: r => if String.eqb k k' then Some v else get_field k r
  end.

Definition has_key (k : string) (d : doc) : bool :=
  match get_field k d with Some _ => true | None => false end.

(** Assignment of a property: an existing key keeps its place, a new
    key goes last. *)
Fixpoint set_field (k : string) (v : value) (d : doc) : doc :=
  match d with
  | [] => [(k, v)]
  | (k', v') :: r =>
      if String.eqb k k' then (k, v) :: r else (k', v') :: set_field k v r
  end.

(** [Object.assign(target, src)]: the properties of [src], in order,
    assigned to [target]. *)
Definition assign (target src : doc) : doc :=
  fold_left (fun acc kv => set_field (fst kv) (snd kv) acc) src target.

(** [{ ...payload }] where [payload] may be [undefined]. *)
Definition spread (payload : option doc) : doc :=
  match payload with Some d => d | None => [] end.

(** A dotted path into embedded documents. *)
Fixpoint get_path (p : list string) (d : doc) : jsval :=
  match p with
  | [] => None
  | [k] => get_field k d
  | k :: rest =>
      match get_field k d with
      | Some (VObj d') => get_path rest d'
      | _ => None
      end
  end.

(** ToBoolean *)
Definition truthy (v : value) : bool :=
  match v with
  | VNull => false
  | VBool b => b
  | VNum n => negb (n =? 0)
  | VStr s => negb (String.eqb s "")
  | VDate _ | VId _ | VObj _ => true
  end.

Definition truthy_opt (v : jsval) : bool :=
  match v with Some w => truthy w | None => false end.

(** [a || b] *)
Definition js_or (a b : jsval) : jsval := if truthy_opt a then a else b.

(** [v === s] for a string [s] *)
Definition strict_eq_str (v : jsval) (s : string) : bool :=
  match v with Some (VStr t) => String.eqb t s | _ => false end.

(** Structural equality of values. *)
Fixpoint value_eqb (a b : value) {struct a} : bool :=
  match a, b with
  | VNull, VNull => true
  | VBool x, VBool y => Bool.eqb x y
  | VNum x, VNum y => x =? y
  | VStr x, VStr y => String.eqb x y
  | VDate x, VDate y => x =? y
  | VId x, VId y => String.eqb (toHexString x) (toHexString y)
  | VObj xs, VObj ys =>
      (fix go (xs ys : list (string * value)) {struct xs} : bool :=
         match xs, ys with
         | [], [] => true
         | (k, v) :: xs', (k', w) :: ys' =>
             String.eqb k k' && value_eqb v w && go xs' ys'
         | _, _ => false
         end) xs ys
  | _, _ => false
  end.

(** *** Strings *)

Definition lower_ascii (c : ascii) : ascii :=
  let n := nat_of_ascii c in
  if (Nat.leb 65 n && Nat.leb n 90)%bool then ascii_of_nat (n + 32) else c.

Fixpoint toLowerCase (s : string) : string :=
  match s with
  | EmptyString => EmptyString
  | String c r => String (lower_ascii c) (toLowerCase r)
  end.

(** [s.startsWith(p)] *)
Definition startsWith (s p : string) : bool := String.prefix p s.

(** [s.split(sep)] for a one-character separator. *)
Fixpoint split_aux (sep : ascii) (s : string) (cur : string) : list string :=
  match s with
  | EmptyString => [cur]
  | String c r =>
      if Ascii.eqb c sep then cur :: split_aux sep r EmptyString
      else split_aux sep r (String.append cur (String c EmptyString))
  end.

Definition split (sep : ascii) (s : string) : list string :=
  split_aux sep s EmptyString.

Fixpoint join (sep : string) (l : list string) : string :=
  match l with
  | [] => EmptyString
  | [x] => x
  | x :: r => String.append x (String.append sep (join sep r))
  end.

(** *** Numbers

    A number of the handlers is a double.  The integers up to [2^53] in
    absolute value are doubles; of a number beyond them, which is a
    rounded value or an infinity, only the sign is kept. *)

Inductive number :=
| NaN
| Int (n : Z)
| Beyond (negative : bool).

Definition two53 : Z := 9007199254740992.

(** The number value of a mathematical integer. *)
Definition number_of_Z (n : Z) : number :=
  if Z.abs n <=? two53 then Int n else Beyond (n <? 0).

(** *** [parseInt] *)

Definition is_space (c : ascii) : bool :=
  let n := nat_of_ascii c in
  ((Nat.leb 9 n && Nat.leb n 13) || Nat.eqb n 32)%bool.

Fixpoint trimStart (s : string) : string :=
  match s with
  | String c r => if is_space c then trimStart r else s
  | EmptyString => EmptyString
  end.

Definition digit_value (c : ascii) : option Z :=
  let n := nat_of_ascii c in
  if (Nat.leb 48 n && Nat.leb n 57)%bool then Some (Z.of_nat (n - 48))
  else if (Nat.leb 97 n && Nat.leb n 122)%bool then Some (Z.of_nat (n - 87))
  else if (Nat.leb 65 n && Nat.leb n 90)%bool then Some (Z.of_nat (n - 55))
  else None.

(** The longest prefix of digits of the radix; [None] when it is empty. *)
Fixpoint parse_digits (radix : Z) (s : string) (acc : option Z) : option Z :=
  match s with
  | EmptyString => acc
  | String c r =>
      match digit_value c with
      | Some d =>
          if d <? radix
          then parse_digits radix r
                 (Some (match acc with Some a => a * radix + d | None => d end))
          else acc
      | None => acc
      end
  end.

Definition strip_sign (s : string) : bool * string :=
  match s with
  | String "-" r => (true, r)
  | String "+" r => (false, r)
  | _ => (false, s)
  end.

Definition strip_hex_prefix (s : string) : option string :=
  match s with
  | String "0" (String "x" r) => Some r
  | String "0" (String "X" r) => Some r
  | _ => None
  end.

(** [parseInt(s, radix)]; [radix = None] is the one-argument call, which
    reads a [0x] prefix as hexadecimal.  The digits read give a
    mathematical integer, and the result is its number value. *)
Definition parseInt (s : string) (radix : option Z) : number :=
  let (neg, body) := strip_sign (trimStart s) in
  let r :=
    match radix with
    | Some 16 | None =>
        match strip_hex_prefix body with
        | Some rest => parse_digits 16 rest None
        | None =>
            parse_digits (match radix with Some k => k | None => 10 end)
              body None
        end
    | Some k => parse_digits k body None
    end in
  match r with
  | Some n => number_of_Z (if neg then - n else n)
  | None => NaN
  end.

(** [Math.min(a, b)] for an integer [b] of the exact range. *)
Definition Math_min (a : number) (b : Z) : number :=
  match a with
  | NaN => NaN
  | Int x => Int (Z.min x b)
  | Beyond true => Beyond true
  | Beyond false => Int b
  end.

(** [arr.slice(0, n)] *)
Definition slice0 {A} (n : Z) (l : list A) : list A :=
  if 0 <=? n then firstn (Z.to_nat n) l
  else firstn (List.length l - Z.to_nat (- n)) l.

End JS.

(** ** BSON: [ObjectId] and the comparison order *)

Module Bson.
Import JS.

Definition is_hex (c : ascii) : bool :=
  match digit_value c with Some d => d <? 16 | None => false end.

Fixpoint all_hex (s : string) : bool :=
  match s with
  | EmptyString => true
  | String c r => is_hex c && all_hex r
  end.

(** A string names an [ObjectId] when it is 24 hexadecimal digits. *)
Definition validateHexString (s : string) : bool :=
  Nat.eqb (String.length s) 24 && all_hex s.

(** [new ObjectId(s)] for such a string: the case of the digits is lost. *)
Definition fromHex (s : string) : ObjectId := mkObjectId (toLowerCase s).

(** The identifier [new ObjectId(v)] reads in a value that is not a
    number, [None] where the constructor throws.  A string must be 24
    hexadecimal digits.  An object with a property [id] stands for that
    property, which must be a string (no value of a JSON body is a byte
    array or has a method [toHexString]); an [ObjectId] is copied; every
    other value is refused.  [ObjectId.isValid] answers false for null
    before it tries the constructor. *)
Definition read_id (v : value) : option ObjectId :=
  match v with
  | VStr x => if validateHexString x then Some (fromHex x) else None
  | VObj d =>
      match get_field "id" d with
      | Some (VStr x) => if validateHexString x then Some (fromHex x) else None
      | _ => None
      end
  | VId o => Some o
  | _ => None
  end.

(** The type order of BSON (null and missing first, dates last). *)
Definition rank (v : value) : nat :=
  match v with
  | VNull => 1
  | VNum _ => 2
  | VStr _ => 3
  | VObj _ => 4
  | VId _ => 7
  | VBool _ => 8
  | VDate _ => 9
  end%nat.

(** Values of one type compare by value; embedded documents compare
    field by field: type, then name, then value. *)
Fixpoint compare (a b : value) {struct a} : comparison :=
  match a, b with
  | VNum x, VNum y => Z.compare x y
  | VStr x, VStr y => String.compare x y
  | VBool x, VBool y => Bool.compare x y
  | VDate x, VDate y => Z.compare x y
  | VId x, VId y => String.compare (toHexString x) (toHexString y)
  | VObj xs, VObj ys =>
      (fix go (xs ys : list (string * value)) {struct xs} : comparison :=
         match xs, ys with
         | [], [] => Eq
         | [], _ :: _ => Lt
         | _ :: _, [] => Gt
         | (k, v) :: xs', (k', w) :: ys' =>
             match Nat.compare (rank v) (rank w) with
             | Eq =>
                 match String.compare k k' with
                 | Eq => match compare v w with Eq => go xs' ys' | c => c end
                 | c => c
                 end
             | c => c
             end
         end) xs ys
  | _, _ => Nat.compare (rank a) (rank b)
  end.

(** A missing field sorts as null. *)
Definition sort_key (k : string) (d : doc) : value :=
  match get_field k d with Some v => v | None => VNull end.

End Bson.

(** ** Regular expressions: the modelled fragment of [$regex]

    A pattern is a sequence of atoms, each optionally followed by one of
    the quantifiers [*], [+], [?].  An atom is an ordinary character, the
    dot, or a backslash followed by a character that is neither a letter
    nor a digit.  Every other use of a metacharacter (classes, groups,
    alternation, anchors, counted repetition, lazy and possessive
    quantifiers) is outside the fragment: [parse] returns [None].
    Matching is unanchored and, as the handler asks with option [i],
    ignores case.  The matcher reads a text byte by byte and folds the
    case of the ASCII letters, which is what [$regex] does on printable
    ASCII text: the handler that uses it leaves the modelled fragment
    when the pattern or a title has any other byte. *)

Module Regex.
Import JS.

Inductive cls :=
| AnyChar              (* any character, used for the unanchored search *)
| Dot                  (* [.]: any character but a line feed *)
| Lit (c : ascii).     (* a character, compared without case *)

Definition cls_match (k : cls) (c : ascii) : bool :=
  match k with
  | AnyChar => true
  | Dot => negb (Ascii.eqb c "010"%char)
  | Lit x => Ascii.eqb (lower_ascii x) (lower_ascii c)
  end.

Inductive regex :=
| Void
| Eps
| Sym (k : cls)
| Cat (r s : regex)
| Alt (r s : regex)
| Star (r : regex).

Fixpoint nullable (r : regex) : bool :=
  match r with
  | Void => false
  | Eps => true
  | Sym _ => false
  | Cat r s => nullable r && nullable s
  | Alt r s => nullable r || nullable s
  | Star _ => true
  end.

Fixpoint deriv (c : ascii) (r : regex) : regex :=
  match r with
  | Void => Void
  | Eps => Void
  | Sym k => if cls_match k c then Eps else Void
  | Cat r s =>
      if nullable r then Alt (Cat (deriv c r) s) (deriv c s)
      else Cat (deriv c r) s
  | Alt r s => Alt (deriv c r) (deriv c s)
  | Star r => Cat (deriv c r) (Star r)
  end.

Fixpoint matches (r : regex) (s : list ascii) : bool :=
  match s with
  | [] => nullable r
  | c :: s' => matches (deriv c r) s'
  end.

(** The pattern matches somewhere in the subject. *)
Definition search (r : regex) (s : list ascii) : bool :=
  matches (Cat (Star (Sym AnyChar)) (Cat r (Star (Sym AnyChar)))) s.

Definition metachars : list ascii := list_ascii_of_string "\^$.[]|()?*+{}".

Definition is_meta (c : ascii) : bool := existsb (Ascii.eqb c) metachars.

Definition is_alnum (c : ascii) : bool :=
  match digit_value c with Some _ => true | None => false end.

Inductive token :=
| TAtom (k : cls)
| TQuant (q : ascii).

Definition is_quant (c : ascii) : bool :=
  Ascii.eqb c "*" || Ascii.eqb c "+" || Ascii.eqb c "?".

Fixpoint lex (s : list ascii) : option (list token) :=
  match s with
  | [] => Some []
  | c :: r =>
      if Ascii.eqb c "\" then
        match r with
        | e :: r' =>
            if is_alnum e then None
            else option_map (cons (TAtom (Lit e))) (lex r')
        | [] => None
        end
      else if Ascii.eqb c "." then option_map (cons (TAtom Dot)) (lex r)
      else if is_quant c then option_map (cons (TQuant c)) (lex r)
      else if is_meta c then None
      else option_map (cons (TAtom (Lit c))) (lex r)
  end.

Definition quantify (q : ascii) (a : regex) : regex :=
  if Ascii.eqb q "*" then Star a
  else if Ascii.eqb q "+" then Cat a (Star a)
  else Alt Eps a.

Fixpoint build (ts : list token) : option regex :=
  match ts with
  | [] => Some Eps
  | TQuant _ :: _ => None
  | TAtom k :: r =>
      match r with
      | TQuant q :: r' =>
          match r' with
          | TQuant _ :: _ => None
          | _ => option_map (Cat (quantify q (Sym k))) (build r')
          end
      | _ => option_map (Cat (Sym k)) (build r)
      end
  end.

Definition parse (pattern : string) : option regex :=
  match lex (list_ascii_of_string pattern) with
  | Some ts => build ts
  | None => None
  end.




(** The texts on which matching is modelled: printable ASCII, from the
    space to the tilde. *)
Definition ascii_text (s : string) : bool :=
  forallb (fun c => Nat.leb 32 (nat_of_ascii c) && Nat.leb (nat_of_ascii c) 126)
    (list_ascii_of_string s).

End Regex.

(** ** MongoDB: collections, cursors, writes, aggregation stages *)

Module Mongo.
Import JS.

Definition collection := list doc.

(** The conditions the handlers put on a field path. *)
Inductive cond :=
| CEq (v : value)              (* { path: v } *)
| CRegexI (r : Regex.regex)    (* { path: { $regex: .., $options: 'i' } } *)
| CExists.                     (* { path: { $exists: true } } *)

Definition filter := list (list string * cond).

(** Equality with null also selects the documents without the field. *)
Definition cond_holds (c : cond) (fv : jsval) : bool :=
  match c, fv with
  | CEq VNull, None => true
  | CEq v, Some w => value_eqb v w
  | CEq _, None => false
  | CRegexI r, Some (VStr s) => Regex.search r (list_ascii_of_string s)
  | CRegexI _, _ => false
  | CExists, Some _ => true
  | CExists, None => false
  end.

Definition matches (q : filter) (d : doc) : bool :=
  forallb (fun pc => cond_holds (snd pc) (get_path (fst pc) d)) q.

Definition find (q : filter) (c : collection) : list doc :=
  List.filter (matches q) c.

Definition findOne (q : filter) (c : collection) : option doc :=
  List.find (matches q) c.

(** [cursor.skip(n)]: the server refuses a negative number. *)
Definition skip (n : Z) (l : list doc) : option (list doc) :=
  if n <? 0 then None else Some (skipn (Z.to_nat n) l).

(** [cursor.limit(n)]: zero is no limit, and the driver sends the
    absolute value of a negative number. *)
Definition limit (n : Z) (l : list doc) : list doc :=
  if n =? 0 then l else firstn (Z.to_nat (Z.abs n)) l.

(** [cursor.sort({ k: -1 })]: insertion keeps the natural order among
    documents with equal keys. *)
Definition before_desc (k : string) (a b : doc) : bool :=
  match Bson.compare (Bson.sort_key k a) (Bson.sort_key k b) with
  | Lt => false
  | _ => true
  end.

Fixpoint insert_desc (k : string) (x : doc) (l : list doc) : list doc :=
  match l with
  | [] => [x]
  | y :: r => if before_desc k x y then x :: l else y :: insert_desc k x r
  end.

Definition sort_desc (k : string) (l : list doc) : list doc :=
  fold_right (insert_desc k) [] l.

Definition has_id (id : value) (d : doc) : bool :=
  match get_field "_id" d with Some w => value_eqb id w | None => false end.

(** [insertOne(d)]: the driver adds the generated [_id] to a document
    that has none; a duplicate [_id] is refused ([None]). *)
Definition insertOne (d : doc) (generated : ObjectId) (c : collection)
  : option (value * collection) :=
  let stored :=
    match get_field "_id" d with
    | Some _ => d
    | None => ("_id", VId generated) :: d
    end in
  let id := match get_field "_id" stored with Some v => v | None => VNull end in
  if existsb (has_id id) c then None else Some (id, c ++ [stored]).

(** A field name that [$set] takes as a plain top-level field. *)
Definition plain_key (k : string) : bool :=
  negb (String.eqb k "") && negb (String.eqb k "_id")
  && negb (String.prefix "$" k)
  && negb (existsb (Ascii.eqb ".") (list_ascii_of_string k)).

Definition plain_update (upd : doc) : bool :=
  forallb (fun kv => plain_key (fst kv)) upd.

Definition doc_eqb (a b : doc) : bool := value_eqb (VObj a) (VObj b).

Record UpdateResult := { matchedCount : Z; modifiedCount : Z }.

(** [updateOne(q, { $set: upd })] on the first document that matches.
    The fields of [upd] are assigned to it; the place the server gives
    to a new field is not modelled beyond the old fields keeping theirs,
    and no statement depends on it. *)
Fixpoint updateOne_set (q : filter) (upd : doc) (c : collection)
  : UpdateResult * collection :=
  match c with
  | [] => ({| matchedCount := 0; modifiedCount := 0 |}, [])
  | d :: r =>
      if matches q d then
        let d' := assign d upd in
        ({| matchedCount := 1;
            modifiedCount := if doc_eqb d d' then 0 else 1 |}, d' :: r)
      else
        let (res, r') := updateOne_set q upd r in (res, d :: r')
  end.

(** Update paths other than plain field names are not modelled. *)
Definition updateOne (q : filter) (upd : doc) (c : collection)
  : option (UpdateResult * collection) :=
  if plain_update upd then Some (updateOne_set q upd c) else None.

(** [deleteOne(q)]: the deleted count and the collection. *)
Fixpoint deleteOne (q : filter) (c : collection) : Z * collection :=
  match c with
  | [] => (0, [])
  | d :: r =>
      if matches q d then (1, r)
      else let (n, r') := deleteOne q r in (n, d :: r')
  end.

(** *** Aggregation stages *)

Definition agg_match (q : filter) (c : list doc) : list doc := find q c.

Definition or_null (v : jsval) : value :=
  match v with Some w => w | None => VNull end.

(** [{ $group: { _id: '$key', doc: { $first: '$field' } } }], the groups
    in the order of their first document. *)
Fixpoint group_first (key : list string) (c : list doc) : list (value * doc) :=
  match c with
  | [] => []
  | d :: r =>
      let k := or_null (get_path key d) in
      (k, d) :: List.filter (fun g => negb (value_eqb k (fst g)))
                  (group_first key r)
  end.

Definition agg_group_first (key : list string) (field : string) (c : list doc)
  : list doc :=
  map (fun g => [("_id", fst g); ("doc", or_null (get_field field (snd g)))])
    (group_first key c).

(** [{ $replaceRoot: { newRoot: '$field' } }] fails on a document whose
    field is not an embedded document. *)
Fixpoint agg_replaceRoot (field : string) (c : list doc) : option (list doc) :=
  match c with
  | [] => Some []
  | d :: r =>
      match get_field field d, agg_replaceRoot field r with
      | Some (VObj root), Some r' => Some (root :: r')
      | _, _ => None
      end
  end.

(** [{ $limit: n }] must be positive. *)
Definition agg_limit (n : Z) (c : list doc) : option (list doc) :=
  if 0 <? n then Some (firstn (Z.to_nat n) c) else None.

(** [$lookup] pairs a document with the foreign documents whose
    [foreignField] equals its [localField]; a missing field is null. *)
Definition agg_lookup (foreign : collection) (localField foreignField : string)
    (c : list doc) : list (doc * list doc) :=
  map (fun d =>
         (d, List.filter
               (fun f => value_eqb (or_null (get_field localField d))
                                   (or_null (get_field foreignField f)))
               foreign)) c.

(** [{ $unwind: '$as' }] after [$lookup ... as]: one document for each
    joined document, none when there is none. *)
Definition agg_unwind (as_ : string) (c : list (doc * list doc)) : list doc :=
  flat_map (fun p => map (fun f => set_field as_ (VObj f) (fst p)) (snd p)) c.

(** [{ $project: { f: 1, ... } }] keeps [_id] and the named fields. *)
Definition agg_project (fields : list string) (c : list doc) : list doc :=
  map (List.filter
         (fun kv => existsb (String.eqb (fst kv)) ("_id" :: fields))) c.

End Mongo.

(** ** Joi: the schema combinators of [courseSchema]

    What Joi's string formats accept, and which numeric strings its
    default conversion turns into numbers, is the library's business:
    the validator takes them as [formats]. *)

Module Joi.
Import JS.

Record formats := {
  is_uri : string -> bool;                  (* Joi.string().uri() *)
  is_email : string -> bool;                (* Joi.string().email() *)
  number_of_string : string -> option Z     (* conversion done by Joi.number() *)
}.

Inductive format := Plain | Uri | Email.

#[warnings="-register-all"]
Inductive schema :=
| String_ (f : format) (required allowEmpty : bool)
| Number_ (min : option Z) (required : bool)
| Boolean_ (required : bool)
| Object_ (keys : list (string * schema)) (required : bool).

Inductive code :=
| any_required
| string_base
| string_empty
| string_uri
| string_email
| number_base
| number_unsafe
| number_min (limit : Z)
| boolean_base
| object_base
| object_unknown.

Record error := { path : list string; type : code }.

Definition fail (p : list string) (c : code) : option error :=
  Some {| path := p; type := c |}.

Definition missing (required : bool) (p : list string) : option error :=
  if required then fail p any_required else None.

Definition check_format (F : formats) (f : format) (p : list string) (s : string)
  : option error :=
  match f with
  | Plain => None
  | Uri => if is_uri F s then None else fail p string_uri
  | Email => if is_email F s then None else fail p string_email
  end.

(** A number must be in the range of exact integers, then at least the
    minimum. *)
Definition MAX_SAFE_INTEGER : Z := 9007199254740991.

Definition check_number (min : option Z) (p : list string) (n : Z)
  : option error :=
  if (MAX_SAFE_INTEGER <? n) || (n <? - MAX_SAFE_INTEGER) then
    fail p number_unsafe
  else
    match min with
    | Some m => if n <? m then fail p (number_min m) else None
    | None => None
    end.

(** The keys of the object that the schema does not declare. *)
Definition unknown_keys (keys : list (string * schema)) (d : doc) : list string :=
  List.filter (fun k => negb (existsb (String.eqb k) (map fst keys)))
    (map fst d).

(** Validation with [abortEarly]: the declared keys in the order of the
    schema, then the undeclared keys of the value in its own order; the
    first error is the result. *)
Fixpoint validate (F : formats) (s : schema) (p : list string) (v : jsval)
  {struct s} : option error :=
  match s with
  | String_ f required allowEmpty =>
      match v with
      | None => missing required p
      | Some (VStr x) =>
          if String.eqb x "" then
            if allowEmpty then None else fail p string_empty
          else check_format F f p x
      | Some _ => fail p string_base
      end
  | Number_ min required =>
      match v with
      | None => missing required p
      | Some (VNum n) => check_number min p n
      | Some (VStr x) =>
          match number_of_string F x with
          | Some n => check_number min p n
          | None => fail p number_base
          end
      | Some _ => fail p number_base
      end
  | Boolean_ required =>
      match v with
      | None => missing required p
      | Some (VBool _) => None
      | Some (VStr x) =>
          let l := toLowerCase x in
          if String.eqb l "true" || String.eqb l "false" then None
          else fail p boolean_base
      | Some _ => fail p boolean_base
      end
  | Object_ keys required =>
      match v with
      | None => missing required p
      | Some (VObj d) =>
          let children :=
            (fix each (ks : list (string * schema)) : option error :=
               match ks with
               | [] => None
               | (k, child) :: r =>
                   match validate F child (p ++ [k]) (get_field k d) with
                   | Some e => Some e
                   | None => each r
                   end
               end) keys in
          match children with
          | Some e => Some e
          | None =>
              match unknown_keys keys d with
              | k :: _ => fail (p ++ [k]) object_unknown
              | [] => None
              end
          end
      | Some _ => fail p object_base
      end
  end.


(** The label of an error: the path joined by dots, ["value"] at the
    root, between double quotes. *)
Definition dquote : string := String (ascii_of_nat 34) EmptyString.

Definition label (p : list string) : string :=
  match p with
  | [] => "value"
  | _ => join "." p
  end.

Definition Z_to_string (n : Z) : string :=
  NilEmpty.string_of_int (Z.to_int n).

Definition reason (c : code) : string :=
  match c with
  | any_required => " is required"
  | string_base => " must be a string"
  | string_empty => " is not allowed to be empty"
  | string_uri => " must be a valid uri"
  | string_email => " must be a valid email"
  | number_base => " must be a number"
  | number_unsafe => " must be a safe number"
  | number_min m =>
      String.append " must be greater than or equal to " (Z_to_string m)
  | boolean_base => " must be a boolean"
  | object_base => " must be of type object"
  | object_unknown => " is not allowed"
  end.

(** [error.details[0].message] *)
Definition message (e : error) : string :=
  String.append dquote
    (String.append (label (path e)) (String.append dquote (reason (type e)))).

End Joi.

(** ** The server: [index.js] *)

Module Server.
Import JS Mongo.

Record request := {
  authorization : option string;      (* req.headers.authorization *)
  query : list (string * string);     (* req.query *)
  params_id : string;                 (* req.params.id *)
  body : option doc                   (* req.body *)
}.

Fixpoint query_param (k : string) (q : list (string * string)) : option string :=
  match q with
  | [] => None
  | (k', v) :: r => if String.eqb k k' then Some v else query_param k r
  end.

(** A non-empty string is the only truthy query parameter. *)
Definition truthy_param (p : option string) : option string :=
  match p with
  | Some s => if String.eqb s "" then None else Some s
  | None => None
  end.

Inductive payload :=
| Json (d : doc)
| JsonList (l : list doc).

(** [Uncaught]: the handler threw or its promise was rejected, and
    Express answers 500 on its own. *)
Inductive response :=
| Send (status : Z) (p : payload)
| Uncaught.

Definition error (status : Z) (msg : string) : response :=
  Send status (Json [("error", VStr msg)]).

(** What a request takes from outside: [new Date()] and the [_id] the
    driver generates for an insert. *)
Record env := { now : Z; generated : ObjectId }.

(** A handler at an [await] on the database: it has answered, or it
    goes on with what it holds. *)
Inductive step (A : Type) :=
| Answered (r : response)
| Pending (a : A).
Arguments Answered {A} r.
Arguments Pending {A} a.

Record db := {
  users : collection;
  courses : collection;       (* all-courses *)
  enrolled : collection       (* enrolled-courses *)
}.

Definition with_users (s : db) (c : collection) : db :=
  {| users := c; courses := courses s; enrolled := enrolled s |}.
Definition with_courses (s : db) (c : collection) : db :=
  {| users := users s; courses := c; enrolled := enrolled s |}.
Definition with_enrolled (s : db) (c : collection) : db :=
  {| users := users s; courses := courses s; enrolled := c |}.

(** [None]: the request leaves the modelled fragment. *)
Definition outcome := option (response * db).

(** An object literal on its way to the database: the driver stores
    [undefined] as null. *)
Definition to_bson (l : list (string * jsval)) : doc :=
  map (fun kv => (fst kv, or_null (snd kv))) l.

(** An object literal on its way to the client: [JSON.stringify] drops
    the [undefined] properties. *)
Fixpoint to_json (l : list (string * jsval)) : doc :=
  match l with
  | [] => []
  | (k, Some v) :: r => (k, v) :: to_json r
  | (_, None) :: r => to_json r
  end.

Inductive middleware (A : Type) :=
| Next (a : A)
| Reply (r : response).
Arguments Next {A} a.
Arguments Reply {A} r.

Inductive endpoint :=
| GetRoot | GetUsers | PostUsers | GetAllCourses | GetCourse
| GetFeaturedCourses | GetInstructors | PostCourses | PutCourse
| DeleteCourse | GetMyCourses | PostEnroll | GetEnrolled.

(** The role [checkRole] is given where the route is registered. *)
Definition required_role (e : endpoint) : option string :=
  match e with
  | PostCourses | PutCourse | DeleteCourse | GetMyCourses => Some "instructor"
  | PostEnroll | GetEnrolled => Some "student"
  | _ => None
  end.

(** [courseSchema] (index.js, 68-81) *)
Definition courseSchema : Joi.schema :=
  Joi.Object_
    [ ("title", Joi.String_ Joi.Plain true false);
      ("image", Joi.String_ Joi.Uri true false);
      ("price", Joi.Number_ (Some 0) true);
      ("duration", Joi.String_ Joi.Plain true false);
      ("category", Joi.String_ Joi.Plain true false);
      ("description", Joi.String_ Joi.Plain true false);
      ("isFeatured", Joi.Boolean_ false);
      ("instructor",
        Joi.Object_
          [ ("name", Joi.String_ Joi.Plain true false);
            ("email", Joi.String_ Joi.Email true false);
            ("photo", Joi.String_ Joi.Uri false true) ]
          true) ]
    false.

Definition by_id (id : string) : filter :=
  [(["_id"], CEq (VId (Bson.fromHex id)))].

(** [c => ({ ...c, image: c.image || c.imageUrl || '' })] *)
Definition normalize_image (c : doc) : doc :=
  set_field "image"
    (or_null (js_or (js_or (get_field "image" c) (get_field "imageUrl" c))
                (Some (VStr ""))))
    c.

(** [u => ({ name: u.name, email: u.email, photo: u.photo || '' })] *)
Definition instructor_card (u : doc) : doc :=
  to_json [ ("name", get_field "name" u);
            ("email", get_field "email" u);
            ("photo", js_or (get_field "photo" u) (Some (VStr ""))) ].

Section Handlers.

(** The collaborators outside the repository. *)

(** [admin.auth().verifyIdToken]: the email of the decoded token, or
    [None] when verification throws. *)
Variable verifyIdToken : string -> option string.

Variable joi_formats : Joi.formats.

(** What [new ObjectId(n)] makes of a number [n]: [None] where the
    constructor throws.  Where bson generates an identifier from the
    number, the identifier depends on the process (a random value and a
    counter that every use advances), that is on the request and on how
    many identifiers the request has built before. *)
Variable of_number : env -> Z -> nat -> option ObjectId.

(** [$group] promises no order of its groups. *)
Variable group_order : list doc -> list doc.

(** *** Auth middlewares (index.js, 35-56) *)

Definition verifyUser (req : request) : middleware string :=
  match authorization req with
  | None => Reply (error 401 "No token")
  | Some authHeader =>
      if negb (startsWith authHeader "Bearer ") then Reply (error 401 "No token")
      else
        match nth_error (split " " authHeader) 1 with
        | Some token =>
            match verifyIdToken token with
            | Some email => Next email
            | None => Reply (error 403 "Invalid token")
            end
        | None => Reply (error 403 "Invalid token")
        end
  end.

Definition checkRole (requiredRole : string) (email : string) (s : db)
  : middleware unit :=
  match findOne [(["email"], CEq (VStr email))] (users s) with
  | None => Reply (error 403 "User not found")
  | Some found =>
      if strict_eq_str (get_field "role" found) requiredRole then Next tt
      else Reply (error 403 "Forbidden: wrong role")
  end.

(** [verifyUser, checkRole(role), handler] *)
Definition protected (role : string) (handler : string -> outcome)
    (req : request) (s : db) : outcome :=
  match verifyUser req with
  | Reply r => Some (r, s)
  | Next email =>
      match checkRole role email s with
      | Reply r => Some (r, s)
      | Next _ => handler email
      end
  end.

(** *** User endpoints (index.js, 84-99) *)

Definition get_users (req : request) (s : db) : outcome :=
  match truthy_param (query_param "email" (query req)) with
  | None => Some (error 400 "email query required", s)
  | Some email =>
      match findOne [(["email"], CEq (VStr email))] (users s) with
      | None => Some (Send 200 (Json [("role", VStr "student")]), s)
      | Some found =>
          Some (Send 200 (Json (to_json [("role", get_field "role" found)])), s)
      end
  end.

(** [POST /users] awaits [findOne] (lines 93-96) and then [insertOne]
    (lines 97-98): two accesses to the database, between which another
    request may be served. *)
Definition post_users_lookup (req : request) (s : db) : step doc :=
  match body req with
  | None => Answered Uncaught
  | Some b =>
      let email := get_field "email" b in
      let name := get_field "name" b in
      let photo := get_field "photo" b in
      let role :=
        match get_field "role" b with
        | None => Some (VStr "student")
        | Some r => Some r
        end in
      if negb (truthy_opt email) then Answered (error 400 "Email required")
      else
        match findOne [(["email"], CEq (or_null email))] (users s) with
        | Some existing => Answered (Send 200 (Json existing))
        | None =>
            Pending (to_bson [("email", email); ("name", name);
                              ("photo", photo); ("role", role)])
        end
  end.

Definition post_users_insert (d : doc) (e : env) (s : db) : response * db :=
  match insertOne d (generated e) (users s) with
  | Some (insertedId, us) =>
      (Send 200 (Json [("insertedId", insertedId)]), with_users s us)
  | None => (Uncaught, s)
  end.

(** The handler served with no other request between its two accesses. *)
Definition post_users (req : request) (e : env) (s : db) : outcome :=
  match post_users_lookup req s with
  | Answered r => Some (r, s)
  | Pending d => Some (post_users_insert d e s)
  end.

(** *** Public endpoints (index.js, 102-157) *)

(** [None]: the pattern is outside the modelled fragment, or is not
    printable ASCII text. *)
Definition all_courses_filter (category search : option string)
  : option filter :=
  let q1 :=
    match truthy_param category with
    | Some c => [(["category"], CEq (VStr c))]
    | None => []
    end in
  match truthy_param search with
  | Some pat =>
      match Regex.parse pat with
      | Some r =>
          if Regex.ascii_text pat then Some (q1 ++ [(["title"], CRegexI r)])
          else None
      | None => None
      end
  | None => Some q1
  end.

(** The subjects of a [$regex] on [title] are printable ASCII texts. *)
Definition ascii_titles (c : collection) : bool :=
  forallb (fun d =>
             match get_field "title" d with
             | Some (VStr t) => Regex.ascii_text t
             | _ => true
             end) c.

(** [const { name = dflt } = req.query] followed by [parseInt(name)] *)
Definition int_param (name : string) (dflt : Z) (req : request) : number :=
  match query_param name (query req) with
  | Some text => parseInt text None
  | None => Int dflt
  end.

(** The handler leaves the modelled fragment ([None]) where [page],
    [limit] or [(page - 1) * limit] is not an integer of the exact
    range, and where a search meets a title that is not printable ASCII
    text. *)
Definition all_courses (req : request) (s : db) : outcome :=
  let category := query_param "category" (query req) in
  let search := query_param "search" (query req) in
  let page := int_param "page" 1 req in
  let limit := int_param "limit" 100 req in
  let subjects :=
    match truthy_param search with
    | Some _ => ascii_titles (courses s)
    | None => true
    end in
  match all_courses_filter category search, page, limit with
  | Some q, Int page, Int limit =>
      match number_of_Z (page - 1) with
      | Int before =>
          match number_of_Z (before * limit) with
          | Int skip =>
              if negb subjects then None
              else
                match Mongo.skip skip (find q (courses s)) with
                | Some rest =>
                    Some (Send 200 (JsonList (Mongo.limit limit rest)), s)
                | None => Some (Uncaught, s)
                end
          | _ => None
          end
      | _ => None
      end
  | _, _, _ => None
  end.

Definition get_course (req : request) (s : db) : outcome :=
  let id := params_id req in
  if negb (Bson.validateHexString id) then Some (error 400 "Invalid id", s)
  else
    match findOne (by_id id) (courses s) with
    | None => Some (error 404 "Course not found", s)
    | Some d => Some (Send 200 (Json d), s)
    end.

(** [Math.min(parseInt(req.query.limit || dflt, 10), 100)] *)
Definition capped_limit (req : request) (dflt : string) : number :=
  let text :=
    match truthy_param (query_param "limit" (query req)) with
    | Some l => l
    | None => dflt
    end in
  Math_min (parseInt text (Some 10)) 100.

Definition featured_courses (req : request) (s : db) : outcome :=
  match capped_limit req "6" with
  | Int limit =>
      let list :=
        Mongo.limit limit
          (sort_desc "createdAt"
             (find [(["isFeatured"], CEq (VBool true))] (courses s))) in
      Some (Send 200 (JsonList (map normalize_image list)), s)
  | _ => None
  end.

Definition instructors_pipeline (limit : Z) (c : collection)
  : option (list doc) :=
  let matched := agg_match [(["instructor"; "email"], CExists)] c in
  let grouped :=
    group_order (agg_group_first ["instructor"; "email"] "instructor" matched) in
  match agg_replaceRoot "doc" grouped with
  | Some roots => agg_limit limit roots
  | None => None
  end.

Definition instructors (req : request) (s : db) : outcome :=
  match capped_limit req "4" with
  | Int limit =>
      let instructorsFromUsers :=
        Mongo.limit limit (find [(["role"], CEq (VStr "instructor"))] (users s)) in
      if (0 <? List.length instructorsFromUsers)%nat then
        Some (Send 200
                (JsonList (map instructor_card (slice0 limit instructorsFromUsers))),
              s)
      else
        match instructors_pipeline limit (courses s) with
        | Some list => Some (Send 200 (JsonList list), s)
        | None => Some (error 500 "Server error", s)
        end
  | _ => None
  end.

(** *** Instructor endpoints, behind the middlewares (index.js, 160-190) *)

Definition post_courses (req : request) (e : env) (s : db) : outcome :=
  let payload := body req in
  match Joi.validate joi_formats courseSchema [] (option_map VObj payload) with
  | Some err => Some (error 400 (Joi.message err), s)
  | None =>
      match insertOne (set_field "createdAt" (VDate (now e)) (spread payload))
              (generated e) (courses s) with
      | Some (insertedId, cs) =>
          Some (Send 200 (Json [("insertedId", insertedId)]), with_courses s cs)
      | None => Some (Uncaught, s)
      end
  end.

Definition put_course (req : request) (e : env) (s : db) : outcome :=
  let id := params_id req in
  if negb (Bson.validateHexString id) then Some (error 400 "Invalid id", s)
  else
    let payload := body req in
    let set := set_field "updatedAt" (VDate (now e)) (spread payload) in
    match updateOne (by_id id) set (courses s) with
    | None => None
    | Some (result, cs) =>
        if matchedCount result =? 0
        then Some (error 404 "Course not found", with_courses s cs)
        else Some (Send 200 (Json [("modifiedCount", VNum (modifiedCount result))]),
                   with_courses s cs)
    end.

Definition delete_course (req : request) (s : db) : outcome :=
  let id := params_id req in
  if negb (Bson.validateHexString id) then Some (error 400 "Invalid id", s)
  else
    let (deletedCount, cs) := deleteOne (by_id id) (courses s) in
    if deletedCount =? 0
    then Some (error 404 "Course not found", with_courses s cs)
    else Some (Send 200 (Json [("deletedCount", VNum deletedCount)]),
               with_courses s cs).

Definition my_courses (email : string) (s : db) : outcome :=
  Some (Send 200
          (JsonList (find [(["instructor"; "email"], CEq (VStr email))] (courses s))),
        s).

(** *** Student endpoints, behind the middlewares (index.js, 193-221) *)

(** [new ObjectId(v)], the [k]-th that the request builds: [None] where
    the constructor throws. *)
Definition new_ObjectId (e : env) (k : nat) (v : value) : option ObjectId :=
  match v with
  | VNum n => of_number e n k
  | _ => Bson.read_id v
  end.

(** [ObjectId.isValid(v)]: not null, and the constructor does not throw;
    it builds, and drops, the first identifier of the request. *)
Definition ObjectId_isValid (e : env) (v : value) : bool :=
  match v with
  | VNull => false
  | _ => match new_ObjectId e 0 v with Some _ => true | None => false end
  end.

Definition enrollment (userEmail : string) (courseId : ObjectId) : filter :=
  [(["userEmail"], CEq (VStr userEmail)); (["courseId"], CEq (VId courseId))].

(** [POST /enroll] awaits [findOne] (lines 194-199) and then [insertOne]
    (lines 200-202), and builds an [ObjectId] from [courseId] three
    times: in [isValid], for the filter and for the record.  A thrown
    exception is answered 500 by Express. *)
Definition enroll_lookup (userEmail : string) (req : request) (e : env) (s : db)
  : step value :=
  match body req with
  | None => Answered Uncaught
  | Some b =>
      let courseId := get_field "courseId" b in
      if negb (truthy_opt courseId) then Answered (error 400 "courseId required")
      else if negb (ObjectId_isValid e (or_null courseId))
      then Answered (error 400 "Invalid courseId")
      else
        match new_ObjectId e 1 (or_null courseId) with
        | None => Answered Uncaught
        | Some oid =>
            match findOne (enrollment userEmail oid) (enrolled s) with
            | Some _ => Answered (error 409 "Already enrolled")
            | None => Pending (or_null courseId)
            end
        end
  end.

Definition enroll_insert (userEmail : string) (courseId : value) (e : env)
    (s : db) : response * db :=
  match new_ObjectId e 2 courseId with
  | None => (Uncaught, s)
  | Some oid =>
      let d := [ ("userEmail", VStr userEmail);
                 ("courseId", VId oid);
                 ("enrolledAt", VDate (now e)) ] in
      match insertOne d (generated e) (enrolled s) with
      | Some (insertedId, es) =>
          (Send 200 (Json [("insertedId", insertedId)]), with_enrolled s es)
      | None => (Uncaught, s)
      end
  end.

(** The handler served with no other request between its two accesses. *)
Definition enroll (userEmail : string) (req : request) (e : env) (s : db)
  : outcome :=
  match enroll_lookup userEmail req e s with
  | Answered r => Some (r, s)
  | Pending courseId => Some (enroll_insert userEmail courseId e s)
  end.

Definition enrolled_pipeline (email : string) (s : db) : list doc :=
  let matched := agg_match [(["userEmail"], CEq (VStr email))] (enrolled s) in
  let joined := agg_lookup (courses s) "courseId" "_id" matched in
  let unwound := agg_unwind "course" joined in
  agg_project ["course"; "enrolledAt"] unwound.

Definition get_enrolled (email : string) (s : db) : outcome :=
  Some (Send 200 (JsonList (enrolled_pipeline email s)), s).

(** *** The routes *)

(** The last function of a route.  [user] is [req.user]: the email that
    [verifyUser] attached, [None] on a route without it, where reading
    [req.user.email] would throw. *)
Definition handler (ep : endpoint) (user : option string) (req : request)
    (e : env) (s : db) : outcome :=
  match ep, user with
  | GetRoot, _ =>
      Some (Send 200 (Json [("ok", VBool true); ("message", VStr "Server running")]), s)
  | GetUsers, _ => get_users req s
  | PostUsers, _ => post_users req e s
  | GetAllCourses, _ => all_courses req s
  | GetCourse, _ => get_course req s
  | GetFeaturedCourses, _ => featured_courses req s
  | GetInstructors, _ => instructors req s
  | PostCourses, _ => post_courses req e s
  | PutCourse, _ => put_course req e s
  | DeleteCourse, _ => delete_course req s
  | GetMyCourses, Some email => my_courses email s
  | PostEnroll, Some email => enroll email req e s
  | GetEnrolled, Some email => get_enrolled email s
  | (GetMyCourses | PostEnroll | GetEnrolled), None => Some (Uncaught, s)
  end.

(** [app.METHOD(path, verifyUser, checkRole(role), handler)] for the
    routes with a role, [app.METHOD(path, handler)] for the others. *)
Definition serve (ep : endpoint) (req : request) (e : env) (s : db) : outcome :=
  match required_role ep with
  | Some role => protected role (fun email => handler ep (Some email) req e s) req s
  | None => handler ep None req e s
  end.

End Handlers.

End Server.

(** ** Sample collaborators and data, for the worked instances *)

Module Sample.
Import JS Mongo Server.

Definition verifyIdToken (token : string) : option string :=
  if String.eqb token "alice-token" then Some "alice@example.com"
  else if String.eqb token "bob-token" then Some "bob@example.com"
  else if String.eqb token "carol-token" then Some "carol@example.com"
  else None.

Definition formats : Joi.formats :=
  {| Joi.is_uri := fun s => String.prefix "http://" s || String.prefix "https://" s;
     Joi.is_email := fun s => existsb (Ascii.eqb "@") (list_ascii_of_string s);
     Joi.number_of_string :=
       fun s => match parseInt s (Some 10) with Int n => Some n | _ => None end |}.

Definition group_order (l : list doc) : list doc := l.

Definition bearer (token : string) : option string :=
  Some (String.append "Bearer " token).

(** An [ObjectId] for a number below 100. *)
Definition oid (n : Z) : ObjectId :=
  mkObjectId
    (String.append "0000000000000000000000"
       (String.append (Joi.Z_to_string (n / 10)) (Joi.Z_to_string (n mod 10)))).

Definition alice : doc :=
  [("_id", VId (oid 1)); ("email", VStr "alice@example.com");
   ("name", VStr "Alice"); ("photo", VNull); ("role", VStr "student")].

Definition bob : doc :=
  [("_id", VId (oid 2)); ("email", VStr "bob@example.com");
   ("name", VStr "Bob"); ("photo", VStr "http://p/bob.png");
   ("role", VStr "instructor")].

Definition bob_card : doc :=
  [("name", VStr "Bob"); ("email", VStr "bob@example.com");
   ("photo", VStr "http://p/bob.png")].

Definition course (id : Z) (title : string) (created : Z) (featured : bool) : doc :=
  [("_id", VId (oid id)); ("title", VStr title);
   ("image", VStr "http://img/c.png"); ("price", VNum 10);
   ("duration", VStr "4h"); ("category", VStr "web");
   ("description", VStr "text"); ("isFeatured", VBool featured);
   ("instructor", VObj bob_card); ("createdAt", VDate created)].

Definition payload : doc :=
  [("title", VStr "Rocq"); ("image", VStr "http://img/r.png");
   ("price", VNum 0); ("duration", VStr "2h"); ("category", VStr "proof");
   ("description", VStr "text"); ("instructor", VObj bob_card)].

Definition store : db :=
  {| users := [alice; bob];
     courses := [course 3 "abc" 100 true; course 4 "React basics" 300 false;
                 course 5 "Node" 200 true];
     enrolled := [] |}.

Definition request0 : request :=
  {| authorization := None; query := []; params_id := ""; body := None |}.

Definition clock (t : Z) (id : Z) : env := {| now := t; generated := oid id |}.

Definition two_digits (n : Z) : string :=
  String.append (Joi.Z_to_string ((n / 10) mod 10)) (Joi.Z_to_string (n mod 10)).

(** Identifiers generated from a number, which differ from one request
    time to another and from one use to the next. *)
Definition of_number (e : env) (n : Z) (k : nat) : option ObjectId :=
  Some (mkObjectId
          (String.append "aaaaaaaaaaaaaaaaaaaa"
             (String.append (two_digits (now e)) (two_digits (Z.of_nat k))))).

End Sample.

(** ** Vocabulary of the statements *)

Module Terms.
Import JS Mongo Server.

(** The record [POST /users] stores for a body. *)
Definition first_login_record (g : ObjectId) (email : string) (b : doc) : doc :=
  [ ("_id", VId g); ("email", VStr email);
    ("name", or_null (get_field "name" b));
    ("photo", or_null (get_field "photo" b));
    ("role", match get_field "role" b with
             | Some r => r
             | None => VStr "student"
             end) ].

(** The record [POST /enroll] stores. *)
Definition enrollment_record (g : ObjectId) (userEmail : string)
    (courseId : ObjectId) (t : Z) : doc :=
  [ ("_id", VId g); ("userEmail", VStr userEmail);
    ("courseId", VId courseId); ("enrolledAt", VDate t) ].

(** The enrollment records of a pair. *)
Definition enrollments_of (userEmail : string) (courseId : ObjectId)
    (s : db) : list doc :=
  find (enrollment userEmail courseId) (enrolled s).


(** The course [POST /courses] stores for a payload. *)
Definition course_record (g : ObjectId) (t : Z) (payload : doc) : doc :=
  ("_id", VId g) :: set_field "createdAt" (VDate t) payload.

(** The child schema of a declared key accepts the value the object
    [d] has for it, the path of the object being [p]. *)
Definition accepted (F : Joi.formats) (p : list string) (d : doc)
    (kc : string * Joi.schema) : Prop :=
  Joi.validate F (snd kc) (p ++ [fst kc]) (get_field (fst kc) d) = None.


(** The loop over the declared keys, as a function of its own. *)
Fixpoint validate_children (F : Joi.formats) (p : list string) (d : doc)
    (keys : list (string * Joi.schema)) : option Joi.error :=
  match keys with
  | [] => None
  | (k, child) :: r =>
      match Joi.validate F child (p ++ [k]) (get_field k d) with
      | Some e => Some e
      | None => validate_children F p d r
      end
  end.

(** The join of the enrollment listing, in the words of the
    specification: the course an enrollment refers to, if it exists; the
    entry of an enrollment with its course inlined; one entry for each
    enrollment of the user whose course exists, none for the others. *)
Definition refers_to (e c : doc) : bool :=
  value_eqb (or_null (get_field "courseId" e)) (or_null (get_field "_id" c)).

Definition course_of (cs : collection) (e : doc) : option doc :=
  List.find (refers_to e) cs.

Definition enrolled_entry (e c : doc) : doc :=
  List.filter
    (fun kv => existsb (String.eqb (fst kv)) ["_id"; "course"; "enrolledAt"])
    (set_field "course" (VObj c) e).

Definition listForUser (email : string) (s : db) : list doc :=
  flat_map
    (fun e =>
       match course_of (courses s) e with
       | Some c => [enrolled_entry e c]
       | None => []
       end)
    (find [(["userEmail"], CEq (VStr email))] (enrolled s)).

(** No two courses have the same [_id]. *)
Definition unique_ids (c : collection) : Prop :=
  NoDup (map (fun d => or_null (get_field "_id" d)) c).



Definition instructor_email (c : doc) : jsval :=
  get_path ["instructor"; "email"] c.



(** The featured courses. *)
Definition featured (s : db) : list doc :=
  find [(["isFeatured"], CEq (VBool true))] (courses s).

(** [a] may come before [b] in the order of [createdAt] descending:
    the [createdAt] of [a] is not below that of [b] in the BSON order. *)
Definition created_desc (a b : doc) : Prop :=
  Bson.compare (Bson.sort_key "createdAt" a) (Bson.sort_key "createdAt" b) <> Lt.

(** The image of a listed course: the stored [image] when it is truthy
    (present, and not null, empty, zero or false), else [imageUrl] when
    it is truthy, else the empty string. *)
Definition usable (v : jsval) : option value :=
  match v with
  | Some w => if truthy w then Some w else None
  | None => None
  end.

Definition normalized_image (c : doc) : value :=
  match usable (get_field "image" c), usable (get_field "imageUrl" c) with
  | Some v, _ => v
  | None, Some w => w
  | None, None => VStr ""
  end.





(** The title of the course matches the pattern somewhere, ignoring
    case. *)
Definition title_matches (pattern : string) (c : doc) : Prop :=
  exists r t,
    Regex.parse pattern = Some r
    /\ get_field "title" c = Some (VStr t)
    /\ Regex.search r (list_ascii_of_string t) = true.

(** The two conditions of the course listing: none when the parameter
    is absent or empty. *)
Definition category_is (category : option string) (c : doc) : Prop :=
  match truthy_param category with
  | Some cat => get_field "category" c = Some (VStr cat)
  | None => True
  end.

Definition title_is (search : option string) (c : doc) : Prop :=
  match truthy_param search with
  | Some pattern => title_matches pattern c
  | None => True
  end.

(** The decimal numerals: one or more decimal digits, read in base
    ten. *)
Definition is_digit (c : ascii) : bool :=
  let n := nat_of_ascii c in (Nat.leb 48 n && Nat.leb n 57)%bool.

Fixpoint all_digits (s : string) : bool :=
  match s with
  | EmptyString => true
  | String c r => is_digit c && all_digits r
  end.

Fixpoint digits_value (s : string) (acc : Z) : Z :=
  match s with
  | EmptyString => acc
  | String c r => digits_value r (10 * acc + Z.of_nat (nat_of_ascii c - 48))
  end.

Definition numeral (text : string) (n : Z) : Prop :=
  text <> "" /\ all_digits text = true /\ digits_value text 0 = n.

(** The request gives the number [n] for a parameter of the course
    listing: as a numeral, or by leaving the parameter out when [n] is
    the default. *)
Definition given (name : string) (dflt : Z) (req : request) (n : Z) : Prop :=
  match query_param name (query req) with
  | Some text => numeral text n
  | None => n = dflt
  end.

(** The request asks for the limit [n] of the featured courses or of
    the instructors: as a numeral, or by leaving [limit] out or empty
    when [n] is the default. *)
Definition limit_given (dflt : Z) (req : request) (n : Z) : Prop :=
  match truthy_param (query_param "limit" (query req)) with
  | Some text => numeral text n
  | None => n = dflt
  end.

(** The search of a request is within what is modelled of [$regex]:
    the search text, when one is given, is printable ASCII text and a
    pattern of the fragment, and the titles of the courses are printable
    ASCII texts. *)
Definition modelled_search (search : option string) (c : collection) : Prop :=
  forall pattern,
    truthy_param search = Some pattern ->
    Regex.ascii_text pattern = true
    /\ (exists r, Regex.parse pattern = Some r)
    /\ (forall d t, In d c -> get_field "title" d = Some (VStr t) ->
          Regex.ascii_text t = true).

(** The request carries a credential that verifies as [email]. *)
Definition valid_credential (verifyIdToken : string -> option string)
    (req : request) (email : string) : Prop :=
  exists header token,
    authorization req = Some header
    /\ startsWith header "Bearer " = true
    /\ nth_error (split " " header) 1 = Some token
    /\ verifyIdToken token = Some email.

(** The required schema of a course, field by field, in the words of
    the specification. *)
Definition format_ok (F : Joi.formats) (f : Joi.format) (x : string) : Prop :=
  match f with
  | Joi.Plain => True
  | Joi.Uri => Joi.is_uri F x = true
  | Joi.Email => Joi.is_email F x = true
  end.

(** A required string: present, a string, not empty, of the format. *)
Definition text_field (F : Joi.formats) (f : Joi.format) (v : jsval) : Prop :=
  exists x, v = Some (VStr x) /\ x <> "" /\ format_ok F f x.

(** A required number (or a numeric string) that is at least [m]. *)
Definition number_field (F : Joi.formats) (m : Z) (v : jsval) : Prop :=
  exists n,
    (v = Some (VNum n)
     \/ exists x, v = Some (VStr x) /\ Joi.number_of_string F x = Some n)
    /\ m <= n <= Joi.MAX_SAFE_INTEGER.

(** An optional boolean (or the text of one). *)
Definition flag_field (v : jsval) : Prop :=
  v = None
  \/ (exists b, v = Some (VBool b))
  \/ (exists x, v = Some (VStr x)
                /\ (toLowerCase x = "true" \/ toLowerCase x = "false")).

(** An optional URI that may be empty. *)
Definition photo_field (F : Joi.formats) (v : jsval) : Prop :=
  v = None \/ v = Some (VStr "") \/ text_field F Joi.Uri v.

Definition only_keys (names : list string) (d : doc) : Prop :=
  forall k, In k (map fst d) -> In k names.

Definition instructor_field (F : Joi.formats) (v : jsval) : Prop :=
  exists d,
    v = Some (VObj d)
    /\ text_field F Joi.Plain (get_field "name" d)
    /\ text_field F Joi.Email (get_field "email" d)
    /\ photo_field F (get_field "photo" d)
    /\ only_keys ["name"; "email"; "photo"] d.

Definition course_payload_ok (F : Joi.formats) (d : doc) : Prop :=
  text_field F Joi.Plain (get_field "title" d)
  /\ text_field F Joi.Uri (get_field "image" d)
  /\ number_field F 0 (get_field "price" d)
  /\ text_field F Joi.Plain (get_field "duration" d)
  /\ text_field F Joi.Plain (get_field "category" d)
  /\ text_field F Joi.Plain (get_field "description" d)
  /\ flag_field (get_field "isFeatured" d)
  /\ instructor_field F (get_field "instructor" d)
  /\ only_keys ["title"; "image"; "price"; "duration"; "category";
                "description"; "isFeatured"; "instructor"] d.

End Terms.

(** ** The first version of the server (the unnamed source file)

    It has one data route, [GET /all-courses], which sends the whole
    collection. *)

Module Legacy.
Import JS Mongo Server.

(** [courseCollection.find().toArray()] (part_000, 35-38) *)
Definition all_courses (s : db) : outcome :=
  Some (Send 200 (JsonList (find [] (courses s))), s).

End Legacy.

(** ** Further vocabulary *)

Module Notions.
Import JS Mongo Server.

(** The text before the first space. *)
Fixpoint before_space (t : string) : string :=
  match t with
  | EmptyString => EmptyString
  | String c r => if Ascii.eqb c " " then EmptyString else String c (before_space r)
  end.

(** The answer is a failure: an uncaught exception or a status from 400. *)
Definition refused (r : response) : Prop :=
  match r with
  | Uncaught => True
  | Send status _ => 400 <= status
  end.

(** The routes registered with [app.get]. *)
Definition is_get (ep : endpoint) : bool :=
  match ep with
  | PostUsers | PostCourses | PutCourse | DeleteCourse | PostEnroll => false
  | _ => true
  end.

(** No two user records have the same [email]. *)
Definition unique_emails (c : collection) : Prop :=
  NoDup (map (get_field "email") c).

(** The user records with an email. *)
Definition users_of (email : string) (s : db) : list doc :=
  find [(["email"], CEq (VStr email))] (users s).

(** No pair (user, course) has two enrollment records. *)
Definition unique_pairs (c : collection) : Prop :=
  forall u o, (List.length (find (enrollment u o) c) <= 1)%nat.

(** In each collection, no two documents have the same [_id]. *)
Definition ids_unique (s : db) : Prop :=
  Terms.unique_ids (users s) /\ Terms.unique_ids (courses s)
  /\ Terms.unique_ids (enrolled s).

(** A value that is not an embedded document. *)
Definition scalar (v : jsval) : Prop :=
  forall d, v <> Some (VObj d).

End Notions.

(** * Properties *)

Import JS Mongo Server Terms.

(** ** Values and documents *)

Section value_induction.
Variable P : value -> Prop.
Hypothesis HNull : P VNull.
Hypothesis HBool : forall b, P (VBool b).
Hypothesis HNum : forall n, P (VNum n).
Hypothesis HStr : forall s, P (VStr s).
Hypothesis HDate : forall ms, P (VDate ms).
Hypothesis HId : forall o, P (VId o).
Hypothesis HObj : forall fs, Forall (fun kv => P (snd kv)) fs -> P (VObj fs).

Fixpoint value_nested_ind (v : value) : P v :=
  match v with
  | VNull => HNull
  | VBool b => HBool b
  | VNum n => HNum n
  | VStr s => HStr s
  | VDate ms => HDate ms
  | VId o => HId o
  | VObj fs =>
      HObj fs
        ((fix all (l : list (string * value)) : Forall (fun kv => P (snd kv)) l :=
            match l with
            | [] => Forall_nil _
            | kv :: r => Forall_cons kv (value_nested_ind (snd kv)) (all r)
            end) fs)
  end.
End value_induction.

Lemma value_eqb_eq : forall a b, value_eqb a b = true -> a = b.
Proof.
  intros a.
  induction a using value_nested_ind; intros [] E; simpl in E;
    try discriminate.
  - reflexivity.
  - apply Bool.eqb_prop in E. now subst.
  - apply Z.eqb_eq in E. now subst.
  - apply String.eqb_eq in E. now subst.
  - apply Z.eqb_eq in E. now subst.
  - apply String.eqb_eq in E. destruct o, o0; simpl in E. now subst.
  - f_equal. revert fields E.
    induction H as [|[k v] r Hv _ IH]; intros [|[k' w] ys] E;
      try discriminate.
    + reflexivity.
    + apply andb_prop in E as [E E3]. apply andb_prop in E as [E1 E2].
      apply String.eqb_eq in E1. simpl in Hv. apply Hv in E2.
      subst. f_equal. now apply IH.
Qed.

Lemma value_eqb_refl : forall a, value_eqb a a = true.
Proof.
  induction a using value_nested_ind; simpl;
    auto using Bool.eqb_reflx, Z.eqb_refl, String.eqb_refl.
  induction H as [|[k v] r Hv _ IH]; [reflexivity|].
  simpl in Hv. now rewrite String.eqb_refl, Hv, IH.
Qed.

Lemma value_eqb_iff : forall a b, value_eqb a b = true <-> a = b.
Proof.
  split; [apply value_eqb_eq | intros ->; apply value_eqb_refl].
Qed.

Arguments value_eqb : simpl never.

Lemma cond_eq_holds : forall v fv,
  v <> VNull -> (cond_holds (CEq v) fv = true <-> fv = Some v).
Proof.
  intros v fv N. destruct fv as [w|].
  - assert (E : cond_holds (CEq v) (Some w) = value_eqb v w)
      by (now destruct v).
    rewrite E, value_eqb_iff. split; congruence.
  - destruct v; try (split; discriminate). now contradiction N.
Qed.

Lemma get_set_same : forall k v d, get_field k (set_field k v d) = Some v.
Proof.
  induction d as [|[k' w] r IH]; simpl.
  - now rewrite String.eqb_refl.
  - destruct (String.eqb k k') eqn:E; simpl.
    + now rewrite String.eqb_refl.
    + now rewrite E.
Qed.

Lemma get_set_other : forall k k' v d,
  k <> k' -> get_field k (set_field k' v d) = get_field k d.
Proof.
  intros k k' v d N. apply String.eqb_neq in N.
  induction d as [|[k2 w] r IH]; simpl.
  - now rewrite N.
  - destruct (String.eqb k' k2) eqn:E; simpl.
    + apply String.eqb_eq in E. subst k2. now rewrite N.
    + destruct (String.eqb k k2); auto.
Qed.

Lemma with_users_same : forall s, with_users s (users s) = s.
Proof. now destruct s. Qed.

Lemma with_courses_same : forall s, with_courses s (courses s) = s.
Proof. now destruct s. Qed.

(** ** Cursors *)

Lemma findOne_find : forall q c, findOne q c = hd_error (find q c).
Proof.
  intros q c. unfold findOne, find.
  induction c as [|d r IH]; simpl; [reflexivity|].
  destruct (matches q d); simpl; auto.
Qed.

Lemma find_nil_findOne : forall q c, find q c = [] -> findOne q c = None.
Proof. intros q c E. now rewrite findOne_find, E. Qed.

Lemma findOne_None_find : forall q c, findOne q c = None -> find q c = [].
Proof.
  intros q c E. rewrite findOne_find in E.
  destruct (find q c); [reflexivity | discriminate].
Qed.

Lemma findOne_matches : forall q c d, findOne q c = Some d -> matches q d = true.
Proof. intros q c d E. now apply find_some in E. Qed.

Lemma findOne_app_new : forall q c d,
  findOne q c = None -> matches q d = true -> findOne q (c ++ [d]) = Some d.
Proof.
  intros q c d E M. unfold findOne in *.
  induction c as [|x r IH]; simpl in *.
  - now rewrite M.
  - destruct (matches q x); [discriminate | auto].
Qed.

Lemma find_app : forall q a b, find q (a ++ b) = find q a ++ find q b.
Proof. intros. apply filter_app. Qed.

(** ** Authorization *)

Lemma verifyUser_Next : forall vt req email,
  verifyUser vt req = Next email <-> valid_credential vt req email.
Proof.
  intros vt req email. unfold verifyUser, valid_credential. split.
  - destruct (authorization req) as [h|]; [|discriminate].
    destruct (startsWith h "Bearer ") eqn:B; cbn [negb]; [|discriminate].
    destruct (nth_error (split " " h) 1) as [t|] eqn:N; [|discriminate].
    destruct (vt t) as [m|] eqn:V; [|discriminate].
    intros E. injection E as <-. exists h, t. auto.
  - intros (h & t & -> & -> & -> & ->). reflexivity.
Qed.

Lemma checkRole_Next : forall role email s,
  checkRole role email s = Next tt <->
  exists found,
    findOne [(["email"], CEq (VStr email))] (users s) = Some found
    /\ get_field "role" found = Some (VStr role).
Proof.
  intros role email s. unfold checkRole.
  destruct (findOne _ (users s)) as [found|].
  - unfold strict_eq_str. split.
    + destruct (get_field "role" found) as [[| | |r| | |]|] eqn:G;
        try discriminate.
      destruct (String.eqb r role) eqn:E; [|discriminate].
      apply String.eqb_eq in E. subst. intros _. exists found. auto.
    + intros (f & F & R). injection F as <-. rewrite R.
      now rewrite String.eqb_refl.
  - split; [discriminate|]. now intros (f & F & _).
Qed.

(** C1.  On every route registered with a role, a request whose
    credential verifies as [email] is answered 403 "User not found" when
    the users collection has no record of that email (403, where a
    missing credential is 401); when it has one, [checkRole] lets the
    request through exactly when the stored role is the string the route
    requires, the handler then runs, and any other stored role is
    answered 403 "Forbidden: wrong role". *)
Theorem C1_role_check :
  forall vt F oo go ep role req e s email,
    required_role ep = Some role ->
    valid_credential vt req email ->
    let record := findOne [(["email"], CEq (VStr email))] (users s) in
    (record = None ->
       serve vt F oo go ep req e s = Some (error 403 "User not found", s))
    /\ (forall found, record = Some found ->
          (checkRole role email s = Next tt
             <-> get_field "role" found = Some (VStr role))
          /\ (get_field "role" found = Some (VStr role) ->
                serve vt F oo go ep req e s
                = handler F oo go ep (Some email) req e s)
          /\ (get_field "role" found <> Some (VStr role) ->
                serve vt F oo go ep req e s
                = Some (error 403 "Forbidden: wrong role", s))).
Proof.
  intros vt F oo go ep role req e s email Hrole Hauth record.
  apply verifyUser_Next in Hauth. unfold serve, protected. rewrite Hrole, Hauth.
  split.
  - intros N. unfold checkRole. fold record. now rewrite N.
  - intros found Hf. split; [|split].
    + rewrite checkRole_Next. fold record. rewrite Hf. split.
      * intros (f & F' & R). now injection F' as <-.
      * intros R. now exists found.
    + intros R.
      assert (C : checkRole role email s = Next tt)
        by (apply checkRole_Next; now exists found).
      now rewrite C.
    + intros R. unfold checkRole. fold record. rewrite Hf.
      unfold strict_eq_str.
      destruct (get_field "role" found) as [[| | |r| | |]|]; try reflexivity.
      destruct (String.eqb r role) eqn:E; [|reflexivity].
      apply String.eqb_eq in E. subst. now contradiction R.
Qed.

Lemma C1_role_check_witness :
  let req := {| authorization := Sample.bearer "alice-token"; query := [];
                params_id := "";
                body := Some [("courseId", VStr "000000000000000000000003")] |} in
  let s := Sample.store in
  let e := Sample.clock 50 9 in
  (checkRole "student" "alice@example.com" s = Next tt
     <-> get_field "role" Sample.alice = Some (VStr "student"))
  /\ serve Sample.verifyIdToken Sample.formats Sample.of_number
       Sample.group_order PostEnroll req e s
     = enroll Sample.of_number "alice@example.com" req e s.
Proof.
  intros req s e.
  destruct (C1_role_check Sample.verifyIdToken Sample.formats
              Sample.of_number Sample.group_order
              PostEnroll "student" req e s "alice@example.com"
              eq_refl) as [_ H].
  { exists "Bearer alice-token", "alice-token". repeat split. }
  destruct (H Sample.alice eq_refl) as (H1 & H2 & _).
  split; [exact H1 | exact (H2 eq_refl)].
Defined.

(** ** Writes *)

Lemma insertOne_fresh : forall d g c,
  get_field "_id" d = None ->
  existsb (has_id (VId g)) c = false ->
  insertOne d g c = Some (VId g, c ++ [("_id", VId g) :: d]).
Proof.
  intros d g c Hd Hf. unfold insertOne. rewrite Hd. simpl. now rewrite Hf.
Qed.

Lemma by_email_matches : forall email d,
  matches [(["email"], CEq (VStr email))] d = true
  <-> get_field "email" d = Some (VStr email).
Proof.
  intros email d. unfold matches. cbn [forallb fst snd get_path].
  rewrite andb_true_r. now apply cond_eq_holds.
Qed.

(** ** First login *)

(** The handler served alone, as one function of the request. *)
Lemma post_users_served : forall req e s,
  post_users req e s
  = match body req with
    | None => Some (Uncaught, s)
    | Some b =>
        let email := get_field "email" b in
        let name := get_field "name" b in
        let photo := get_field "photo" b in
        let role :=
          match get_field "role" b with
          | None => Some (VStr "student")
          | Some r => Some r
          end in
        if negb (truthy_opt email) then Some (error 400 "Email required", s)
        else
          match findOne [(["email"], CEq (or_null email))] (users s) with
          | Some existing => Some (Send 200 (Json existing), s)
          | None =>
              match insertOne
                      (to_bson [("email", email); ("name", name);
                                ("photo", photo); ("role", role)])
                      (generated e) (users s) with
              | Some (insertedId, us) =>
                  Some (Send 200 (Json [("insertedId", insertedId)]),
                        with_users s us)
              | None => Some (Uncaught, s)
              end
          end
    end.
Proof.
  intros req e s. unfold post_users, post_users_lookup, post_users_insert.
  destruct (body req) as [b|]; [|reflexivity]. cbv zeta.
  destruct (negb _); [reflexivity|].
  destruct (findOne _ _); [reflexivity|].
  now destruct (insertOne _ _ _) as [[id us]|].
Qed.

Lemma post_users_existing : forall req b email e s existing,
  body req = Some b ->
  get_field "email" b = Some (VStr email) -> email <> "" ->
  findOne [(["email"], CEq (VStr email))] (users s) = Some existing ->
  post_users req e s = Some (Send 200 (Json existing), s).
Proof.
  intros req b email e s existing Hb He Hne Hf.
  rewrite post_users_served, Hb, He. simpl.
  apply String.eqb_neq in Hne. rewrite Hne. simpl. now rewrite Hf.
Qed.

Lemma post_users_fresh : forall req b email e s,
  body req = Some b ->
  get_field "email" b = Some (VStr email) -> email <> "" ->
  findOne [(["email"], CEq (VStr email))] (users s) = None ->
  existsb (has_id (VId (generated e))) (users s) = false ->
  post_users req e s
  = Some (Send 200 (Json [("insertedId", VId (generated e))]),
          with_users s (users s ++ [first_login_record (generated e) email b])).
Proof.
  intros req b email e s Hb He Hne Hf Hg.
  rewrite post_users_served, Hb, He. simpl.
  apply String.eqb_neq in Hne. rewrite Hne. simpl. rewrite Hf.
  unfold to_bson. simpl map.
  rewrite insertOne_fresh by (reflexivity || assumption).
  unfold first_login_record. simpl.
  destruct (get_field "role" b); reflexivity.
Qed.

(** C9.  [POST /users] on an email that has a record answers with that
    record and leaves the database as it was, whatever the body says
    about name, photo or role.  In particular, once a first call has
    created the record, a later call for the same email answers with the
    record of the first call, role included, and changes nothing. *)
Theorem C9_first_login_idempotent :
  forall email s, email <> "" ->
    (forall req b e existing,
        body req = Some b -> get_field "email" b = Some (VStr email) ->
        findOne [(["email"], CEq (VStr email))] (users s) = Some existing ->
        post_users req e s = Some (Send 200 (Json existing), s))
    /\ (forall req1 b1 e1 req2 b2 e2,
           body req1 = Some b1 -> get_field "email" b1 = Some (VStr email) ->
           body req2 = Some b2 -> get_field "email" b2 = Some (VStr email) ->
           findOne [(["email"], CEq (VStr email))] (users s) = None ->
           existsb (has_id (VId (generated e1))) (users s) = false ->
           let created := first_login_record (generated e1) email b1 in
           let s1 := with_users s (users s ++ [created]) in
           post_users req1 e1 s
           = Some (Send 200 (Json [("insertedId", VId (generated e1))]), s1)
           /\ post_users req2 e2 s1 = Some (Send 200 (Json created), s1)
           /\ get_field "role" created
              = Some (match get_field "role" b1 with
                      | Some r => r
                      | None => VStr "student"
                      end)).
Proof.
  intros email s Hne. split.
  - intros req b e existing Hb He Hf.
    now apply post_users_existing with (b := b) (email := email).
  - intros req1 b1 e1 req2 b2 e2 Hb1 He1 Hb2 He2 Hf Hg created s1.
    split; [|split].
    + now apply post_users_fresh.
    + apply post_users_existing with (b := b2) (email := email); auto.
      unfold s1. simpl. apply findOne_app_new; [assumption|].
      now apply by_email_matches.
    + reflexivity.
Qed.

Lemma C9_first_login_idempotent_witness :
  let req := {| authorization := None; query := []; params_id := "";
                body := Some [("email", VStr "alice@example.com");
                              ("role", VStr "instructor")] |} in
  post_users req (Sample.clock 7 9) Sample.store
  = Some (Send 200 (Json Sample.alice), Sample.store).
Proof.
  intros req.
  destruct (C9_first_login_idempotent "alice@example.com" Sample.store)
    as [H _]; [discriminate|].
  exact (H req _ (Sample.clock 7 9) Sample.alice eq_refl eq_refl eq_refl).
Defined.

(** C10.  [POST /users] is registered without [verifyUser] or
    [checkRole], so no header of the request is looked at.  For a body
    with a fresh email it stores the role the body gives, and
    ["student"] only when the body has no [role]; a body with
    [role: "instructor"] therefore creates a record that passes
    [checkRole("instructor")]. *)
Theorem C10_public_role_choice :
  forall vt F oo go req b email e s,
    body req = Some b ->
    get_field "email" b = Some (VStr email) -> email <> "" ->
    findOne [(["email"], CEq (VStr email))] (users s) = None ->
    existsb (has_id (VId (generated e))) (users s) = false ->
    let created := first_login_record (generated e) email b in
    let s1 := with_users s (users s ++ [created]) in
    required_role PostUsers = None
    /\ serve vt F oo go PostUsers req e s
       = Some (Send 200 (Json [("insertedId", VId (generated e))]), s1)
    /\ (get_field "role" b = None ->
          get_field "role" created = Some (VStr "student"))
    /\ (forall r, get_field "role" b = Some r ->
          get_field "role" created = Some r)
    /\ (get_field "role" b = Some (VStr "instructor") ->
          checkRole "instructor" email s1 = Next tt).
Proof.
  intros vt F oo go req b email e s Hb He Hne Hf Hg created s1.
  split; [reflexivity|]. split; [|split; [|split]].
  - unfold serve. simpl. now apply post_users_fresh.
  - intros R. unfold created, first_login_record. simpl. now rewrite R.
  - intros r R. unfold created, first_login_record. simpl. now rewrite R.
  - intros R. apply checkRole_Next. exists created. split.
    + unfold s1. simpl. apply findOne_app_new; [assumption|].
      now apply by_email_matches.
    + unfold created, first_login_record. simpl. now rewrite R.
Qed.

Lemma C10_public_role_choice_witness :
  let b := [("email", VStr "mallory@example.com"); ("role", VStr "instructor")] in
  let req := {| authorization := None; query := []; params_id := "";
                body := Some b |} in
  let e := Sample.clock 7 9 in
  let s1 := with_users Sample.store
              (users Sample.store
               ++ [first_login_record (generated e) "mallory@example.com" b]) in
  serve Sample.verifyIdToken Sample.formats Sample.of_number
    Sample.group_order PostUsers req e Sample.store
  = Some (Send 200 (Json [("insertedId", VId (generated e))]), s1)
  /\ checkRole "instructor" "mallory@example.com" s1 = Next tt.
Proof.
  intros b req e s1.
  destruct (C10_public_role_choice Sample.verifyIdToken Sample.formats
              Sample.of_number Sample.group_order
              req b "mallory@example.com" e Sample.store)
    as (_ & H1 & _ & _ & H2);
    try reflexivity; try discriminate.
  split; [exact H1 | exact (H2 eq_refl)].
Defined.

(** ** Enrollment *)

(** The handler served alone, as one function of the request. *)
Lemma enroll_served : forall oo u req e s,
  enroll oo u req e s
  = match body req with
    | None => Some (Uncaught, s)
    | Some b =>
        let courseId := or_null (get_field "courseId" b) in
        if negb (truthy_opt (get_field "courseId" b))
        then Some (error 400 "courseId required", s)
        else if negb (ObjectId_isValid oo e courseId)
        then Some (error 400 "Invalid courseId", s)
        else
          match new_ObjectId oo e 1 courseId with
          | None => Some (Uncaught, s)
          | Some sought =>
              match findOne (enrollment u sought) (enrolled s) with
              | Some _ => Some (error 409 "Already enrolled", s)
              | None =>
                  match new_ObjectId oo e 2 courseId with
                  | None => Some (Uncaught, s)
                  | Some oid =>
                      match insertOne [ ("userEmail", VStr u);
                                        ("courseId", VId oid);
                                        ("enrolledAt", VDate (now e)) ]
                              (generated e) (enrolled s) with
                      | Some (insertedId, es) =>
                          Some (Send 200 (Json [("insertedId", insertedId)]),
                                with_enrolled s es)
                      | None => Some (Uncaught, s)
                      end
                  end
              end
          end
    end.
Proof.
  intros oo u req e s. unfold enroll, enroll_lookup, enroll_insert.
  destruct (body req) as [b|]; [|reflexivity]. cbv zeta.
  destruct (negb (truthy_opt _)); [reflexivity|].
  destruct (negb (ObjectId_isValid _ _ _)); [reflexivity|].
  destruct (new_ObjectId oo e 1 _); [|reflexivity].
  destruct (findOne _ _); [reflexivity|].
  destruct (new_ObjectId oo e 2 _); [|reflexivity].
  now destruct (insertOne _ _ _) as [[id es]|].
Qed.

(** A string that names an identifier is read the same at every use. *)
Lemma new_ObjectId_string : forall oo e k x,
  Bson.validateHexString x = true ->
  new_ObjectId oo e k (VStr x) = Some (Bson.fromHex x).
Proof. intros oo e k x V. unfold new_ObjectId. cbn [Bson.read_id]. now rewrite V. Qed.

Lemma enrollment_matches : forall u o d,
  matches (enrollment u o) d = true
  <-> get_field "userEmail" d = Some (VStr u)
      /\ get_field "courseId" d = Some (VId o).
Proof.
  intros u o d. unfold matches, enrollment. cbn [forallb fst snd get_path].
  rewrite andb_true_r, andb_true_iff.
  now rewrite !cond_eq_holds by discriminate.
Qed.

Lemma enroll_invalid : forall oo u req b x e s,
  body req = Some b -> get_field "courseId" b = Some (VStr x) ->
  Bson.validateHexString x = false ->
  enroll oo u req e s
  = Some (error 400 (if String.eqb x "" then "courseId required"
                     else "Invalid courseId"), s).
Proof.
  intros oo u req b x e s Hb Hc Hv. rewrite enroll_served, Hb, Hc.
  cbn [truthy_opt truthy or_null ObjectId_isValid new_ObjectId Bson.read_id].
  destruct (String.eqb x ""); simpl; [reflexivity|]. now rewrite Hv.
Qed.

Lemma validateHexString_nonempty : forall x,
  Bson.validateHexString x = true -> String.eqb x "" = false.
Proof. now intros [|c r]. Qed.

Lemma enroll_conflict : forall oo u req b x e s already,
  body req = Some b -> get_field "courseId" b = Some (VStr x) ->
  Bson.validateHexString x = true ->
  findOne (enrollment u (Bson.fromHex x)) (enrolled s) = Some already ->
  enroll oo u req e s = Some (error 409 "Already enrolled", s).
Proof.
  intros oo u req b x e s already Hb Hc Hv Hf.
  rewrite enroll_served, Hb, Hc. cbn [truthy_opt truthy or_null].
  unfold ObjectId_isValid. rewrite !new_ObjectId_string by assumption.
  rewrite (validateHexString_nonempty _ Hv). cbn [negb]. now rewrite Hf.
Qed.

Lemma enroll_new : forall oo u req b x e s,
  body req = Some b -> get_field "courseId" b = Some (VStr x) ->
  Bson.validateHexString x = true ->
  findOne (enrollment u (Bson.fromHex x)) (enrolled s) = None ->
  existsb (has_id (VId (generated e))) (enrolled s) = false ->
  enroll oo u req e s
  = Some (Send 200 (Json [("insertedId", VId (generated e))]),
          with_enrolled s
            (enrolled s
             ++ [enrollment_record (generated e) u (Bson.fromHex x) (now e)])).
Proof.
  intros oo u req b x e s Hb Hc Hv Hf Hg.
  rewrite enroll_served, Hb, Hc. cbn [truthy_opt truthy or_null].
  unfold ObjectId_isValid. rewrite !new_ObjectId_string by assumption.
  rewrite (validateHexString_nonempty _ Hv). cbn [negb]. rewrite Hf.
  now rewrite insertOne_fresh by (reflexivity || assumption).
Qed.

(** A value in which an identifier is read is truthy, not null and not
    a number, and is read the same at every use. *)
Lemma read_id_value : forall oo e k v o,
  Bson.read_id v = Some o ->
  truthy v = true
  /\ ObjectId_isValid oo e v = true
  /\ new_ObjectId oo e k v = Some o.
Proof.
  intros oo e k v o R. unfold ObjectId_isValid, new_ObjectId.
  destruct v as [| |n|x| |i|d]; try discriminate R; rewrite R;
    repeat split.
  cbn [Bson.read_id] in R. cbn [truthy].
  destruct (Bson.validateHexString x) eqn:V; [|discriminate].
  now rewrite (validateHexString_nonempty _ V).
Qed.

Lemma enroll_refused_value : forall oo u req b e s,
  body req = Some b ->
  (forall v, get_field "courseId" b = Some v -> Bson.read_id v = None) ->
  (forall n, get_field "courseId" b = Some (VNum n) -> n = 0) ->
  enroll oo u req e s
  = Some (error 400 (if truthy_opt (get_field "courseId" b)
                     then "Invalid courseId" else "courseId required"), s).
Proof.
  intros oo u req b e s Hb Hr Hn. rewrite enroll_served, Hb. cbv zeta.
  destruct (get_field "courseId" b) as [v|]; [|reflexivity].
  cbn [truthy_opt or_null].
  destruct (truthy v) eqn:T; [|reflexivity]. cbn [negb].
  specialize (Hr v eq_refl).
  unfold ObjectId_isValid, new_ObjectId.
  destruct v as [| |n|x| |i|d]; try reflexivity; try (now rewrite Hr).
  specialize (Hn n eq_refl). subst n. discriminate T.
Qed.

Lemma enroll_number_refused : forall oo u req b n e s,
  body req = Some b -> get_field "courseId" b = Some (VNum n) -> n <> 0 ->
  oo e n 0%nat = None ->
  enroll oo u req e s = Some (error 400 "Invalid courseId", s).
Proof.
  intros oo u req b n e s Hb Hc Hn H0.
  rewrite enroll_served, Hb, Hc. cbv zeta.
  cbn [truthy_opt truthy or_null ObjectId_isValid new_ObjectId].
  apply Z.eqb_neq in Hn. now rewrite Hn, H0.
Qed.

Lemma enroll_conflict_value : forall oo u req b v o e s already,
  body req = Some b -> get_field "courseId" b = Some v ->
  Bson.read_id v = Some o ->
  findOne (enrollment u o) (enrolled s) = Some already ->
  enroll oo u req e s = Some (error 409 "Already enrolled", s).
Proof.
  intros oo u req b v o e s already Hb Hc Hr Hf.
  rewrite enroll_served, Hb, Hc. cbv zeta. cbn [truthy_opt or_null].
  destruct (read_id_value oo e 1 v o Hr) as (T & V & N).
  now rewrite T, V, N, Hf.
Qed.

Lemma enroll_new_value : forall oo u req b v o e s,
  body req = Some b -> get_field "courseId" b = Some v ->
  Bson.read_id v = Some o ->
  findOne (enrollment u o) (enrolled s) = None ->
  existsb (has_id (VId (generated e))) (enrolled s) = false ->
  enroll oo u req e s
  = Some (Send 200 (Json [("insertedId", VId (generated e))]),
          with_enrolled s
            (enrolled s ++ [enrollment_record (generated e) u o (now e)])).
Proof.
  intros oo u req b v o e s Hb Hc Hr Hf Hg.
  rewrite enroll_served, Hb, Hc. cbv zeta. cbn [truthy_opt or_null].
  destruct (read_id_value oo e 1 v o Hr) as (T & V & N1).
  destruct (read_id_value oo e 2 v o Hr) as (_ & _ & N2).
  rewrite T, V, N1, Hf, N2. cbn [negb].
  now rewrite insertOne_fresh by (reflexivity || assumption).
Qed.

(** Where [ObjectId] generates identifiers from a number: one for
    [isValid], one for the lookup, another for the record. *)
Lemma enroll_number : forall oo u req b n e s valid sought stored,
  body req = Some b -> get_field "courseId" b = Some (VNum n) -> n <> 0 ->
  oo e n 0%nat = Some valid -> oo e n 1%nat = Some sought ->
  oo e n 2%nat = Some stored ->
  findOne (enrollment u sought) (enrolled s) = None ->
  existsb (has_id (VId (generated e))) (enrolled s) = false ->
  enroll oo u req e s
  = Some (Send 200 (Json [("insertedId", VId (generated e))]),
          with_enrolled s
            (enrolled s
             ++ [enrollment_record (generated e) u stored (now e)])).
Proof.
  intros oo u req b n e s valid sought stored Hb Hc Hn H0 H1 H2 Hf Hg.
  rewrite enroll_served, Hb, Hc. cbv zeta.
  cbn [truthy_opt truthy or_null ObjectId_isValid new_ObjectId].
  apply Z.eqb_neq in Hn. rewrite Hn, H0, H1, H2. cbn [negb]. rewrite Hf.
  now rewrite insertOne_fresh by (reflexivity || assumption).
Qed.

(** C2 as written: "fails with InvalidArgument when courseId is not a
    syntactically valid identifier".  A [courseId] that is not an
    identifier but an object with a property [id] is accepted by
    [ObjectId.isValid], and the handler enrolls the user. *)
Lemma C2_counterexample :
  let x := "00000000000000000000000A" in
  let req := {| authorization := Sample.bearer "alice-token"; query := [];
                params_id := "";
                body := Some [("courseId", VObj [("id", VStr x)])] |} in
  let e := Sample.clock 50 9 in
  enroll Sample.of_number "alice@example.com" req e Sample.store
  = Some (Send 200 (Json [("insertedId", VId (generated e))]),
          with_enrolled Sample.store
            [enrollment_record (generated e) "alice@example.com"
               (Bson.fromHex x) 50]).
Proof. reflexivity. Qed.

(** C2, amended.  Without a body the handler throws and nothing is
    written.  With a [courseId] in which [ObjectId] reads an identifier
    (a string of 24 hexadecimal digits, or an object whose [id] is one),
    for a pair that has no enrollment yet: a first call answers 200 with
    the generated id and appends one record carrying the request's
    timestamp, a second call (at any later time, whatever id the driver
    would generate) answers 409 "Already enrolled" and writes nothing,
    and the collection then holds exactly one record of the pair.  With
    a number that is not zero, the answer is what [ObjectId] makes of
    the number: 400 where it refuses it; where it generates identifiers
    from it, the handler enrolls (when no record has the identifier
    generated for the lookup) and the record carries the identifier
    generated for it.  With any other [courseId], or none, the answer is
    400 and nothing is written. *)
Theorem C2_enroll_twice :
  forall oo userEmail req s,
    (body req = None ->
       forall e, enroll oo userEmail req e s = Some (Uncaught, s))
    /\ (forall b, body req = Some b ->
        let courseId := get_field "courseId" b in
        ((forall v, courseId = Some v -> Bson.read_id v = None) ->
         (forall n, courseId = Some (VNum n) -> n = 0) ->
         forall e, exists msg,
           enroll oo userEmail req e s = Some (error 400 msg, s))
        /\ (forall v o,
              courseId = Some v -> Bson.read_id v = Some o ->
              forall e1 e2,
                enrollments_of userEmail o s = [] ->
                existsb (has_id (VId (generated e1))) (enrolled s) = false ->
                let record :=
                  enrollment_record (generated e1) userEmail o (now e1) in
                let s1 := with_enrolled s (enrolled s ++ [record]) in
                enroll oo userEmail req e1 s
                = Some (Send 200 (Json [("insertedId", VId (generated e1))]), s1)
                /\ enroll oo userEmail req e2 s1
                   = Some (error 409 "Already enrolled", s1)
                /\ enrollments_of userEmail o s1 = [record]
                /\ get_field "enrolledAt" record = Some (VDate (now e1)))
        /\ (forall n,
              courseId = Some (VNum n) -> n <> 0 ->
              forall e,
                (oo e n 0%nat = None ->
                   enroll oo userEmail req e s
                   = Some (error 400 "Invalid courseId", s))
                /\ (forall valid sought stored,
                      oo e n 0%nat = Some valid ->
                      oo e n 1%nat = Some sought ->
                      oo e n 2%nat = Some stored ->
                      enrollments_of userEmail sought s = [] ->
                      existsb (has_id (VId (generated e))) (enrolled s) = false ->
                      let record :=
                        enrollment_record (generated e) userEmail stored (now e) in
                      enroll oo userEmail req e s
                      = Some (Send 200 (Json [("insertedId", VId (generated e))]),
                              with_enrolled s (enrolled s ++ [record]))))).
Proof.
  intros oo u req s. split.
  - intros Hb e. now rewrite enroll_served, Hb.
  - intros b Hb courseId. split; [|split].
    + intros Hr Hn e. eexists. now apply enroll_refused_value with (b := b).
    + intros v o Hc Hr e1 e2 Hnone Hg record s1.
      assert (Hrec : matches (enrollment u o) record = true)
        by (now apply enrollment_matches).
      assert (Hf : findOne (enrollment u o) (enrolled s) = None)
        by (now apply find_nil_findOne).
      split; [|split; [|split]].
      * now apply enroll_new_value with (b := b) (v := v).
      * apply enroll_conflict_value
          with (b := b) (v := v) (o := o) (already := record); auto.
        unfold s1. simpl. now apply findOne_app_new.
      * unfold enrollments_of, s1 in *. simpl. rewrite find_app, Hnone.
        unfold find. cbn [app List.filter]. now rewrite Hrec.
      * reflexivity.
    + intros n Hc Hn e. split.
      * intros H0. now apply enroll_number_refused with (b := b) (n := n).
      * intros valid sought stored H0 H1 H2 Hnone Hg record.
        apply enroll_number
          with (b := b) (n := n) (valid := valid) (sought := sought); auto.
        now apply find_nil_findOne.
Qed.

Lemma C2_enroll_twice_witness :
  let x := "00000000000000000000000A" in
  let req := {| authorization := Sample.bearer "alice-token"; query := [];
                params_id := ""; body := Some [("courseId", VStr x)] |} in
  let e1 := Sample.clock 50 9 in
  let e2 := Sample.clock 60 10 in
  let record := enrollment_record (generated e1) "alice@example.com"
                  (Bson.fromHex x) 50 in
  let s1 := with_enrolled Sample.store [record] in
  enroll Sample.of_number "alice@example.com" req e1 Sample.store
  = Some (Send 200 (Json [("insertedId", VId (generated e1))]), s1)
  /\ enroll Sample.of_number "alice@example.com" req e2 s1
     = Some (error 409 "Already enrolled", s1)
  /\ enrollments_of "alice@example.com" (Bson.fromHex x) s1 = [record].
Proof.
  intros x req e1 e2 record s1.
  destruct (C2_enroll_twice Sample.of_number "alice@example.com"
              req Sample.store) as [_ H].
  destruct (H _ eq_refl) as (_ & H' & _).
  destruct (H' (VStr x) (Bson.fromHex x) eq_refl eq_refl e1 e2 eq_refl eq_refl)
    as (H1 & H2 & H3 & _).
  split; [exact H1 | split; [exact H2 | exact H3]].
Defined.

(** ** Validation *)

Section schema_induction.
Variable P : Joi.schema -> Prop.
Hypothesis HString : forall f r a, P (Joi.String_ f r a).
Hypothesis HNumber : forall m r, P (Joi.Number_ m r).
Hypothesis HBoolean : forall r, P (Joi.Boolean_ r).
Hypothesis HObject :
  forall keys r, Forall (fun kc => P (snd kc)) keys -> P (Joi.Object_ keys r).

End schema_induction.

Lemma validate_object : forall F keys required p d,
  Joi.validate F (Joi.Object_ keys required) p (Some (VObj d))
  = match validate_children F p d keys with
    | Some e => Some e
    | None =>
        match Joi.unknown_keys keys d with
        | k :: _ => Joi.fail (p ++ [k]) Joi.object_unknown
        | [] => None
        end
    end.
Proof.
  intros F keys required p d. simpl.
  match goal with
  | |- match ?a with _ => _ end = match ?b with _ => _ end =>
      assert (E : a = b); [|now rewrite E]
  end.
  induction keys as [|[k child] r IH]; simpl; [reflexivity|].
  destruct (Joi.validate F child (p ++ [k]) (get_field k d)); auto.
Qed.


Lemma validate_children_none : forall F p d keys,
  validate_children F p d keys = None <-> Forall (accepted F p d) keys.
Proof.
  intros F p d keys. induction keys as [|[k child] r IH]; simpl.
  - split; auto.
  - destruct (Joi.validate F child (p ++ [k]) (get_field k d)) as [e|] eqn:V.
    + split; [discriminate|]. intros A. inversion A as [|? ? A1 _]; subst.
      unfold accepted in A1. simpl in A1. congruence.
    + rewrite IH. split.
      * intros A. now constructor.
      * intros A. now inversion A.
Qed.



Lemma validate_object_pass : forall F keys required p d,
  Joi.validate F (Joi.Object_ keys required) p (Some (VObj d)) = None
  <-> Forall (accepted F p d) keys /\ Joi.unknown_keys keys d = [].
Proof.
  intros F keys required p d. rewrite validate_object.
  rewrite <- validate_children_none.
  destruct (validate_children F p d keys).
  - split; [discriminate | intros [? _]; discriminate].
  - destruct (Joi.unknown_keys keys d).
    + tauto.
    + unfold Joi.fail. split; [discriminate | intros [_ ?]; discriminate].
Qed.

Lemma declared_key : forall keys d k v,
  Joi.unknown_keys keys d = [] -> get_field k d = Some v ->
  existsb (String.eqb k) (map fst keys) = true.
Proof.
  intros keys d k v. unfold Joi.unknown_keys.
  induction d as [|[k' w] r IH]; simpl; [discriminate|].
  destruct (existsb (String.eqb k') (map fst keys)) eqn:X; simpl;
    [|discriminate].
  intros U. destruct (String.eqb k k') eqn:E; auto.
  apply String.eqb_eq in E. now subst.
Qed.

(** *** What [courseSchema] accepts *)

Lemma text_accepts : forall F f p v,
  Joi.validate F (Joi.String_ f true false) p v = None <-> text_field F f v.
Proof.
  intros F f p v. unfold text_field. simpl.
  destruct v as [[| | |x| | |]|]; simpl;
    try (split; [discriminate | intros (x' & E & _); discriminate]).
  destruct (String.eqb x "") eqn:E.
  - apply String.eqb_eq in E. subst x. split; [discriminate|].
    intros (x' & E' & N & _). injection E' as <-. now contradiction N.
  - apply String.eqb_neq in E. unfold Joi.check_format, format_ok.
    destruct f.
    + split; [|reflexivity]. intros _. now exists x.
    + destruct (Joi.is_uri F x) eqn:U.
      * split; [|reflexivity]. intros _. now exists x.
      * split; [discriminate|]. intros (x' & E' & _ & U').
        injection E' as <-. congruence.
    + destruct (Joi.is_email F x) eqn:U.
      * split; [|reflexivity]. intros _. now exists x.
      * split; [discriminate|]. intros (x' & E' & _ & U').
        injection E' as <-. congruence.
Qed.

Lemma photo_accepts : forall F p v,
  Joi.validate F (Joi.String_ Joi.Uri false true) p v = None
  <-> photo_field F v.
Proof.
  intros F p v. unfold photo_field, text_field. simpl.
  destruct v as [[| | |x| | |]|]; simpl;
    try (split; [discriminate
                | intros [E|[E|(x' & E & _)]]; discriminate]).
  - destruct (String.eqb x "") eqn:E.
    + apply String.eqb_eq in E. subst x. split; auto.
    + apply String.eqb_neq in E. unfold Joi.check_format, format_ok.
      destruct (Joi.is_uri F x) eqn:U.
      * split; [|reflexivity]. intros _. right. right. now exists x.
      * split; [discriminate|].
        intros [E'|[E'|(x' & E' & _ & U')]]; try discriminate.
        -- injection E' as ->. now contradiction E.
        -- injection E' as <-. congruence.
  - split; auto.
Qed.

Lemma check_number_accepts : forall m p n,
  - Joi.MAX_SAFE_INTEGER <= m ->
  (Joi.check_number (Some m) p n = None <-> m <= n <= Joi.MAX_SAFE_INTEGER).
Proof.
  intros m p n Hm. unfold Joi.check_number, Joi.fail.
  destruct (Joi.MAX_SAFE_INTEGER <? n) eqn:A; cbn [orb].
  - apply Z.ltb_lt in A. split; [discriminate | lia].
  - apply Z.ltb_ge in A.
    destruct (n <? - Joi.MAX_SAFE_INTEGER) eqn:B.
    + apply Z.ltb_lt in B. split; [discriminate | lia].
    + destruct (n <? m) eqn:C.
      * apply Z.ltb_lt in C. split; [discriminate | lia].
      * apply Z.ltb_ge in C. split; [lia | reflexivity].
Qed.

Lemma number_accepts : forall F m p v,
  - Joi.MAX_SAFE_INTEGER <= m ->
  (Joi.validate F (Joi.Number_ (Some m) true) p v = None
   <-> number_field F m v).
Proof.
  intros F m p v Hm. unfold number_field. simpl.
  destruct v as [[| |n|x| | |]|]; simpl;
    try (split; [discriminate
                | intros (n' & [E|(x' & E & _)] & _); discriminate]).
  - rewrite check_number_accepts by assumption. split.
    + intros R. exists n. auto.
    + intros (n' & [E|(x' & E & _)] & R); [|discriminate].
      now injection E as <-.
  - destruct (Joi.number_of_string F x) as [n|] eqn:C.
    + rewrite check_number_accepts by assumption. split.
      * intros R. exists n. split; [|assumption]. right. now exists x.
      * intros (n' & [E|(x' & E & C')] & R); [discriminate|].
        injection E as <-. congruence.
    + split; [discriminate|].
      intros (n' & [E|(x' & E & C')] & R); [discriminate|].
      injection E as <-. congruence.
Qed.

Lemma flag_accepts : forall F p v,
  Joi.validate F (Joi.Boolean_ false) p v = None <-> flag_field v.
Proof.
  intros F p v. unfold flag_field. simpl.
  destruct v as [[|b| |x| | |]|]; simpl;
    try (split; [discriminate
                | intros [E|[(b' & E)|(x' & E & _)]]; discriminate]).
  - split; [|reflexivity]. intros _. right. left. now exists b.
  - destruct (String.eqb (toLowerCase x) "true") eqn:T; simpl.
    + apply String.eqb_eq in T. split; [|reflexivity].
      intros _. right. right. exists x. auto.
    + destruct (String.eqb (toLowerCase x) "false") eqn:T'.
      * apply String.eqb_eq in T'. split; [|reflexivity].
        intros _. right. right. exists x. auto.
      * apply String.eqb_neq in T, T'. split; [discriminate|].
        intros [E|[(b' & E)|(x' & E & [L|L])]]; try discriminate;
          injection E as <-; contradiction.
  - split; auto.
Qed.

Lemma unknown_keys_nil : forall keys d,
  Joi.unknown_keys keys d = [] <-> only_keys (map fst keys) d.
Proof.
  intros keys d. unfold Joi.unknown_keys, only_keys.
  induction (map fst d) as [|k r IH]; simpl.
  - split; [intros _ k [] | reflexivity].
  - destruct (existsb (String.eqb k) (map fst keys)) eqn:X; simpl.
    + rewrite IH. apply existsb_exists in X as (k' & I & E).
      apply String.eqb_eq in E. subst k'. split.
      * intros H k' [<-|I']; auto.
      * intros H k' I'. apply H. now right.
    + split; [discriminate|]. intros H.
      assert (I : In k (map fst keys)) by (apply H; now left).
      assert (Y : existsb (String.eqb k) (map fst keys) = true).
      { apply existsb_exists. exists k. split; [assumption|].
        apply String.eqb_refl. }
      congruence.
Qed.

Ltac unfold_accepted :=
  repeat rewrite Forall_cons_iff; unfold accepted; cbn [fst snd].

Lemma instructor_accepts : forall F p v,
  Joi.validate F (Joi.Object_
                    [ ("name", Joi.String_ Joi.Plain true false);
                      ("email", Joi.String_ Joi.Email true false);
                      ("photo", Joi.String_ Joi.Uri false true) ] true) p v
  = None
  <-> instructor_field F v.
Proof.
  intros F p v. unfold instructor_field.
  destruct v as [[| | | | | |d]|];
    try (split; [discriminate | intros (d' & E & _); discriminate]).
  rewrite validate_object_pass, unknown_keys_nil. unfold_accepted.
  rewrite !text_accepts, photo_accepts. cbn [map fst]. split.
  - intros ((A & B & C & _) & K). exists d. auto.
  - intros (d' & E & A & B & C & K). injection E as <-. auto.
Qed.

(** [courseSchema] accepts a JSON object exactly when it is a course
    payload in the sense of the specification. *)
Lemma courseSchema_accepts : forall F d,
  Joi.validate F courseSchema [] (Some (VObj d)) = None
  <-> course_payload_ok F d.
Proof.
  intros F d. unfold courseSchema, course_payload_ok.
  rewrite validate_object_pass, unknown_keys_nil. unfold_accepted.
  rewrite !text_accepts, flag_accepts, instructor_accepts.
  rewrite number_accepts by (unfold Joi.MAX_SAFE_INTEGER; lia).
  rewrite Forall_nil_iff. simpl (map fst _). tauto.
Qed.

(** ** Courses: insert, then get *)

Lemma by_id_matches : forall x d,
  matches (by_id x) d = has_id (VId (Bson.fromHex x)) d.
Proof.
  intros x d. unfold matches, by_id, has_id. cbn [forallb fst snd get_path].
  rewrite andb_true_r. now destruct (get_field "_id" d).
Qed.

Lemma findOne_by_id_unused : forall x c,
  existsb (has_id (VId (Bson.fromHex x))) c = false ->
  findOne (by_id x) c = None.
Proof.
  intros x c. unfold findOne.
  induction c as [|d r IH]; cbn [List.find existsb]; [reflexivity|].
  rewrite by_id_matches. destruct (has_id _ d); simpl; [discriminate | auto].
Qed.


Lemma course_record_fields : forall g t payload,
  get_field "_id" (course_record g t payload) = Some (VId g)
  /\ get_field "createdAt" (course_record g t payload) = Some (VDate t)
  /\ (forall k, k <> "_id" -> k <> "createdAt" ->
        get_field k (course_record g t payload) = get_field k payload).
Proof.
  intros g t payload. unfold course_record. split; [reflexivity|]. split.
  - cbn [get_field]. change (String.eqb "createdAt" "_id") with false.
    apply get_set_same.
  - intros k N1 N2. cbn [get_field]. apply String.eqb_neq in N1. rewrite N1.
    now apply get_set_other.
Qed.

Lemma post_courses_invalid : forall F req e s err,
  Joi.validate F courseSchema [] (option_map VObj (body req)) = Some err ->
  post_courses F req e s = Some (error 400 (Joi.message err), s).
Proof. intros F req e s err V. unfold post_courses. now rewrite V. Qed.

Lemma post_courses_valid : forall F req payload e s,
  body req = Some payload ->
  Joi.validate F courseSchema [] (Some (VObj payload)) = None ->
  existsb (has_id (VId (generated e))) (courses s) = false ->
  post_courses F req e s
  = Some (Send 200 (Json [("insertedId", VId (generated e))]),
          with_courses s
            (courses s ++ [course_record (generated e) (now e) payload])).
Proof.
  intros F req payload e s Hb V Hg. unfold post_courses. rewrite Hb.
  cbn [option_map spread]. rewrite V.
  rewrite insertOne_fresh; [reflexivity| |assumption].
  rewrite get_set_other by discriminate.
  destruct (get_field "_id" payload) as [v|] eqn:G; [|reflexivity].
  apply validate_object_pass in V as [_ U].
  now apply (declared_key _ _ _ _ U) in G.
Qed.





(** A payload without a title: the first violated field is [title]. *)
Lemma post_courses_missing_title :
  let req := {| authorization := Sample.bearer "bob-token"; query := [];
                params_id := "";
                body := Some (("colour", VStr "red") :: tl Sample.payload) |} in
  post_courses Sample.formats req (Sample.clock 70 9) Sample.store
  = Some (error 400
            (String.append Joi.dquote
               (String.append "title"
                  (String.append Joi.dquote " is required"))),
          Sample.store).
Proof. reflexivity. Qed.

(** ** Courses: update *)

Lemma get_field_absent : forall k d,
  ~ In k (map fst d) -> get_field k d = None.
Proof.
  intros k d. induction d as [|[k' v] r IH]; simpl; [reflexivity|].
  intros N. destruct (String.eqb k k') eqn:E.
  - apply String.eqb_eq in E. subst. tauto.
  - apply IH. tauto.
Qed.

Lemma get_field_present : forall k d v,
  get_field k d = Some v -> In k (map fst d).
Proof.
  intros k d v. induction d as [|[k' w] r IH]; simpl; [discriminate|].
  destruct (String.eqb k k') eqn:E.
  - apply String.eqb_eq in E. subst. auto.
  - auto.
Qed.

Lemma assign_untouched : forall upd d k,
  get_field k upd = None -> get_field k (assign d upd) = get_field k d.
Proof.
  unfold assign. induction upd as [|[k' v] r IH]; intros d k; simpl.
  - reflexivity.
  - destruct (String.eqb k k') eqn:E; [discriminate|]. intros N.
    rewrite IH by assumption. apply get_set_other.
    now apply String.eqb_neq.
Qed.

Lemma assign_set : forall upd d k v,
  NoDup (map fst upd) -> get_field k upd = Some v ->
  get_field k (assign d upd) = Some v.
Proof.
  induction upd as [|[k' w] r IH]; intros d k v D; simpl.
  - discriminate.
  - inversion D as [|? ? Hn Hd]; subst.
    destruct (String.eqb k k') eqn:E.
    + apply String.eqb_eq in E. subst k'. intros V. injection V as ->.
      change (get_field k (assign (set_field k v d) r) = Some v).
      rewrite assign_untouched by (now apply get_field_absent).
      apply get_set_same.
    + intros V. now apply (IH (set_field k' w d)).
Qed.

Lemma set_field_keys : forall k v d,
  map fst (set_field k v d)
  = if has_key k d then map fst d else map fst d ++ [k].
Proof.
  intros k v d. unfold has_key. induction d as [|[k' w] r IH]; simpl.
  - reflexivity.
  - destruct (String.eqb k k') eqn:E; simpl.
    + apply String.eqb_eq in E. now subst.
    + rewrite IH. now destruct (get_field k r).
Qed.

Lemma set_field_NoDup : forall k v d,
  NoDup (map fst d) -> NoDup (map fst (set_field k v d)).
Proof.
  intros k v d D. rewrite set_field_keys. unfold has_key.
  destruct (get_field k d) eqn:G; [assumption|].
  apply NoDup_app; [assumption | repeat constructor; auto | ].
  intros x I [<-|[]]. apply in_map_iff in I as ([k' w] & <- & I).
  assert (P : In k' (map fst d)) by (apply in_map_iff; now exists (k', w)).
  clear I. induction d as [|[k2 w2] r IH]; simpl in *; [tauto|].
  destruct (String.eqb k' k2) eqn:E; [discriminate|].
  inversion D; subst. destruct P as [->|P]; [|auto].
  now rewrite String.eqb_refl in E.
Qed.

Lemma set_field_plain : forall k v d,
  plain_key k = true -> plain_update d = true ->
  plain_update (set_field k v d) = true.
Proof.
  intros k v d Pk. unfold plain_update.
  induction d as [|[k' w] r IH]; simpl.
  - now rewrite Pk.
  - intros A. apply andb_prop in A as [A1 A2].
    destruct (String.eqb k k'); simpl.
    + now rewrite Pk.
    + now rewrite A1, IH.
Qed.

Lemma updateOne_set_none : forall q upd c,
  findOne q c = None ->
  updateOne_set q upd c = ({| matchedCount := 0; modifiedCount := 0 |}, c).
Proof.
  intros q upd c. unfold findOne.
  induction c as [|d r IH]; cbn [List.find updateOne_set]; [reflexivity|].
  destruct (matches q d); [discriminate|]. intros N. now rewrite IH.
Qed.

Lemma updateOne_set_some : forall q upd c d,
  findOne q c = Some d ->
  exists before after,
    c = before ++ d :: after
    /\ Forall (fun x => matches q x = false) before
    /\ updateOne_set q upd c
       = ({| matchedCount := 1;
             modifiedCount := if doc_eqb d (assign d upd) then 0 else 1 |},
          before ++ assign d upd :: after).
Proof.
  intros q upd c d. unfold findOne.
  induction c as [|x r IH]; cbn [List.find updateOne_set]; [discriminate|].
  destruct (matches q x) eqn:M.
  - intros E. injection E as ->. now exists [], r.
  - intros E. destruct (IH E) as (b & a & -> & Hb & Hu).
    exists (x :: b), a. rewrite Hu. repeat split; auto.
Qed.

(** C6 as written: "for every id that matches no existing course,
    update fails with NotFound".  The text [xyz] names no course of the
    sample store, and the answer is 400 "Invalid id". *)
Lemma C6_counterexample :
  let req := {| authorization := Sample.bearer "bob-token"; query := [];
                params_id := "xyz"; body := Some [("title", VStr "New")] |} in
  findOne (by_id "xyz") (courses Sample.store) = None
  /\ put_course req (Sample.clock 80 9) Sample.store
     = Some (error 400 "Invalid id", Sample.store)
  /\ error 400 "Invalid id" <> error 404 "Course not found".
Proof. repeat split; discriminate. Qed.

(** C6, amended.  [PUT /courses/:id] answers 400 to an id that is not
    well formed and writes nothing.  For a well-formed id and a patch
    of plain field names, each once: when no course has the id the
    answer is 404 and the collection is unchanged; when a course has it,
    the first such course is replaced by one that has every field of the
    patch at the patch's value (no schema is consulted), [updatedAt] at
    the time of the request and every other field as before, and the
    other courses are unchanged. *)
Theorem C6_update :
  forall req e s,
    let id := params_id req in
    let patch := spread (body req) in
    (Bson.validateHexString id = false ->
       put_course req e s = Some (error 400 "Invalid id", s))
    /\ (Bson.validateHexString id = true ->
        plain_update patch = true -> NoDup (map fst patch) ->
        (findOne (by_id id) (courses s) = None ->
           put_course req e s = Some (error 404 "Course not found", s))
        /\ (forall c,
              findOne (by_id id) (courses s) = Some c ->
              exists c' before after,
                courses s = before ++ c :: after
                /\ Forall (fun x => matches (by_id id) x = false) before
                /\ put_course req e s
                   = Some (Send 200
                             (Json [("modifiedCount",
                                     VNum (if doc_eqb c c' then 0 else 1))]),
                           with_courses s (before ++ c' :: after))
                /\ get_field "updatedAt" c' = Some (VDate (now e))
                /\ (forall k v, k <> "updatedAt" ->
                      get_field k patch = Some v -> get_field k c' = Some v)
                /\ (forall k, k <> "updatedAt" ->
                      get_field k patch = None ->
                      get_field k c' = get_field k c))).
Proof.
  intros req e s id patch. unfold put_course. fold id. fold patch. split.
  - intros V. now rewrite V.
  - intros V Pp Dp. rewrite V. cbn [negb].
    set (upd := set_field "updatedAt" (VDate (now e)) patch).
    assert (Pu : plain_update upd = true) by (now apply set_field_plain).
    assert (Du : NoDup (map fst upd)) by (now apply set_field_NoDup).
    unfold updateOne. rewrite Pu. split.
    + intros N. rewrite updateOne_set_none by assumption. simpl.
      now rewrite with_courses_same.
    + intros c Hc.
      destruct (updateOne_set_some _ upd _ _ Hc) as (b & a & Hs & Hb & Hu).
      exists (assign c upd), b, a. rewrite Hu. cbn [matchedCount modifiedCount].
      change (1 =? 0) with false. cbv iota.
      repeat split; auto.
      * apply assign_set; [assumption|]. apply get_set_same.
      * intros k v N G. apply assign_set; [assumption|].
        unfold upd. now rewrite get_set_other.
      * intros k N G. apply assign_untouched.
        unfold upd. now rewrite get_set_other.
Qed.

Lemma C6_update_witness :
  let id := "000000000000000000000004" in
  let req := {| authorization := Sample.bearer "bob-token"; query := [];
                params_id := id;
                body := Some [("title", VStr "React"); ("level", VNum 2)] |} in
  let e := Sample.clock 80 9 in
  exists c' before after,
    courses Sample.store = before ++ Sample.course 4 "React basics" 300 false :: after
    /\ put_course req e Sample.store
       = Some (Send 200 (Json [("modifiedCount", VNum 1)]),
               with_courses Sample.store (before ++ c' :: after))
    /\ get_field "updatedAt" c' = Some (VDate 80)
    /\ get_field "title" c' = Some (VStr "React")
    /\ get_field "level" c' = Some (VNum 2)
    /\ get_field "price" c' = Some (VNum 10).
Proof.
  intros id req e.
  destruct (C6_update req e Sample.store) as [_ H].
  destruct (H eq_refl eq_refl) as [_ H'].
  - repeat constructor; simpl; intuition discriminate.
  - destruct (H' (Sample.course 4 "React basics" 300 false) eq_refl)
      as (c' & b & a & E & Hb & Hp & Hu & Hset & Hkeep).
    exists c', b, a. split; [exact E|].
    assert (Hm : doc_eqb (Sample.course 4 "React basics" 300 false) c' = false).
    { destruct (doc_eqb _ c') eqn:D; [|reflexivity].
      apply value_eqb_eq in D. injection D as <-. discriminate Hu. }
    rewrite Hm in Hp.
    split; [exact Hp|]. split; [exact Hu|].
    split; [apply Hset; [discriminate | reflexivity]|].
    split; [apply Hset; [discriminate | reflexivity]|].
    rewrite Hkeep; [reflexivity | discriminate | reflexivity].
Defined.

(** ** Enrollment listing *)

Lemma filter_unique : forall (A B : Type) (f : A -> B) (p : A -> bool) l,
  NoDup (map f l) ->
  (forall x y, p x = true -> p y = true -> f x = f y) ->
  List.filter p l = match List.find p l with Some c => [c] | None => [] end.
Proof.
  intros A B f p l D H. induction l as [|x r IH]; simpl; [reflexivity|].
  inversion D as [|? ? Hn Hd]; subst.
  destruct (p x) eqn:Px; [|auto].
  f_equal. clear IH D Hd.
  assert (Hr : Forall (fun y => p y = false) r).
  { apply Forall_forall. intros y I. destruct (p y) eqn:Py; [|reflexivity].
    exfalso. apply Hn. rewrite (H x y Px Py). now apply in_map. }
  clear Hn. induction Hr as [|y r Py _ IH]; simpl; [reflexivity|].
  now rewrite Py.
Qed.

Lemma get_field_filter : forall (keep : string -> bool) k d,
  get_field k (List.filter (fun kv => keep (fst kv)) d)
  = if keep k then get_field k d else None.
Proof.
  intros keep k d. induction d as [|[k' v] r IH]; simpl.
  - now destruct (keep k).
  - destruct (keep k') eqn:K; simpl.
    + destruct (String.eqb k k') eqn:E; [|exact IH].
      apply String.eqb_eq in E. subst. now rewrite K.
    + rewrite IH. destruct (String.eqb k k') eqn:E; [|reflexivity].
      apply String.eqb_eq in E. subst. now rewrite K.
Qed.

Lemma enrolled_entry_fields : forall e c,
  get_field "course" (enrolled_entry e c) = Some (VObj c)
  /\ get_field "enrolledAt" (enrolled_entry e c) = get_field "enrolledAt" e
  /\ get_field "_id" (enrolled_entry e c) = get_field "_id" e
  /\ (forall k, k <> "_id" -> k <> "course" -> k <> "enrolledAt" ->
        get_field k (enrolled_entry e c) = None).
Proof.
  intros e c. unfold enrolled_entry.
  repeat split; intros;
    rewrite (get_field_filter
               (fun k => existsb (String.eqb k) ["_id"; "course"; "enrolledAt"]));
    cbn [existsb].
  - simpl. apply get_set_same.
  - simpl. now apply get_set_other.
  - simpl. now apply get_set_other.
  - repeat match goal with
           | N : ?k <> _ |- _ => apply String.eqb_neq in N; rewrite N; clear N
           end.
    reflexivity.
Qed.

Lemma enrolled_pipeline_join : forall email s,
  unique_ids (courses s) ->
  enrolled_pipeline email s = listForUser email s.
Proof.
  intros email s U.
  unfold enrolled_pipeline, listForUser, agg_project, agg_unwind, agg_lookup,
    agg_match.
  induction (find [(["userEmail"], CEq (VStr email))] (enrolled s))
    as [|e r IH]; [reflexivity|].
  cbn [map flat_map fst snd]. rewrite map_app. f_equal; [|exact IH].
  change (List.filter _ (courses s)) with (List.filter (refers_to e) (courses s)).
  rewrite (filter_unique _ _ (fun d => or_null (get_field "_id" d))
             (refers_to e) (courses s) U).
  - unfold course_of. now destruct (List.find (refers_to e) (courses s)).
  - unfold refers_to. intros x y Px Py.
    apply value_eqb_eq in Px, Py. congruence.
Qed.

(** C8.  Courses having distinct ids, [GET /enrolled] answers 200 with
    the join: for each enrollment of the user, in order, one entry when a
    course has the enrollment's [courseId] and none when no course has
    it; an entry carries the whole course document under [course], the
    enrollment's [enrolledAt] and [_id], and nothing else.  Nothing is
    written. *)
Theorem C8_enrolled_join :
  forall email s,
    unique_ids (courses s) ->
    get_enrolled email s = Some (Send 200 (JsonList (listForUser email s)), s)
    /\ (forall e c,
          get_field "course" (enrolled_entry e c) = Some (VObj c)
          /\ get_field "enrolledAt" (enrolled_entry e c) = get_field "enrolledAt" e
          /\ (forall k, k <> "_id" -> k <> "course" -> k <> "enrolledAt" ->
                get_field k (enrolled_entry e c) = None))
    /\ (forall e, course_of (courses s) e = None ->
          listForUser email (with_enrolled s [e]) = []).
Proof.
  intros email s U. split; [|split].
  - unfold get_enrolled. now rewrite enrolled_pipeline_join.
  - intros e c. destruct (enrolled_entry_fields e c) as (A & B & _ & D).
    auto.
  - intros e N. unfold listForUser, find. cbn [enrolled courses with_enrolled].
    cbn [List.filter].
    destruct (matches _ e); [|reflexivity].
    cbn [flat_map]. now rewrite N.
Qed.

Lemma C8_enrolled_join_witness :
  let e1 := enrollment_record (Sample.oid 20) "alice@example.com" (Sample.oid 5) 50 in
  let gone := enrollment_record (Sample.oid 21) "alice@example.com" (Sample.oid 6) 60 in
  let s := with_enrolled Sample.store [e1; gone] in
  get_enrolled "alice@example.com" s
  = Some (Send 200
            (JsonList [ [("_id", VId (Sample.oid 20)); ("enrolledAt", VDate 50);
                         ("course", VObj (Sample.course 5 "Node" 200 true))] ]),
          s).
Proof.
  intros e1 gone s.
  destruct (C8_enrolled_join "alice@example.com" s) as [H _].
  - repeat constructor; simpl; intuition discriminate.
  - exact H.
Defined.

(** ** Limits *)

Lemma digit_value_digit : forall c,
  is_digit c = true ->
  digit_value c = Some (Z.of_nat (nat_of_ascii c - 48))
  /\ 0 <= Z.of_nat (nat_of_ascii c - 48) < 10.
Proof.
  intros c D. unfold is_digit in D. unfold digit_value. cbv zeta in *.
  rewrite D. split; [reflexivity|].
  apply andb_prop in D as [A B].
  apply Nat.leb_le in A. apply Nat.leb_le in B. lia.
Qed.

Lemma digits_value_nonneg : forall s a, 0 <= a -> 0 <= digits_value s a.
Proof.
  induction s as [|c r IH]; intros a H; cbn [digits_value]; [assumption|].
  apply IH. lia.
Qed.

Lemma parse_digits_numeral : forall s a,
  all_digits s = true ->
  parse_digits 10 s (Some a) = Some (digits_value s a).
Proof.
  induction s as [|c r IH]; intros a D; cbn [parse_digits digits_value];
    [reflexivity|].
  cbn [all_digits] in D. apply andb_prop in D as [Dc Dr].
  destruct (digit_value_digit c Dc) as [E B]. rewrite E.
  destruct (Z.ltb_spec (Z.of_nat (nat_of_ascii c - 48)) 10) as [_|G]; [|lia].
  rewrite IH by assumption. f_equal. f_equal. lia.
Qed.

Lemma digit_plain : forall c,
  is_digit c = true ->
  is_space c = false /\ c <> "-"%char /\ c <> "+"%char /\ c <> "x"%char
  /\ c <> "X"%char.
Proof.
  intros c D. unfold is_digit in D. cbv zeta in D.
  apply andb_prop in D as [A B].
  apply Nat.leb_le in A. apply Nat.leb_le in B.
  assert (N : forall d,
            (nat_of_ascii d < 48)%nat \/ (57 < nat_of_ascii d)%nat -> c <> d)
    by (intros d H ->; lia).
  split; [|repeat split; apply N;
            match goal with
            | |- context [nat_of_ascii ?d] =>
                let v := eval vm_compute in (nat_of_ascii d) in
                change (nat_of_ascii d) with v
            end; lia].
  unfold is_space. cbv zeta.
  destruct (Nat.leb_spec 9 (nat_of_ascii c)), (Nat.leb_spec (nat_of_ascii c) 13),
    (Nat.eqb_spec (nat_of_ascii c) 32); simpl; try reflexivity; lia.
Qed.

(** [parseInt], with radix ten or with none, reads a decimal numeral as
    its number. *)
Lemma parseInt_numeral : forall text n radix,
  numeral text n -> radix = None \/ radix = Some 10 ->
  parseInt text radix = number_of_Z n /\ 0 <= n.
Proof.
  intros text n radix (Hne & Hd & Hv) Hr.
  destruct text as [|c r]; [contradiction|]. clear Hne.
  cbn [all_digits] in Hd. apply andb_prop in Hd as [Dc Dr].
  destruct (digit_plain c Dc) as (Sp & Nm & Np & Nx & NX).
  destruct (digit_value_digit c Dc) as [E B].
  assert (P : parse_digits 10 (String c r) None = Some n).
  { cbn [parse_digits]. rewrite E.
    destruct (Z.ltb_spec (Z.of_nat (nat_of_ascii c - 48)) 10) as [_|G]; [|lia].
    rewrite parse_digits_numeral by assumption.
    cbn [digits_value] in Hv. rewrite Z.mul_0_r, Z.add_0_l in Hv.
    now rewrite Hv. }
  assert (Hn : 0 <= n).
  { subst n. apply digits_value_nonneg. lia. }
  split; [|assumption].
  unfold parseInt. cbn [trimStart]. rewrite Sp.
  assert (Sg : strip_sign (String c r) = (false, String c r)).
  { unfold strip_sign. destruct c as [[] [] [] [] [] [] [] []];
      try reflexivity; congruence. }
  rewrite Sg.
  assert (Hx : strip_hex_prefix (String c r) = None).
  { unfold strip_hex_prefix. destruct r as [|d r']; [now destruct c as [[] [] [] [] [] [] [] []]|].
    cbn [all_digits] in Dr. apply andb_prop in Dr as [Dd _].
    destruct (digit_plain d Dd) as (_ & _ & _ & Ndx & NdX).
    destruct c as [[] [] [] [] [] [] [] []]; try reflexivity;
      destruct d as [[] [] [] [] [] [] [] []]; try reflexivity; congruence. }
  destruct Hr as [-> | ->]; [now rewrite Hx, P | now rewrite P].
Qed.

Lemma number_of_Z_exact : forall n,
  0 <= n <= two53 -> number_of_Z n = Int n.
Proof.
  intros n H. unfold number_of_Z.
  destruct (Z.leb_spec (Z.abs n) two53) as [_|G]; [reflexivity|lia].
Qed.

(** The limit of the two capped listings is the smaller of the number
    asked for and 100. *)
Lemma capped_limit_given : forall req dflt dtext n,
  numeral dtext dflt -> limit_given dflt req n ->
  capped_limit req dtext = Int (Z.min n 100) /\ 0 <= n.
Proof.
  intros req dflt dtext n Hd Hg. unfold capped_limit, limit_given in *.
  assert (H : exists text, numeral text n
              /\ match truthy_param (query_param "limit" (query req)) with
                 | Some l => l
                 | None => dtext
                 end = text).
  { destruct (truthy_param _) as [l|]; [now exists l | subst n; now exists dtext]. }
  destruct H as (text & Hn & ->).
  destruct (parseInt_numeral text n (Some 10) Hn) as [-> H0]; [now right|].
  split; [|assumption]. unfold number_of_Z.
  destruct (Z.leb_spec (Z.abs n) two53) as [_|G]; cbn [Math_min]; [reflexivity|].
  destruct (Z.ltb_spec n 0); [lia|]. f_equal. unfold two53 in G. lia.
Qed.

(** A parameter of the course listing given as a number of the exact
    range is read as that number. *)
Lemma int_param_given : forall name dflt req n,
  given name dflt req n -> 0 <= dflt -> n <= two53 ->
  int_param name dflt req = Int n /\ 0 <= n.
Proof.
  intros name dflt req n Hg Hd Hb. unfold given, int_param in *.
  destruct (query_param name (query req)) as [text|].
  - destruct (parseInt_numeral text n None Hg) as [-> H0]; [now left|].
    split; [|assumption]. now apply number_of_Z_exact.
  - subst n. now split.
Qed.

Lemma limit_positive : forall n l,
  1 <= n -> Mongo.limit n l = firstn (Z.to_nat n) l.
Proof.
  intros n l H. unfold Mongo.limit.
  destruct (n =? 0) eqn:E; [apply Z.eqb_eq in E; lia|].
  now rewrite Z.abs_eq by lia.
Qed.



(** ** Instructor directory *)


Section group_first_facts.
Variable key : list string.



End group_first_facts.












(** ** The BSON order and the sort *)

Lemma bool_compare_antisym : forall x y,
  Bool.compare y x = CompOpp (Bool.compare x y).
Proof. now intros [] []. Qed.

Lemma compare_antisym : forall a b,
  Bson.compare b a = CompOpp (Bson.compare a b).
Proof.
  intros a. induction a as [| | | | | |xs IH] using value_nested_ind;
    intros []; simpl; try reflexivity.
  - apply bool_compare_antisym.
  - apply Z.compare_antisym.
  - apply String.compare_antisym.
  - apply Z.compare_antisym.
  - apply String.compare_antisym.
  - revert fields.
    induction IH as [|[k v] r Hv _ IHr]; intros [|[k' w] ys];
      try reflexivity.
    simpl in Hv. rewrite (Nat.compare_antisym (Bson.rank v) (Bson.rank w)).
    destruct (Nat.compare (Bson.rank v) (Bson.rank w)); try reflexivity.
    cbn [CompOpp]. rewrite (String.compare_antisym k k').
    destruct (String.compare k' k); try reflexivity.
    cbn [CompOpp]. rewrite (Hv w).
    destruct (Bson.compare v w); try reflexivity.
    cbn [CompOpp]. apply IHr.
Qed.

Lemma before_desc_iff : forall a b,
  before_desc "createdAt" a b = true <-> created_desc a b.
Proof.
  intros a b. unfold before_desc, created_desc.
  destruct (Bson.compare _ _); split; congruence.
Qed.

Lemma before_desc_total : forall k a b,
  before_desc k a b = false -> before_desc k b a = true.
Proof.
  intros k a b. unfold before_desc.
  rewrite (compare_antisym (Bson.sort_key k a) (Bson.sort_key k b)).
  now destruct (Bson.compare (Bson.sort_key k a) (Bson.sort_key k b)).
Qed.

Section sort_facts.
Variable k : string.
Let R (a b : doc) : Prop := before_desc k a b = true.

Lemma insert_desc_perm : forall x l, Permutation (x :: l) (insert_desc k x l).
Proof.
  intros x l. induction l as [|y r IH]; simpl; [apply Permutation_refl|].
  destruct (before_desc k x y); [apply Permutation_refl|].
  eapply Permutation_trans; [apply perm_swap|]. now apply perm_skip.
Qed.

Lemma insert_desc_hd : forall a x l,
  R a x -> HdRel R a l -> HdRel R a (insert_desc k x l).
Proof.
  intros a x l Hax Hl. destruct l as [|y r]; simpl.
  - now constructor.
  - destruct (before_desc k x y); constructor; auto.
    now apply HdRel_inv in Hl.
Qed.

Lemma insert_desc_sorted : forall x l,
  Sorted R l -> Sorted R (insert_desc k x l).
Proof.
  intros x l S. induction S as [|y r S IH H]; simpl.
  - now repeat constructor.
  - destruct (before_desc k x y) eqn:E.
    + constructor; [now constructor|]. now constructor.
    + constructor; [assumption|].
      apply insert_desc_hd; [|assumption]. now apply before_desc_total.
Qed.

Lemma sort_desc_sorted : forall l, Sorted R (sort_desc k l).
Proof.
  induction l as [|x r IH]; simpl; [constructor|].
  now apply insert_desc_sorted.
Qed.

Lemma sort_desc_perm : forall l, Permutation (sort_desc k l) l.
Proof.
  induction l as [|x r IH]; simpl; [constructor|].
  apply Permutation_sym. eapply Permutation_trans;
    [|apply insert_desc_perm]. apply perm_skip. now apply Permutation_sym.
Qed.
End sort_facts.

Lemma Sorted_firstn : forall (A : Type) (R : A -> A -> Prop) n l,
  Sorted R l -> Sorted R (firstn n l).
Proof.
  intros A R n l S. revert n.
  induction S as [|x r S IH H]; intros [|n]; simpl; try constructor; auto.
  destruct r as [|y r'], n; simpl; constructor.
  now apply HdRel_inv in H.
Qed.

Lemma Sorted_map : forall (A : Type) (R : A -> A -> Prop) (f : A -> A) l,
  (forall a b, R a b -> R (f a) (f b)) ->
  Sorted R l -> Sorted R (map f l).
Proof.
  intros A R f l Hf S. induction S as [|x r S IH H]; simpl; constructor; auto.
  destruct H; simpl; constructor; auto.
Qed.

(** ** Featured courses *)

Lemma normalize_image_fields : forall c,
  get_field "image" (normalize_image c) = Some (normalized_image c)
  /\ (forall k, k <> "image" -> get_field k (normalize_image c) = get_field k c).
Proof.
  intros c. unfold normalize_image. split.
  - rewrite get_set_same. f_equal. unfold normalized_image, js_or, usable.
    destruct (get_field "image" c) as [v|]; simpl.
    + destruct (truthy v) eqn:T; simpl; [now rewrite T|].
      destruct (get_field "imageUrl" c) as [w|]; simpl; [|reflexivity].
      destruct (truthy w) eqn:T'; simpl; now rewrite ?T'.
    + destruct (get_field "imageUrl" c) as [w|]; simpl; [|reflexivity].
      destruct (truthy w) eqn:T'; simpl; now rewrite ?T'.
  - intros k N. now apply get_set_other.
Qed.

Lemma featured_spec : forall s c,
  In c (featured s) <->
  In c (courses s) /\ get_field "isFeatured" c = Some (VBool true).
Proof.
  intros s c. unfold featured, find. rewrite filter_In.
  unfold matches. cbn [forallb fst snd get_path]. rewrite andb_true_r.
  now rewrite cond_eq_holds by discriminate.
Qed.

(** C5 as written: "the stored image if present".  A featured course
    with an empty [image] and a legacy [imageUrl] is listed with the
    legacy address, not with its stored image. *)
Lemma C5_counterexample :
  let c := [("_id", VId (Sample.oid 8)); ("title", VStr "Legacy");
            ("image", VStr ""); ("imageUrl", VStr "http://old/img.png");
            ("isFeatured", VBool true); ("createdAt", VDate 10)] in
  let s := with_courses Sample.store [c] in
  exists listed,
    featured_courses Sample.request0 s = Some (Send 200 (JsonList [listed]), s)
    /\ get_field "image" c = Some (VStr "")
    /\ get_field "image" listed = Some (VStr "http://old/img.png").
Proof. intros c s. eexists. repeat split. Qed.

(** The same handler with [limit=0]: the cursor limit 0 is no limit, and
    both featured courses of the sample store are listed. *)
Lemma featured_courses_limit_zero :
  let req := {| authorization := None; query := [("limit", "0")];
                params_id := ""; body := None |} in
  capped_limit req "6" = Int 0
  /\ featured_courses req Sample.store
     = Some (Send 200
               (JsonList [Sample.course 5 "Node" 200 true;
                          Sample.course 3 "abc" 100 true]), Sample.store).
Proof. split; reflexivity. Qed.

Lemma sort_desc_created : forall l,
  Sorted created_desc (sort_desc "createdAt" l).
Proof.
  intros l.
  eapply Sorted_ind with (P := Sorted created_desc);
    [constructor| |apply (sort_desc_sorted "createdAt")].
  intros a r _ IH H. constructor; [assumption|].
  destruct H; constructor. now apply before_desc_iff.
Qed.

(** C5, amended.  The request asks for [n >= 1] courses, with a decimal
    numeral as [limit], or for 6 by giving no limit; the limit applied
    is the smaller of [n] and 100.  [GET /featured-courses] puts the
    courses whose [isFeatured] is true, all of them and no other, in an
    order in which no course has a [createdAt] below that of the next,
    and answers with the first of them, up to the limit; each is listed
    with its fields unchanged but [image], which is the stored image
    when it is truthy, else [imageUrl] when it is truthy, else the empty
    string. *)
Theorem C5_featured :
  forall req s n,
    limit_given 6 req n -> 1 <= n ->
    let limit := Z.to_nat (Z.min n 100) in
    exists sorted,
      Permutation sorted (featured s)
      /\ Sorted created_desc sorted
      /\ (forall c, In c sorted ->
            In c (courses s) /\ get_field "isFeatured" c = Some (VBool true))
      /\ let listed := map normalize_image (firstn limit sorted) in
         featured_courses req s = Some (Send 200 (JsonList listed), s)
         /\ Sorted created_desc listed
         /\ (List.length listed <= limit)%nat
         /\ (limit <= 100)%nat
         /\ (forall c,
               get_field "image" (normalize_image c) = Some (normalized_image c)
               /\ (forall k, k <> "image" ->
                     get_field k (normalize_image c) = get_field k c)).
Proof.
  intros req s n Hg H1 limit.
  destruct (capped_limit_given req 6 "6" n) as [Hn _];
    [repeat split; discriminate | assumption |].
  exists (sort_desc "createdAt" (featured s)).
  split; [apply sort_desc_perm|]. split; [apply sort_desc_created|]. split.
  { intros c I. apply featured_spec.
    apply Permutation_in with (l := sort_desc "createdAt" (featured s));
      [apply sort_desc_perm | assumption]. }
  intros listed. split; [|split; [|split; [|split]]].
  - unfold featured_courses. rewrite Hn. fold (featured s).
    now rewrite limit_positive by lia.
  - unfold listed. apply Sorted_map.
    + intros a b. unfold created_desc, Bson.sort_key.
      now rewrite !(proj2 (normalize_image_fields _)) by discriminate.
    + apply Sorted_firstn, sort_desc_created.
  - unfold listed. rewrite length_map. apply firstn_le_length.
  - unfold limit. lia.
  - apply normalize_image_fields.
Qed.

Lemma C5_featured_witness :
  let req := {| authorization := None; query := [("limit", "2")];
                params_id := ""; body := None |} in
  let s := with_courses Sample.store
             (courses Sample.store
              ++ [Sample.course 6 "Go" 400 true; Sample.course 7 "C" 500 false]) in
  exists sorted,
    Permutation sorted (featured s)
    /\ Sorted created_desc sorted
    /\ featured_courses req s
       = Some (Send 200 (JsonList (map normalize_image (firstn 2 sorted))), s).
Proof.
  intros req s.
  assert (G : limit_given 6 req 2) by (repeat split; discriminate).
  destruct (C5_featured req s 2 G) as (sorted & P & S & _ & H); [lia|].
  destruct H as (H1 & _).
  exists sorted. split; [exact P|]. split; [exact S | exact H1].
Defined.

(** ** Regular expressions *)



















(** ** Course listing *)

Lemma matches_app : forall q1 q2 c,
  matches (q1 ++ q2) c = matches q1 c && matches q2 c.
Proof. intros. unfold matches. apply forallb_app. Qed.

Lemma category_filter : forall cat c,
  matches [(["category"], CEq (VStr cat))] c = true
  <-> get_field "category" c = Some (VStr cat).
Proof.
  intros cat c. unfold matches. cbn [forallb fst snd get_path].
  rewrite andb_true_r. now apply cond_eq_holds.
Qed.

Lemma title_filter : forall pattern r c,
  Regex.parse pattern = Some r ->
  (matches [(["title"], CRegexI r)] c = true <-> title_matches pattern c).
Proof.
  intros pattern r c P. unfold matches, title_matches.
  cbn [forallb fst snd get_path]. rewrite andb_true_r, P. split.
  - destruct (get_field "title" c) as [[| | |t| | |]|]; try discriminate.
    intros S. now exists r, t.
  - intros (r' & t & E & -> & S). now injection E as <-.
Qed.

Lemma all_courses_filter_spec : forall category search q c,
  all_courses_filter category search = Some q ->
  (matches q c = true <-> category_is category c /\ title_is search c).
Proof.
  intros category search q c. unfold all_courses_filter, category_is, title_is.
  destruct (truthy_param search) as [pattern|].
  - destruct (Regex.parse pattern) as [r|] eqn:P; [|discriminate].
    destruct (Regex.ascii_text pattern); [|discriminate].
    intros E. injection E as <-. rewrite matches_app, andb_true_iff.
    rewrite (title_filter pattern r c P).
    destruct (truthy_param category) as [cat|].
    + now rewrite category_filter.
    + tauto.
  - intros E. injection E as <-.
    destruct (truthy_param category) as [cat|].
    + rewrite category_filter. tauto.
    + simpl. tauto.
Qed.


(** The same handler with [limit=0]: nothing bounds the listing. *)
Lemma all_courses_limit_zero :
  let req := {| authorization := None; query := [("limit", "0")];
                params_id := ""; body := None |} in
  all_courses req Sample.store
  = Some (Send 200 (JsonList (courses Sample.store)), Sample.store).
Proof. reflexivity. Qed.

Lemma ascii_titles_spec : forall c,
  (forall d t, In d c -> get_field "title" d = Some (VStr t) ->
     Regex.ascii_text t = true) ->
  ascii_titles c = true.
Proof.
  intros c H. unfold ascii_titles. apply forallb_forall. intros d I.
  destruct (get_field "title" d) as [[| | |t| | |]|] eqn:G; try reflexivity.
  now apply (H d t).
Qed.

(** The answer of the listing in its modelled fragment: the page of the
    documents that the filter of the request selects. *)
Lemma all_courses_page : forall req s page limit,
  given "page" 1 req page -> given "limit" 100 req limit ->
  1 <= page -> 1 <= limit -> page * limit <= two53 ->
  modelled_search (query_param "search" (query req)) (courses s) ->
  exists q,
    all_courses_filter (query_param "category" (query req))
      (query_param "search" (query req)) = Some q
    /\ all_courses req s
       = Some (Send 200
                 (JsonList
                    (firstn (Z.to_nat limit)
                       (skipn (Z.to_nat ((page - 1) * limit))
                          (find q (courses s))))),
               s).
Proof.
  intros req s page limit Hp Hl H1 H2 Hb Hm.
  destruct (int_param_given "page" 1 req page Hp) as [Ep _]; [lia | nia |].
  destruct (int_param_given "limit" 100 req limit Hl) as [El _]; [lia | nia |].
  assert (Hq : exists q,
             all_courses_filter (query_param "category" (query req))
               (query_param "search" (query req)) = Some q).
  { unfold all_courses_filter.
    destruct (truthy_param (query_param "search" (query req))) as [pat|] eqn:T;
      [|eauto].
    destruct (Hm pat T) as (A & (r & P) & _). rewrite P, A. eauto. }
  destruct Hq as (q & Hq). exists q. split; [assumption|].
  unfold all_courses. rewrite Hq, Ep, El.
  rewrite (number_of_Z_exact (page - 1)) by nia.
  rewrite (number_of_Z_exact ((page - 1) * limit)) by nia.
  assert (Hs : match truthy_param (query_param "search" (query req)) with
               | Some _ => ascii_titles (courses s)
               | None => true
               end = true).
  { destruct (truthy_param (query_param "search" (query req))) as [pat|] eqn:T;
      [|reflexivity].
    destruct (Hm pat T) as (_ & _ & A). now apply ascii_titles_spec. }
  rewrite Hs. cbn [negb]. unfold Mongo.skip.
  destruct ((page - 1) * limit <? 0) eqn:N; [apply Z.ltb_lt in N; nia|].
  now rewrite limit_positive.
Qed.



(** The request of the instance above lists the second of the two
    courses of the category whose title contains an [a]. *)
Example all_courses_second_page :
  let req := {| authorization := None;
                query := [("category", "web"); ("search", "A");
                          ("page", "2"); ("limit", "1")];
                params_id := ""; body := None |} in
  all_courses req Sample.store
  = Some (Send 200 (JsonList [Sample.course 4 "React basics" 300 false]),
          Sample.store).
Proof. reflexivity. Qed.

(** ** Worked scenarios *)

(** [limit=2] on three featured and two other courses: the two most
    recent featured courses, the most recent first. *)
Example featured_two_of_three :
  let req := {| authorization := None; query := [("limit", "2")];
                params_id := ""; body := None |} in
  let s := with_courses Sample.store
             (courses Sample.store
              ++ [Sample.course 6 "Go" 400 true; Sample.course 7 "C" 500 false]) in
  featured_courses req s
  = Some (Send 200
            (JsonList [Sample.course 6 "Go" 400 true;
                       Sample.course 5 "Node" 200 true]), s).
Proof. reflexivity. Qed.

(** A first login without a role, the role read back, and two
    enrollments in the same course. *)
Example first_login_then_enroll :
  let serve := serve Sample.verifyIdToken Sample.formats
                 Sample.of_number Sample.group_order in
  let login := {| authorization := None; query := []; params_id := "";
                  body := Some [("email", VStr "carol@example.com");
                                ("name", VStr "Carol")] |} in
  let whoami := {| authorization := None;
                   query := [("email", "carol@example.com")];
                   params_id := ""; body := None |} in
  let join := {| authorization := Sample.bearer "carol-token"; query := [];
                 params_id := "";
                 body := Some [("courseId", VStr "000000000000000000000005")] |} in
  exists s1 s2,
    serve PostUsers login (Sample.clock 10 30) Sample.store
    = Some (Send 200 (Json [("insertedId", VId (Sample.oid 30))]), s1)
    /\ serve GetUsers whoami (Sample.clock 11 31) s1
       = Some (Send 200 (Json [("role", VStr "student")]), s1)
    /\ serve PostEnroll join (Sample.clock 12 32) s1
       = Some (Send 200 (Json [("insertedId", VId (Sample.oid 32))]), s2)
    /\ serve PostEnroll join (Sample.clock 13 33) s2
       = Some (error 409 "Already enrolled", s2).
Proof. do 2 eexists. repeat split. Qed.

(** * Further properties of the handlers *)

Import Notions.

(** ** Authentication *)

Lemma prefix_append : forall p h,
  String.prefix p h = true -> exists t, h = String.append p t.
Proof.
  induction p as [|a p IH]; intros [|b h]; simpl; try discriminate.
  - intros _. now exists "".
  - intros _. now exists (String b h).
  - destruct (ascii_dec a b) as [->|]; [|discriminate].
    intros H. destruct (IH _ H) as [t ->]. now exists t.
Qed.

Lemma split_aux_head : forall t cur,
  hd_error (split_aux " " t cur) = Some (String.append cur (before_space t)).
Proof.
  induction t as [|c r IH]; intros cur; simpl.
  - f_equal. induction cur; simpl; congruence.
  - destruct (Ascii.eqb c " ") eqn:E.
    + simpl. f_equal. induction cur; simpl; congruence.
    + rewrite IH. f_equal.
      induction cur; simpl; [reflexivity | congruence].
Qed.

Lemma bearer_token : forall t,
  nth_error (split " " (String.append "Bearer " t)) 1 = Some (before_space t).
Proof.
  intros t. unfold split. cbn [String.append split_aux Ascii.eqb Bool.eqb].
  cbn [nth_error].
  exact (split_aux_head t "").
Qed.

Lemma verifyUser_bearer : forall vt req t,
  authorization req = Some (String.append "Bearer " t) ->
  verifyUser vt req
  = match vt (before_space t) with
    | Some email => Next email
    | None => Reply (error 403 "Invalid token")
    end.
Proof.
  intros vt req t H. unfold verifyUser. rewrite H.
  change (startsWith (String.append "Bearer " t) "Bearer ")
    with (String.prefix "" t).
  replace (String.prefix "" t) with true by (now destruct t).
  cbn [negb]. now rewrite bearer_token.
Qed.

Lemma verifyUser_Reply : forall vt req r,
  verifyUser vt req = Reply r ->
  r = error 401 "No token" \/ r = error 403 "Invalid token".
Proof.
  intros vt req r. unfold verifyUser.
  destruct (authorization req) as [h|]; [|intros E; injection E; auto].
  destruct (startsWith h "Bearer "); cbn [negb];
    [|intros E; injection E; auto].
  destruct (nth_error (split " " h) 1) as [t|];
    [|intros E; injection E; auto].
  destruct (vt t); [discriminate | intros E; injection E; auto].
Qed.

Lemma checkRole_Reply : forall role email s r,
  checkRole role email s = Reply r ->
  r = error 403 "User not found" \/ r = error 403 "Forbidden: wrong role".
Proof.
  intros role email s r. unfold checkRole.
  destruct (findOne _ (users s)) as [found|]; [|intros E; injection E; auto].
  destruct (strict_eq_str _ role); [discriminate | intros E; injection E; auto].
Qed.

Lemma serve_authorized : forall vt F oo go ep role req e s email,
  required_role ep = Some role ->
  verifyUser vt req = Next email ->
  checkRole role email s = Next tt ->
  serve vt F oo go ep req e s = handler F oo go ep (Some email) req e s.
Proof.
  intros vt F oo go ep role req e s email Hr Hv Hc.
  unfold serve, protected. now rewrite Hr, Hv, Hc.
Qed.

(** [verifyUser] answers 401 exactly when the header is missing or does
    not start with ["Bearer "]; otherwise the verifier is given the text
    between the first and the second space, and a token it refuses is
    answered 403. *)
Theorem verifyUser_outcomes :
  forall vt req,
    (verifyUser vt req = Reply (error 401 "No token")
     <-> authorization req = None
         \/ exists h, authorization req = Some h
                      /\ startsWith h "Bearer " = false)
    /\ (forall h, authorization req = Some h ->
          startsWith h "Bearer " = true ->
          exists t,
            h = String.append "Bearer " t
            /\ verifyUser vt req
               = match vt (before_space t) with
                 | Some email => Next email
                 | None => Reply (error 403 "Invalid token")
                 end).
Proof.
  intros vt req. split.
  - unfold verifyUser. destruct (authorization req) as [h|].
    + destruct (startsWith h "Bearer ") eqn:B; cbn [negb].
      * split.
        -- destruct (nth_error (split " " h) 1) as [t|]; [|discriminate].
           destruct (vt t); discriminate.
        -- intros [N|(h' & E & B')]; [discriminate|].
           injection E as <-. congruence.
      * split; [|reflexivity]. intros _. right. now exists h.
    + split; [auto | reflexivity].
  - intros h Hh B. apply prefix_append in B as [t ->].
    exists t. split; [reflexivity|]. now apply verifyUser_bearer.
Qed.

Lemma verifyUser_outcomes_witness :
  let req := {| authorization := Some "Bearer alice-token trailing";
                query := []; params_id := ""; body := None |} in
  exists t,
    "Bearer alice-token trailing" = String.append "Bearer " t
    /\ verifyUser Sample.verifyIdToken req
       = match Sample.verifyIdToken (before_space t) with
         | Some email => Next email
         | None => Reply (error 403 "Invalid token")
         end.
Proof.
  intros req.
  destruct (verifyUser_outcomes Sample.verifyIdToken req) as [_ H].
  exact (H _ eq_refl eq_refl).
Defined.

(** On a route registered with a role, a request that has no credential
    verifying as a user with that role is answered 401 or 403 and the
    database is left as it was. *)
Theorem unauthorized_writes_nothing :
  forall vt F oo go ep role req e s,
    required_role ep = Some role ->
    (forall email, valid_credential vt req email ->
       checkRole role email s <> Next tt) ->
    exists status msg,
      serve vt F oo go ep req e s = Some (error status msg, s)
      /\ (status = 401 \/ status = 403).
Proof.
  intros vt F oo go ep role req e s Hr Hno. unfold serve, protected.
  rewrite Hr. destruct (verifyUser vt req) as [email|r] eqn:V.
  - apply verifyUser_Next in V. specialize (Hno email V).
    destruct (checkRole role email s) as [u|r] eqn:C;
      [destruct u; contradiction|].
    apply checkRole_Reply in C as [-> | ->]; eauto.
  - apply verifyUser_Reply in V as [-> | ->]; eauto.
Qed.

Lemma unauthorized_writes_nothing_witness :
  let req := {| authorization := Sample.bearer "alice-token"; query := [];
                params_id := "000000000000000000000003"; body := None |} in
  exists status msg,
    serve Sample.verifyIdToken Sample.formats Sample.of_number
      Sample.group_order DeleteCourse req (Sample.clock 5 9) Sample.store
    = Some (error status msg, Sample.store)
    /\ (status = 401 \/ status = 403).
Proof.
  intros req.
  apply (unauthorized_writes_nothing Sample.verifyIdToken Sample.formats
           Sample.of_number Sample.group_order DeleteCourse
           "instructor" req (Sample.clock 5 9) Sample.store eq_refl).
  intros email V. apply verifyUser_Next in V.
  injection V as <-. discriminate.
Defined.

(** A user who passes [checkRole] for one role is answered 403
    "Forbidden: wrong role" by [checkRole] for the other: the routes of
    one role are closed to the users of the other. *)
Theorem roles_exclusive :
  forall email s,
    (checkRole "student" email s = Next tt ->
       checkRole "instructor" email s = Reply (error 403 "Forbidden: wrong role"))
    /\ (checkRole "instructor" email s = Next tt ->
          checkRole "student" email s = Reply (error 403 "Forbidden: wrong role")).
Proof.
  intros email s. split; intros A;
    apply checkRole_Next in A as (u & Fu & Ru);
    unfold checkRole; now rewrite Fu, Ru.
Qed.

Lemma roles_exclusive_witness :
  checkRole "instructor" "alice@example.com" Sample.store
  = Reply (error 403 "Forbidden: wrong role")
  /\ checkRole "student" "bob@example.com" Sample.store
     = Reply (error 403 "Forbidden: wrong role").
Proof.
  split.
  - exact (proj1 (roles_exclusive "alice@example.com" Sample.store) eq_refl).
  - exact (proj2 (roles_exclusive "bob@example.com" Sample.store) eq_refl).
Defined.

(** The instructor routes that write do not look at who calls: two
    requests that differ only in the credential, each of some
    instructor, have the same outcome.  In particular the caller's email
    is never compared with [instructor.email] of the course. *)
Theorem instructor_writes_ignore_caller :
  forall vt F oo go ep req1 req2 email1 email2 e s,
    ep = PostCourses \/ ep = PutCourse \/ ep = DeleteCourse ->
    query req1 = query req2 -> params_id req1 = params_id req2 ->
    body req1 = body req2 ->
    valid_credential vt req1 email1 -> valid_credential vt req2 email2 ->
    checkRole "instructor" email1 s = Next tt ->
    checkRole "instructor" email2 s = Next tt ->
    serve vt F oo go ep req1 e s = serve vt F oo go ep req2 e s.
Proof.
  intros vt F oo go ep req1 req2 email1 email2 e s Hep Hq Hp Hb V1 V2 C1 C2.
  apply verifyUser_Next in V1, V2.
  assert (Hr : required_role ep = Some "instructor")
    by (destruct Hep as [->|[-> | ->]]; reflexivity).
  rewrite (serve_authorized vt F oo go ep _ req1 e s email1 Hr V1 C1).
  rewrite (serve_authorized vt F oo go ep _ req2 e s email2 Hr V2 C2).
  destruct Hep as [->|[-> | ->]]; cbn [handler].
  - unfold post_courses. now rewrite Hb.
  - unfold put_course. now rewrite Hp, Hb.
  - unfold delete_course. now rewrite Hp.
Qed.

Lemma instructor_writes_ignore_caller_witness :
  let dave := [("_id", VId (Sample.oid 40)); ("email", VStr "carol@example.com");
               ("role", VStr "instructor")] in
  let s := with_users Sample.store (users Sample.store ++ [dave]) in
  let req t := {| authorization := Sample.bearer t; query := [];
                  params_id := "000000000000000000000003"; body := None |} in
  serve Sample.verifyIdToken Sample.formats Sample.of_number
    Sample.group_order DeleteCourse (req "bob-token") (Sample.clock 5 9) s
  = serve Sample.verifyIdToken Sample.formats Sample.of_number
      Sample.group_order DeleteCourse (req "carol-token") (Sample.clock 5 9) s.
Proof.
  intros dave s req.
  apply (instructor_writes_ignore_caller Sample.verifyIdToken Sample.formats
           Sample.of_number Sample.group_order DeleteCourse
           (req "bob-token") (req "carol-token")
           "bob@example.com" "carol@example.com");
    try reflexivity.
  - right. now right.
  - apply verifyUser_Next. reflexivity.
  - apply verifyUser_Next. reflexivity.
Defined.

(** ** Users *)

Lemma findOne_none_all : forall q c d,
  findOne q c = None -> In d c -> matches q d = false.
Proof. intros q c d N I. exact (find_none _ _ N d I). Qed.

Lemma insertOne_appends : forall d g c id c',
  get_field "_id" d = None ->
  insertOne d g c = Some (id, c') ->
  id = VId g /\ c' = c ++ [("_id", VId g) :: d]
  /\ existsb (has_id (VId g)) c = false.
Proof.
  intros d g c id c' Hd. unfold insertOne. rewrite Hd. simpl.
  destruct (existsb (has_id (VId g)) c); [discriminate|].
  intros E. injection E as <- <-. auto.
Qed.

Lemma get_users_found : forall req s email,
  truthy_param (query_param "email" (query req)) = Some email ->
  forall u r,
    findOne [(["email"], CEq (VStr email))] (users s) = Some u ->
    get_field "role" u = Some r ->
    get_users req s = Some (Send 200 (Json [("role", r)]), s).
Proof.
  intros req s email Q u r Fu Ru. unfold get_users.
  now rewrite Q, Fu, Ru.
Qed.

(** A first login followed by [GET /users] for the same email: the role
    read back is the role of the body, ["student"] when the body had
    none. *)
Theorem login_then_role :
  forall login b email e s whoami,
    body login = Some b ->
    get_field "email" b = Some (VStr email) -> email <> "" ->
    findOne [(["email"], CEq (VStr email))] (users s) = None ->
    existsb (has_id (VId (generated e))) (users s) = false ->
    query_param "email" (query whoami) = Some email ->
    exists s1,
      post_users login e s
      = Some (Send 200 (Json [("insertedId", VId (generated e))]), s1)
      /\ get_users whoami s1
         = Some (Send 200
                   (Json [("role", match get_field "role" b with
                                   | Some r => r
                                   | None => VStr "student"
                                   end)]), s1).
Proof.
  intros login b email e s whoami Hb He Hne Hf Hg Hq.
  exists (with_users s
            (users s ++ [first_login_record (generated e) email b])).
  split; [now apply post_users_fresh|].
  apply get_users_found
    with (email := email) (u := first_login_record (generated e) email b).
  - unfold truthy_param. rewrite Hq.
    apply String.eqb_neq in Hne. now rewrite Hne.
  - cbn [users with_users]. apply findOne_app_new; [assumption|].
    now apply by_email_matches.
  - reflexivity.
Qed.

Lemma login_then_role_witness :
  let login := {| authorization := None; query := []; params_id := "";
                  body := Some [("email", VStr "dan@example.com");
                                ("role", VStr "instructor")] |} in
  let whoami := {| authorization := None;
                   query := [("email", "dan@example.com")];
                   params_id := ""; body := None |} in
  exists s1,
    post_users login (Sample.clock 5 9) Sample.store
    = Some (Send 200 (Json [("insertedId", VId (Sample.oid 9))]), s1)
    /\ get_users whoami s1
       = Some (Send 200 (Json [("role", VStr "instructor")]), s1).
Proof.
  intros login whoami.
  apply (login_then_role login _ "dan@example.com" (Sample.clock 5 9)
           Sample.store whoami eq_refl eq_refl);
    [discriminate | reflexivity | reflexivity | reflexivity].
Defined.

(** An email without a user record is told by [GET /users] that its
    role is ["student"], and is answered 403 "User not found" by every
    route registered for students. *)
Theorem unregistered_is_student_in_name_only :
  forall vt F oo go email s whoami,
    email <> "" ->
    findOne [(["email"], CEq (VStr email))] (users s) = None ->
    query_param "email" (query whoami) = Some email ->
    get_users whoami s = Some (Send 200 (Json [("role", VStr "student")]), s)
    /\ (forall ep req e,
          required_role ep = Some "student" ->
          valid_credential vt req email ->
          serve vt F oo go ep req e s
          = Some (error 403 "User not found", s)).
Proof.
  intros vt F oo go email s whoami Hne Hf Hq. split.
  - unfold get_users, truthy_param. rewrite Hq.
    apply String.eqb_neq in Hne. now rewrite Hne, Hf.
  - intros ep req e Hr V. apply verifyUser_Next in V.
    unfold serve, protected, checkRole. now rewrite Hr, V, Hf.
Qed.

Lemma unregistered_is_student_in_name_only_witness :
  let whoami := {| authorization := None;
                   query := [("email", "carol@example.com")];
                   params_id := ""; body := None |} in
  let req := {| authorization := Sample.bearer "carol-token"; query := [];
                params_id := "";
                body := Some [("courseId", VStr "000000000000000000000003")] |} in
  get_users whoami Sample.store
  = Some (Send 200 (Json [("role", VStr "student")]), Sample.store)
  /\ serve Sample.verifyIdToken Sample.formats Sample.of_number
       Sample.group_order PostEnroll req (Sample.clock 5 9) Sample.store
     = Some (error 403 "User not found", Sample.store).
Proof.
  intros whoami req.
  destruct (unregistered_is_student_in_name_only Sample.verifyIdToken
              Sample.formats Sample.of_number Sample.group_order
              "carol@example.com" Sample.store whoami)
    as [H1 H2]; [discriminate | reflexivity | reflexivity |].
  split; [exact H1|].
  apply H2; [reflexivity|]. apply verifyUser_Next. reflexivity.
Defined.

Lemma post_users_alone_keeps_emails : forall req e s r s',
  unique_emails (users s) ->
  post_users req e s = Some (r, s') ->
  unique_emails (users s').
Proof.
  intros req e s r s' U. rewrite post_users_served.
  destruct (body req) as [b|]; [|intros E; now injection E as _ <-].
  cbv zeta.
  destruct (truthy_opt (get_field "email" b)) eqn:T; cbn [negb];
    [|intros E; now injection E as _ <-].
  destruct (get_field "email" b) as [v|] eqn:Ev; [|discriminate T].
  cbn [or_null].
  destruct (findOne [(["email"], CEq v)] (users s)) as [x|] eqn:Fo;
    [intros E; now injection E as _ <-|].
  destruct (insertOne _ (generated e) (users s)) as [[id us]|] eqn:I;
    [|intros E; now injection E as _ <-].
  intros E. injection E as _ <-. cbn [users with_users].
  apply insertOne_appends in I as (_ & -> & _); [|reflexivity].
  unfold unique_emails. rewrite map_app. cbn [map].
  apply NoDup_app; [assumption | repeat constructor; auto | ].
  intros k Ik [<-|[]]. apply in_map_iff in Ik as (d & Ed & Id).
  change (get_field "email" d = Some v) in Ed.
  apply (findOne_none_all _ _ d Fo) in Id.
  unfold matches in Id. cbn [forallb fst snd get_path] in Id.
  rewrite Ed, andb_true_r in Id.
  assert (R : cond_holds (CEq v) (Some v) = true)
    by (destruct v; apply value_eqb_refl).
  congruence.
Qed.

Lemma has_id_other : forall g g' d,
  g <> g' -> get_field "_id" d = Some (VId g') -> has_id (VId g) d = false.
Proof.
  intros [h] [h'] d N G. unfold has_id. rewrite G. cbn [value_eqb toHexString].
  apply String.eqb_neq. simpl. congruence.
Qed.

Lemma existsb_snoc : forall (A : Type) (f : A -> bool) l x,
  existsb f l = false -> f x = false -> existsb f (l ++ [x]) = false.
Proof.
  intros A f l x Hl Hx. rewrite existsb_app, Hl. cbn [existsb orb].
  now rewrite Hx.
Qed.

Lemma post_users_lookup_fresh : forall req b email s,
  body req = Some b ->
  get_field "email" b = Some (VStr email) -> email <> "" ->
  findOne [(["email"], CEq (VStr email))] (users s) = None ->
  post_users_lookup req s = Pending (tl (first_login_record (mkObjectId "") email b)).
Proof.
  intros req b email s Hb He Hne Hf. unfold post_users_lookup.
  rewrite Hb, He. cbv zeta. cbn [truthy_opt truthy or_null].
  apply String.eqb_neq in Hne. rewrite Hne. cbn [negb]. rewrite Hf.
  unfold to_bson, first_login_record. cbn [map tl fst snd or_null].
  now destruct (get_field "role" b).
Qed.

Lemma post_users_insert_fresh : forall g email b e s,
  existsb (has_id (VId (generated e))) (users s) = false ->
  post_users_insert (tl (first_login_record g email b)) e s
  = (Send 200 (Json [("insertedId", VId (generated e))]),
     with_users s (users s ++ [first_login_record (generated e) email b])).
Proof.
  intros g email b e s Hg. unfold post_users_insert.
  now rewrite insertOne_fresh by (reflexivity || assumption).
Qed.

(** [POST /users] looks the email up and then inserts.  Served with no
    other request between the two accesses, it keeps the emails of the
    user records distinct (for a body whose email is not an embedded
    document).  It does not when two first logins for one email are
    interleaved: when both lookups come before the inserts, both
    requests insert and are answered 200, and two records have the
    email. *)
Theorem first_logins_interleaved :
  forall s,
    unique_emails (users s) ->
    (forall req e r s',
        (forall b, body req = Some b -> scalar (get_field "email" b)) ->
        post_users req e s = Some (r, s') ->
        unique_emails (users s'))
    /\ (forall req1 req2 b1 b2 email e1 e2,
          body req1 = Some b1 -> get_field "email" b1 = Some (VStr email) ->
          body req2 = Some b2 -> get_field "email" b2 = Some (VStr email) ->
          email <> "" ->
          users_of email s = [] ->
          existsb (has_id (VId (generated e1))) (users s) = false ->
          existsb (has_id (VId (generated e2))) (users s) = false ->
          generated e1 <> generated e2 ->
          exists d1 d2,
            post_users_lookup req1 s = Pending d1
            /\ post_users_lookup req2 s = Pending d2
            /\ let first := first_login_record (generated e1) email b1 in
               let second := first_login_record (generated e2) email b2 in
               let s1 := with_users s (users s ++ [first]) in
               let s2 := with_users s (users s ++ [first; second]) in
               post_users_insert d1 e1 s
               = (Send 200 (Json [("insertedId", VId (generated e1))]), s1)
               /\ post_users_insert d2 e2 s1
                  = (Send 200 (Json [("insertedId", VId (generated e2))]), s2)
               /\ users_of email s2 = [first; second]
               /\ ~ unique_emails (users s2)).
Proof.
  intros s U. split.
  { intros req e r s' _. now apply post_users_alone_keeps_emails. }
  intros req1 req2 b1 b2 email e1 e2 Hb1 He1 Hb2 He2 Hne Hn Hg1 Hg2 Hd.
  apply find_nil_findOne in Hn as Hf.
  do 2 eexists.
  split; [now apply post_users_lookup_fresh with (b := b1) (email := email)|].
  split; [now apply post_users_lookup_fresh with (b := b2) (email := email)|].
  intros first second s1 s2.
  assert (M1 : matches [(["email"], CEq (VStr email))] first = true)
    by (now apply by_email_matches).
  assert (M2 : matches [(["email"], CEq (VStr email))] second = true)
    by (now apply by_email_matches).
  split; [now apply post_users_insert_fresh|]. split; [|split].
  - rewrite post_users_insert_fresh.
    + unfold s1, s2. cbn [users with_users]. unfold with_users.
      cbn [courses enrolled]. now rewrite <- app_assoc.
    + unfold s1. cbn [users with_users]. apply existsb_snoc; [assumption|].
      apply has_id_other with (g' := generated e1); [congruence | reflexivity].
  - unfold users_of in *. unfold s2. cbn [users with_users].
    rewrite find_app, Hn. unfold find. cbn [app List.filter].
    now rewrite M1, M2.
  - unfold unique_emails, s2. cbn [users with_users]. rewrite map_app.
    intros N. apply NoDup_app_remove_l in N.
    inversion N as [|x l Hx _]; subst. apply Hx. now left.
Qed.

Lemma first_logins_interleaved_witness :
  let req := {| authorization := None; query := []; params_id := "";
                body := Some [("email", VStr "dan@example.com")] |} in
  let first := first_login_record (Sample.oid 9) "dan@example.com"
                 [("email", VStr "dan@example.com")] in
  let second := first_login_record (Sample.oid 10) "dan@example.com"
                  [("email", VStr "dan@example.com")] in
  exists d,
    post_users_lookup req Sample.store = Pending d
    /\ post_users_insert d (Sample.clock 5 9) Sample.store
       = (Send 200 (Json [("insertedId", VId (Sample.oid 9))]),
          with_users Sample.store (users Sample.store ++ [first]))
    /\ post_users_insert d (Sample.clock 6 10)
         (with_users Sample.store (users Sample.store ++ [first]))
       = (Send 200 (Json [("insertedId", VId (Sample.oid 10))]),
          with_users Sample.store (users Sample.store ++ [first; second]))
    /\ ~ unique_emails (users Sample.store ++ [first; second]).
Proof.
  intros req first second.
  assert (U : unique_emails (users Sample.store))
    by (repeat constructor; simpl; intuition discriminate).
  destruct (first_logins_interleaved Sample.store U) as [_ H].
  destruct (H req req _ _ "dan@example.com" (Sample.clock 5 9)
              (Sample.clock 6 10) eq_refl eq_refl eq_refl eq_refl)
    as (d1 & d2 & L1 & L2 & I1 & I2 & _ & N);
    [discriminate | reflexivity | reflexivity | reflexivity | discriminate |].
  exists d1. split; [exact L1|]. split; [exact I1|]. split; [|exact N].
  assert (E : d2 = d1) by congruence.
  rewrite <- E. exact I2.
Defined.

(** ** Courses by id *)

Lemma lower_ascii_hex : forall c,
  Bson.is_hex (lower_ascii c) = Bson.is_hex c.
Proof.
  intros [[] [] [] [] [] [] [] []]; reflexivity.
Qed.

Lemma validateHexString_lower : forall x,
  Bson.validateHexString (toLowerCase x) = Bson.validateHexString x.
Proof.
  intros x. unfold Bson.validateHexString. f_equal.
  - f_equal. induction x as [|c r IH]; simpl; congruence.
  - induction x as [|c r IH]; [reflexivity|].
    cbn [toLowerCase Bson.all_hex]. now rewrite lower_ascii_hex, IH.
Qed.

Lemma same_id : forall x y,
  toLowerCase x = toLowerCase y ->
  Bson.validateHexString x = Bson.validateHexString y /\ by_id x = by_id y.
Proof.
  intros x y E. split.
  - now rewrite <- (validateHexString_lower x), E, validateHexString_lower.
  - unfold by_id, Bson.fromHex. now rewrite E.
Qed.

(** The id of a route is read without regard to the case of its
    hexadecimal digits: requests whose ids differ only in case are
    answered alike by [GET], [PUT] and [DELETE /courses/:id]. *)
Theorem course_id_ignores_case :
  forall req1 req2 e s,
    toLowerCase (params_id req1) = toLowerCase (params_id req2) ->
    body req1 = body req2 ->
    get_course req1 s = get_course req2 s
    /\ put_course req1 e s = put_course req2 e s
    /\ delete_course req1 s = delete_course req2 s.
Proof.
  intros req1 req2 e s Hid Hb. apply same_id in Hid as [Hv Hq].
  unfold get_course, put_course, delete_course. now rewrite Hv, Hq, Hb.
Qed.

Lemma course_id_ignores_case_witness :
  let req x := {| authorization := None; query := []; params_id := x;
                  body := None |} in
  get_course (req "00000000000000000000000A") Sample.store
  = get_course (req "00000000000000000000000a") Sample.store.
Proof.
  intros req.
  exact (proj1 (course_id_ignores_case
                  (req "00000000000000000000000A")
                  (req "00000000000000000000000a")
                  (Sample.clock 0 0) Sample.store eq_refl eq_refl)).
Defined.

Lemma has_id_key : forall v d,
  has_id v d = true -> or_null (get_field "_id" d) = v.
Proof.
  intros v d. unfold has_id. destruct (get_field "_id" d) as [w|];
    [|discriminate].
  intros E. apply value_eqb_eq in E. now subst.
Qed.

Lemma deleteOne_none : forall q c,
  findOne q c = None -> deleteOne q c = (0, c).
Proof.
  intros q c. unfold findOne.
  induction c as [|d r IH]; cbn [List.find deleteOne]; [reflexivity|].
  destruct (matches q d); [discriminate|]. intros N. now rewrite IH.
Qed.

Lemma deleteOne_some : forall q c d,
  findOne q c = Some d ->
  exists before after,
    c = before ++ d :: after
    /\ Forall (fun x => matches q x = false) before
    /\ deleteOne q c = (1, before ++ after).
Proof.
  intros q c d. unfold findOne.
  induction c as [|x r IH]; cbn [List.find deleteOne]; [discriminate|].
  destruct (matches q x) eqn:M.
  - intros E. injection E as ->. now exists [], r.
  - intros E. destruct (IH E) as (b & a & -> & Hb & Hu).
    exists (x :: b), a. rewrite Hu. repeat split; auto.
Qed.

(** With distinct ids, removing the course that has an id leaves no
    course with that id. *)
Lemma unique_id_removed : forall x before c after,
  Terms.unique_ids (before ++ c :: after) ->
  matches (by_id x) c = true ->
  findOne (by_id x) (before ++ after) = None.
Proof.
  intros x before c after U M. apply findOne_by_id_unused.
  rewrite by_id_matches in M. apply has_id_key in M.
  destruct (existsb _ (before ++ after)) eqn:E; [|reflexivity].
  exfalso. apply existsb_exists in E as (y & Iy & Hy).
  apply has_id_key in Hy. unfold Terms.unique_ids in U.
  rewrite map_app in U. cbn [map] in U. apply NoDup_remove_2 in U.
  apply U. rewrite <- map_app, M, <- Hy.
  now apply (in_map (fun d => or_null (get_field "_id" d))).
Qed.

(** [DELETE /courses/:id] on the id of a course removes that course and
    no other; with distinct ids, the same id is then unknown to [GET]
    and to a second [DELETE], which answer 404. *)
Theorem delete_then_gone :
  forall req s c,
    Bson.validateHexString (params_id req) = true ->
    Terms.unique_ids (courses s) ->
    findOne (by_id (params_id req)) (courses s) = Some c ->
    exists before after,
      courses s = before ++ c :: after
      /\ let s1 := with_courses s (before ++ after) in
         delete_course req s
         = Some (Send 200 (Json [("deletedCount", VNum 1)]), s1)
         /\ get_course req s1 = Some (error 404 "Course not found", s1)
         /\ delete_course req s1 = Some (error 404 "Course not found", s1).
Proof.
  intros req s c Hv U Hc.
  destruct (deleteOne_some _ _ _ Hc) as (b & a & Hs & Hb & Hd).
  exists b, a. split; [assumption|]. intros s1.
  assert (Hgone : findOne (by_id (params_id req)) (b ++ a) = None).
  { apply unique_id_removed with (c := c); [now rewrite <- Hs|].
    now apply findOne_matches in Hc. }
  split; [|split].
  - unfold delete_course. now rewrite Hv, Hd.
  - unfold get_course. rewrite Hv. cbn [negb courses with_courses s1].
    now rewrite Hgone.
  - unfold delete_course. rewrite Hv. cbn [negb courses with_courses s1].
    rewrite deleteOne_none by assumption. cbn.
    now rewrite <- (with_courses_same s1) at 2.
Qed.

Lemma delete_then_gone_witness :
  let req := {| authorization := Sample.bearer "bob-token"; query := [];
                params_id := "000000000000000000000004"; body := None |} in
  exists before after,
    courses Sample.store
    = before ++ Sample.course 4 "React basics" 300 false :: after
    /\ delete_course req Sample.store
       = Some (Send 200 (Json [("deletedCount", VNum 1)]),
               with_courses Sample.store (before ++ after))
    /\ get_course req (with_courses Sample.store (before ++ after))
       = Some (error 404 "Course not found",
               with_courses Sample.store (before ++ after)).
Proof.
  intros req.
  destruct (delete_then_gone req Sample.store
              (Sample.course 4 "React basics" 300 false) eq_refl)
    as (b & a & E & H1 & H2 & _).
  - repeat constructor; simpl; intuition discriminate.
  - reflexivity.
  - exists b, a. auto.
Defined.

Lemma findOne_first : forall q before d after,
  Forall (fun x => matches q x = false) before ->
  matches q d = true ->
  findOne q (before ++ d :: after) = Some d.
Proof.
  intros q before d after Hb Hd. unfold findOne.
  induction Hb as [|x r Hx _ IH]; cbn [app List.find].
  - now rewrite Hd.
  - now rewrite Hx.
Qed.

Lemma plain_update_no_id : forall upd,
  plain_update upd = true -> get_field "_id" upd = None.
Proof.
  intros upd P. destruct (get_field "_id" upd) as [v|] eqn:G; [|reflexivity].
  apply get_field_present in G. apply in_map_iff in G as ([k w] & E & I).
  simpl in E. subst k. unfold plain_update in P.
  rewrite forallb_forall in P. specialize (P _ I). discriminate P.
Qed.

(** [PUT /courses/:id] followed by [GET /courses/:id]: the course read
    back is the updated one; it keeps its [_id], has [updatedAt] at the
    time of the update and the fields of the patch. *)
Theorem put_then_get :
  forall req e s c,
    let patch := spread (body req) in
    Bson.validateHexString (params_id req) = true ->
    plain_update patch = true -> NoDup (map fst patch) ->
    findOne (by_id (params_id req)) (courses s) = Some c ->
    exists c' s1 n,
      put_course req e s = Some (Send 200 (Json [("modifiedCount", VNum n)]), s1)
      /\ get_course req s1 = Some (Send 200 (Json c'), s1)
      /\ get_field "_id" c' = get_field "_id" c
      /\ get_field "updatedAt" c' = Some (VDate (now e))
      /\ (forall k v, k <> "updatedAt" ->
            get_field k patch = Some v -> get_field k c' = Some v).
Proof.
  intros req e s c patch Hv Pp Dp Hc.
  set (upd := set_field "updatedAt" (VDate (now e)) patch).
  assert (Pu : plain_update upd = true) by (now apply set_field_plain).
  assert (Du : NoDup (map fst upd)) by (now apply set_field_NoDup).
  destruct (updateOne_set_some _ upd _ _ Hc) as (b & a & Hs & Hb & Hu).
  assert (Hid : get_field "_id" (assign c upd) = get_field "_id" c)
    by (apply assign_untouched; now apply plain_update_no_id).
  exists (assign c upd), (with_courses s (b ++ assign c upd :: a)),
    (if doc_eqb c (assign c upd) then 0 else 1).
  split; [|split; [|split; [|split]]].
  - unfold put_course. fold patch. fold upd. rewrite Hv. cbn [negb].
    unfold updateOne. now rewrite Pu, Hu.
  - unfold get_course. rewrite Hv. cbn [negb courses with_courses].
    rewrite findOne_first; [reflexivity | assumption |].
    apply findOne_matches in Hc. rewrite by_id_matches in *.
    unfold has_id in *. now rewrite Hid.
  - assumption.
  - apply assign_set; [assumption|]. apply get_set_same.
  - intros k v N G. apply assign_set; [assumption|].
    unfold upd. now rewrite get_set_other.
Qed.

Lemma put_then_get_witness :
  let req := {| authorization := Sample.bearer "bob-token"; query := [];
                params_id := "000000000000000000000004";
                body := Some [("title", VStr "React")] |} in
  exists c' s1 n,
    put_course req (Sample.clock 80 9) Sample.store
    = Some (Send 200 (Json [("modifiedCount", VNum n)]), s1)
    /\ get_course req s1 = Some (Send 200 (Json c'), s1)
    /\ get_field "title" c' = Some (VStr "React").
Proof.
  intros req.
  destruct (put_then_get req (Sample.clock 80 9) Sample.store
              (Sample.course 4 "React basics" 300 false) eq_refl eq_refl)
    as (c' & s1 & n & H1 & H2 & _ & _ & H3).
  - repeat constructor; simpl; intuition discriminate.
  - reflexivity.
  - exists c', s1, n. split; [exact H1|]. split; [exact H2|].
    apply H3; [discriminate | reflexivity].
Defined.

(** ** Courses and their owners *)

Lemma by_instructor_matches : forall email c,
  matches [(["instructor"; "email"], CEq (VStr email))] c = true
  <-> instructor_email c = Some (VStr email).
Proof.
  intros email c. unfold matches, instructor_email.
  cbn [forallb fst snd]. rewrite andb_true_r.
  now apply cond_eq_holds.
Qed.

(** A course created by [POST /courses] is listed by [GET /my-courses]
    for the email its payload names as instructor, after the courses
    that email already had, whoever created it. *)
Theorem post_then_my_courses :
  forall F req payload d email e s,
    body req = Some payload ->
    course_payload_ok F payload ->
    get_field "instructor" payload = Some (VObj d) ->
    get_field "email" d = Some (VStr email) ->
    existsb (has_id (VId (generated e))) (courses s) = false ->
    exists s1 mine,
      post_courses F req e s
      = Some (Send 200 (Json [("insertedId", VId (generated e))]), s1)
      /\ my_courses email s = Some (Send 200 (JsonList mine), s)
      /\ my_courses email s1
         = Some (Send 200
                   (JsonList
                      (mine ++ [course_record (generated e) (now e) payload])),
                 s1).
Proof.
  intros F req payload d email e s Hb Hok Hi He Hg.
  apply courseSchema_accepts in Hok.
  exists (with_courses s
            (courses s ++ [course_record (generated e) (now e) payload])),
    (find [(["instructor"; "email"], CEq (VStr email))] (courses s)).
  split; [now apply post_courses_valid|]. split; [reflexivity|].
  unfold my_courses. cbn [courses with_courses]. rewrite find_app.
  do 3 f_equal. unfold find. cbn [List.filter].
  assert (M : matches [(["instructor"; "email"], CEq (VStr email))]
                (course_record (generated e) (now e) payload) = true).
  { apply by_instructor_matches. unfold instructor_email. cbn [get_path].
    destruct (course_record_fields (generated e) (now e) payload)
      as (_ & _ & K).
    rewrite K by discriminate. now rewrite Hi. }
  now rewrite M.
Qed.

Lemma post_then_my_courses_witness :
  let req := {| authorization := Sample.bearer "bob-token"; query := [];
                params_id := ""; body := Some Sample.payload |} in
  let e := Sample.clock 70 9 in
  exists s1 mine,
    post_courses Sample.formats req e Sample.store
    = Some (Send 200 (Json [("insertedId", VId (generated e))]), s1)
    /\ my_courses "bob@example.com" Sample.store
       = Some (Send 200 (JsonList mine), Sample.store)
    /\ my_courses "bob@example.com" s1
       = Some (Send 200
                 (JsonList (mine ++ [course_record (generated e) 70 Sample.payload])),
               s1).
Proof.
  intros req e.
  apply (post_then_my_courses Sample.formats req Sample.payload
           Sample.bob_card "bob@example.com" e Sample.store);
    try reflexivity.
  apply courseSchema_accepts. reflexivity.
Defined.

(** [POST /courses] refuses every payload that has a field the schema
    does not declare, [_id], [createdAt] and [updatedAt] among them: the
    id and the creation time of a course are never the client's. *)
Theorem undeclared_field_refused :
  forall F req payload k e s,
    body req = Some payload ->
    In k (map fst payload) ->
    ~ In k ["title"; "image"; "price"; "duration"; "category";
            "description"; "isFeatured"; "instructor"] ->
    exists msg, post_courses F req e s = Some (error 400 msg, s).
Proof.
  intros F req payload k e s Hb Ik Nk.
  destruct (Joi.validate F courseSchema [] (Some (VObj payload)))
    as [err|] eqn:V.
  - exists (Joi.message err). apply post_courses_invalid. now rewrite Hb.
  - apply courseSchema_accepts in V.
    destruct V as (_ & _ & _ & _ & _ & _ & _ & _ & K).
    exfalso. apply Nk. now apply K.
Qed.

Lemma undeclared_field_refused_witness :
  let req := {| authorization := Sample.bearer "bob-token"; query := [];
                params_id := "";
                body := Some (Sample.payload ++ [("createdAt", VDate 1)]) |} in
  exists msg,
    post_courses Sample.formats req (Sample.clock 70 9) Sample.store
    = Some (error 400 msg, Sample.store).
Proof.
  intros req.
  apply (undeclared_field_refused Sample.formats req
           (Sample.payload ++ [("createdAt", VDate 1)]) "createdAt");
    [reflexivity | simpl; tauto | simpl; intuition discriminate].
Defined.

(** The schema accepts [isFeatured] given as text, and the handler
    stores the payload as it came: such a course is created and is not
    among the featured courses. *)
Theorem featured_as_text_not_listed :
  forall F req payload x e s,
    body req = Some payload ->
    course_payload_ok F payload ->
    get_field "isFeatured" payload = Some (VStr x) ->
    existsb (has_id (VId (generated e))) (courses s) = false ->
    exists s1,
      post_courses F req e s
      = Some (Send 200 (Json [("insertedId", VId (generated e))]), s1)
      /\ courses s1 = courses s ++ [course_record (generated e) (now e) payload]
      /\ Terms.featured s1 = Terms.featured s.
Proof.
  intros F req payload x e s Hb Hok Hx Hg.
  apply courseSchema_accepts in Hok.
  exists (with_courses s
            (courses s ++ [course_record (generated e) (now e) payload])).
  split; [now apply post_courses_valid|]. split; [reflexivity|].
  unfold Terms.featured. cbn [courses with_courses]. rewrite find_app.
  rewrite <- app_nil_r. f_equal.
  destruct (find _ [course_record (generated e) (now e) payload])
    as [|c r] eqn:Fi; [reflexivity|].
  assert (I : In c (find [(["isFeatured"], CEq (VBool true))]
                      [course_record (generated e) (now e) payload]))
    by (rewrite Fi; now left).
  apply filter_In in I as [[<-|[]] M].
  unfold matches in M. cbn [forallb fst snd get_path] in M.
  rewrite andb_true_r in M. apply cond_eq_holds in M; [|discriminate].
  destruct (course_record_fields (generated e) (now e) payload) as (_ & _ & K).
  rewrite K in M by discriminate. congruence.
Qed.

Lemma featured_as_text_not_listed_witness :
  let payload := Sample.payload ++ [("isFeatured", VStr "TRUE")] in
  let req := {| authorization := Sample.bearer "bob-token"; query := [];
                params_id := ""; body := Some payload |} in
  let e := Sample.clock 70 9 in
  exists s1,
    post_courses Sample.formats req e Sample.store
    = Some (Send 200 (Json [("insertedId", VId (generated e))]), s1)
    /\ courses s1 = courses Sample.store ++ [course_record (generated e) 70 payload]
    /\ Terms.featured s1 = Terms.featured Sample.store.
Proof.
  intros payload req e.
  apply (featured_as_text_not_listed Sample.formats req payload "TRUE" e
           Sample.store); try reflexivity.
  apply courseSchema_accepts. reflexivity.
Defined.

(** ** What the handlers keep *)

(** Close a goal [handler-body = Some (r, s') -> s' = s] whose every
    branch answers with the state it was given. *)
Ltac unchanged :=
  repeat match goal with
         | |- context [match ?x with _ => _ end] => destruct x
         | |- context [if ?x then _ else _] => destruct x
         end;
  try discriminate;
  let E := fresh in intros E; injection E; intros; subst; reflexivity.

Lemma get_users_reads : forall req s r s',
  get_users req s = Some (r, s') -> s' = s.
Proof. intros req s r s'. unfold get_users. unchanged. Qed.

Lemma all_courses_reads : forall req s r s',
  all_courses req s = Some (r, s') -> s' = s.
Proof.
  intros req s r s'. unfold all_courses.
  destruct (all_courses_filter _ _); [|discriminate].
  destruct (int_param "page" 1 req); try discriminate.
  destruct (int_param "limit" 100 req); try discriminate.
  destruct (number_of_Z (_ - 1)); try discriminate.
  destruct (number_of_Z (_ * _)); try discriminate.
  destruct (negb _); [discriminate|].
  destruct (Mongo.skip _ _); intros E; now injection E.
Qed.

Lemma get_course_reads : forall req s r s',
  get_course req s = Some (r, s') -> s' = s.
Proof.
  intros req s r s'. unfold get_course.
  destruct (negb _); [intros E; now injection E|].
  destruct (findOne _ _); intros E; now injection E.
Qed.

Lemma featured_courses_reads : forall req s r s',
  featured_courses req s = Some (r, s') -> s' = s.
Proof.
  intros req s r s'. unfold featured_courses.
  destruct (capped_limit req "6"); try discriminate.
  intros E; now injection E.
Qed.

Lemma instructors_reads : forall go req s r s',
  instructors go req s = Some (r, s') -> s' = s.
Proof.
  intros go req s r s'. unfold instructors.
  destruct (capped_limit req "4"); try discriminate.
  destruct (Nat.ltb _ _); [intros E; now injection E|].
  destruct (instructors_pipeline _ _ _); intros E; now injection E.
Qed.

Lemma get_handlers_read : forall F oo go ep user req e s r s',
  is_get ep = true ->
  handler F oo go ep user req e s = Some (r, s') -> s' = s.
Proof.
  intros F oo go ep user req e s r s' G.
  destruct ep; try discriminate G; cbn [handler];
    try (now eauto using get_users_reads, all_courses_reads, get_course_reads,
           featured_courses_reads, instructors_reads);
    try (destruct user; unfold my_courses, get_enrolled);
    intros E; now injection E.
Qed.

(** What every answer of the handler of a route satisfies, the answers
    of the middlewares, which return the state they were given, satisfy
    as well. *)
Lemma serve_unchanged : forall vt F oo go ep req e s r s',
  (forall user, handler F oo go ep user req e s = Some (r, s') -> s' = s) ->
  serve vt F oo go ep req e s = Some (r, s') -> s' = s.
Proof.
  intros vt F oo go ep req e s r s' H. unfold serve, protected.
  destruct (required_role ep); [|apply H].
  destruct (verifyUser vt req); [|intros E; now injection E].
  destruct (checkRole _ _ s); [apply H | intros E; now injection E].
Qed.

(** The routes registered with [app.get] leave the database as it was,
    whatever they answer. *)
Theorem get_routes_write_nothing :
  forall vt F oo go ep req e s r s',
    is_get ep = true ->
    serve vt F oo go ep req e s = Some (r, s') ->
    s' = s.
Proof.
  intros vt F oo go ep req e s r s' G. apply serve_unchanged.
  intros user. now apply get_handlers_read.
Qed.

Lemma get_routes_write_nothing_witness :
  let req := {| authorization := Sample.bearer "alice-token"; query := [];
                params_id := ""; body := None |} in
  let serve := serve Sample.verifyIdToken Sample.formats
                 Sample.of_number Sample.group_order in
  exists r s',
    serve GetEnrolled req (Sample.clock 5 9) Sample.store = Some (r, s')
    /\ s' = Sample.store.
Proof.
  intros req serve. exists (Send 200 (JsonList [])), Sample.store.
  split; [reflexivity|].
  exact (get_routes_write_nothing Sample.verifyIdToken Sample.formats
           Sample.of_number Sample.group_order GetEnrolled req
           (Sample.clock 5 9) Sample.store _ _ eq_refl eq_refl).
Defined.

Lemma updateOne_set_unmatched : forall q upd c res cs,
  updateOne_set q upd c = (res, cs) -> matchedCount res = 0 -> cs = c.
Proof.
  intros q upd c. induction c as [|d r IH]; intros res cs; cbn [updateOne_set].
  - intros E. now injection E as _ <-.
  - destruct (matches q d).
    + intros E. injection E as <- _. discriminate.
    + destruct (updateOne_set q upd r) as [res' r'] eqn:U.
      intros E. injection E as <- <-. intros Z. f_equal. now apply (IH res').
Qed.

Lemma deleteOne_unmatched : forall q c cs,
  deleteOne q c = (0, cs) -> cs = c.
Proof.
  intros q c. induction c as [|d r IH]; intros cs; cbn [deleteOne].
  - intros E. now injection E as <-.
  - destruct (matches q d); [discriminate|].
    destruct (deleteOne q r) as [n r'] eqn:D.
    intros E. injection E as -> <-. f_equal. now apply IH.
Qed.

Lemma refused_200 : forall p, ~ refused (Send 200 p).
Proof. intros p H. simpl in H. lia. Qed.

Lemma post_users_refused : forall req e s r s',
  post_users req e s = Some (r, s') -> refused r -> s' = s.
Proof.
  intros req e s r s'. rewrite post_users_served.
  destruct (body req); [|intros E; now injection E].
  cbv zeta.
  destruct (negb _); [intros E; now injection E|].
  destruct (findOne _ _); [intros E; now injection E|].
  destruct (insertOne _ _ _) as [[id us]|]; [|intros E; now injection E].
  intros E. injection E as <- _. intros R. now apply refused_200 in R.
Qed.

Lemma post_courses_refused : forall F req e s r s',
  post_courses F req e s = Some (r, s') -> refused r -> s' = s.
Proof.
  intros F req e s r s'. unfold post_courses.
  destruct (Joi.validate _ _ _ _); [intros E; now injection E|].
  destruct (insertOne _ _ _) as [[id us]|]; [|intros E; now injection E].
  intros E. injection E as <- _. intros R. now apply refused_200 in R.
Qed.

Lemma put_course_refused : forall req e s r s',
  put_course req e s = Some (r, s') -> refused r -> s' = s.
Proof.
  intros req e s r s'. unfold put_course, updateOne.
  destruct (negb _); [intros E; now injection E|].
  destruct (plain_update _); [|discriminate].
  destruct (updateOne_set _ _ _) as [res cs] eqn:U.
  destruct (matchedCount res =? 0) eqn:M.
  - apply Z.eqb_eq in M. apply (updateOne_set_unmatched _ _ _ _ _ U) in M.
    subst cs. intros E. injection E as _ <-. intros _.
    apply with_courses_same.
  - intros E. injection E as <- _. intros R. now apply refused_200 in R.
Qed.

Lemma delete_course_refused : forall req s r s',
  delete_course req s = Some (r, s') -> refused r -> s' = s.
Proof.
  intros req s r s'. unfold delete_course.
  destruct (negb _); [intros E; now injection E|].
  destruct (deleteOne _ _) as [n cs] eqn:D.
  destruct (n =? 0) eqn:M.
  - apply Z.eqb_eq in M. subst n. apply deleteOne_unmatched in D. subst cs.
    intros E. injection E as _ <-. intros _. apply with_courses_same.
  - intros E. injection E as <- _. intros R. now apply refused_200 in R.
Qed.

Lemma enroll_refused : forall oo u req e s r s',
  enroll oo u req e s = Some (r, s') -> refused r -> s' = s.
Proof.
  intros oo u req e s r s'. rewrite enroll_served.
  destruct (body req); [|intros E; now injection E]. cbv zeta.
  destruct (negb (truthy_opt _)); [intros E; now injection E|].
  destruct (negb (ObjectId_isValid _ _ _)); [intros E; now injection E|].
  destruct (new_ObjectId oo e 1 _); [|intros E; now injection E].
  destruct (findOne _ _); [intros E; now injection E|].
  destruct (new_ObjectId oo e 2 _); [|intros E; now injection E].
  destruct (insertOne _ _ _) as [[id us]|]; [|intros E; now injection E].
  intros E. injection E as <- _. intros R. now apply refused_200 in R.
Qed.

(** A request that is answered with a failure (status 400 or more, or
    an uncaught exception) has written nothing, on every route. *)
Theorem refused_requests_write_nothing :
  forall vt F oo go ep req e s r s',
    serve vt F oo go ep req e s = Some (r, s') ->
    refused r ->
    s' = s.
Proof.
  intros vt F oo go ep req e s r s' Hs R. revert Hs. apply serve_unchanged.
  intros user Hh. destruct (is_get ep) eqn:G.
  - now apply get_handlers_read in Hh.
  - destruct ep; try discriminate G; cbn [handler] in Hh;
      eauto using post_users_refused, post_courses_refused,
        put_course_refused, delete_course_refused.
    destruct user; [eauto using enroll_refused | now injection Hh].
Qed.

Lemma refused_requests_write_nothing_witness :
  let req := {| authorization := Sample.bearer "bob-token"; query := [];
                params_id := "00000000000000000000000f";
                body := Some [("title", VStr "x")] |} in
  let serve := serve Sample.verifyIdToken Sample.formats
                 Sample.of_number Sample.group_order in
  exists r s',
    serve PutCourse req (Sample.clock 5 9) Sample.store = Some (r, s')
    /\ refused r /\ s' = Sample.store.
Proof.
  intros req serve.
  exists (error 404 "Course not found"), Sample.store.
  assert (R : refused (error 404 "Course not found")) by (simpl; lia).
  split; [reflexivity|]. split; [exact R|].
  exact (refused_requests_write_nothing Sample.verifyIdToken Sample.formats
           Sample.of_number Sample.group_order PutCourse req
           (Sample.clock 5 9) Sample.store _ _ eq_refl R).
Defined.

(** ** Uniqueness kept by the writes *)

Lemma new_ObjectId_read : forall oo e k v,
  (forall n, v <> VNum n) -> new_ObjectId oo e k v = Bson.read_id v.
Proof. intros oo e k v N. destruct v; try reflexivity. now destruct (N n). Qed.

Lemma enroll_alone_keeps_pairs : forall oo u req e s r s',
  (forall b n, body req = Some b -> get_field "courseId" b <> Some (VNum n)) ->
  unique_pairs (enrolled s) ->
  enroll oo u req e s = Some (r, s') ->
  unique_pairs (enrolled s').
Proof.
  intros oo u req e s r s' Hn U. rewrite enroll_served.
  destruct (body req) as [b|]; [|intros E; now injection E as _ <-].
  specialize (Hn b). cbv zeta.
  destruct (negb (truthy_opt _)); [intros E; now injection E as _ <-|].
  destruct (negb (ObjectId_isValid _ _ _)); [intros E; now injection E as _ <-|].
  assert (Hv : forall n, or_null (get_field "courseId" b) <> VNum n).
  { intros n E. apply (Hn n eq_refl).
    destruct (get_field "courseId" b) as [v|]; [simpl in E; now subst | discriminate]. }
  rewrite !new_ObjectId_read by assumption.
  destruct (Bson.read_id _) as [oid|]; [|intros E; now injection E as _ <-].
  destruct (findOne _ _) eqn:Fo; [intros E; now injection E as _ <-|].
  destruct (insertOne _ _ _) as [[id es]|] eqn:I;
    [|intros E; now injection E as _ <-].
  intros E. injection E as _ <-. cbn [enrolled with_enrolled].
  apply insertOne_appends in I as (_ & -> & _); [|reflexivity].
  intros u' o'. rewrite find_app, length_app.
  unfold find at 2. cbn [List.filter].
  destruct (matches (enrollment u' o') _) eqn:M.
  - apply enrollment_matches in M as [Mu Mo].
    injection Mu as <-. injection Mo as <-.
    apply findOne_None_find in Fo. now rewrite Fo.
  - specialize (U u' o'). cbn [List.length]. lia.
Qed.

Lemma enroll_lookup_new : forall oo u req b v o e s,
  body req = Some b -> get_field "courseId" b = Some v ->
  Bson.read_id v = Some o ->
  findOne (enrollment u o) (enrolled s) = None ->
  enroll_lookup oo u req e s = Pending v.
Proof.
  intros oo u req b v o e s Hb Hc Hr Hf. unfold enroll_lookup.
  rewrite Hb, Hc. cbv zeta. cbn [truthy_opt or_null].
  destruct (read_id_value oo e 1 v o Hr) as (T & V & N).
  now rewrite T, V, N, Hf.
Qed.

Lemma enroll_insert_new : forall oo u v o e s,
  Bson.read_id v = Some o ->
  existsb (has_id (VId (generated e))) (enrolled s) = false ->
  enroll_insert oo u v e s
  = (Send 200 (Json [("insertedId", VId (generated e))]),
     with_enrolled s
       (enrolled s ++ [enrollment_record (generated e) u o (now e)])).
Proof.
  intros oo u v o e s Hr Hg. unfold enroll_insert.
  destruct (read_id_value oo e 2 v o Hr) as (_ & _ & N). rewrite N.
  now rewrite insertOne_fresh by (reflexivity || assumption).
Qed.

(** [POST /enroll] looks the pair up and then inserts.  Served with no
    other request between the two accesses, and for a [courseId] that is
    not a number, it keeps every pair (user, course) at one enrollment
    record at most.  It does not when two requests of one user for one
    course are interleaved: when both lookups come before the inserts,
    both requests insert and are answered 200, and the pair has two
    records. *)
Theorem enrollments_interleaved :
  forall oo userEmail s,
    unique_pairs (enrolled s) ->
    (forall req e r s',
        (forall b n, body req = Some b ->
                     get_field "courseId" b <> Some (VNum n)) ->
        enroll oo userEmail req e s = Some (r, s') ->
        unique_pairs (enrolled s'))
    /\ (forall req b v o e1 e2,
          body req = Some b -> get_field "courseId" b = Some v ->
          Bson.read_id v = Some o ->
          enrollments_of userEmail o s = [] ->
          existsb (has_id (VId (generated e1))) (enrolled s) = false ->
          existsb (has_id (VId (generated e2))) (enrolled s) = false ->
          generated e1 <> generated e2 ->
          let first := enrollment_record (generated e1) userEmail o (now e1) in
          let second := enrollment_record (generated e2) userEmail o (now e2) in
          let s1 := with_enrolled s (enrolled s ++ [first]) in
          let s2 := with_enrolled s (enrolled s ++ [first; second]) in
          enroll_lookup oo userEmail req e1 s = Pending v
          /\ enroll_lookup oo userEmail req e2 s = Pending v
          /\ enroll_insert oo userEmail v e1 s
             = (Send 200 (Json [("insertedId", VId (generated e1))]), s1)
          /\ enroll_insert oo userEmail v e2 s1
             = (Send 200 (Json [("insertedId", VId (generated e2))]), s2)
          /\ enrollments_of userEmail o s2 = [first; second]
          /\ ~ unique_pairs (enrolled s2)).
Proof.
  intros oo u s U. split.
  { intros req e r s' Hn. now apply enroll_alone_keeps_pairs. }
  intros req b v o e1 e2 Hb Hc Hr Hn Hg1 Hg2 Hd first second s1 s2.
  apply find_nil_findOne in Hn as Hf.
  assert (M1 : matches (enrollment u o) first = true)
    by (now apply enrollment_matches).
  assert (M2 : matches (enrollment u o) second = true)
    by (now apply enrollment_matches).
  assert (F2 : enrollments_of u o s2 = [first; second]).
  { unfold enrollments_of in *. unfold s2. cbn [enrolled with_enrolled].
    rewrite find_app, Hn. unfold find. cbn [app List.filter].
    now rewrite M1, M2. }
  split; [now apply enroll_lookup_new with (b := b) (o := o)|].
  split; [now apply enroll_lookup_new with (b := b) (o := o)|].
  split; [now apply enroll_insert_new|]. split; [|split; [exact F2|]].
  - rewrite (enroll_insert_new oo u v o e2 s1 Hr).
    + unfold s1, s2. cbn [enrolled with_enrolled]. unfold with_enrolled.
      cbn [users courses]. now rewrite <- app_assoc.
    + unfold s1. cbn [enrolled with_enrolled]. apply existsb_snoc; [assumption|].
      apply has_id_other with (g' := generated e1); [congruence | reflexivity].
  - intros P. specialize (P u o). unfold enrollments_of in F2.
    rewrite F2 in P. cbn [List.length] in P. lia.
Qed.

Lemma enrollments_interleaved_witness :
  let x := "000000000000000000000005" in
  let req := {| authorization := Sample.bearer "alice-token"; query := [];
                params_id := ""; body := Some [("courseId", VStr x)] |} in
  let first := enrollment_record (Sample.oid 9) "alice@example.com"
                 (Bson.fromHex x) 50 in
  let second := enrollment_record (Sample.oid 10) "alice@example.com"
                  (Bson.fromHex x) 51 in
  enroll_lookup Sample.of_number "alice@example.com" req (Sample.clock 50 9)
    Sample.store = Pending (VStr x)
  /\ enroll_lookup Sample.of_number "alice@example.com" req (Sample.clock 51 10)
       Sample.store = Pending (VStr x)
  /\ enroll_insert Sample.of_number "alice@example.com" (VStr x)
       (Sample.clock 51 10) (with_enrolled Sample.store [first])
     = (Send 200 (Json [("insertedId", VId (Sample.oid 10))]),
        with_enrolled Sample.store [first; second])
  /\ enrollments_of "alice@example.com" (Bson.fromHex x)
       (with_enrolled Sample.store [first; second]) = [first; second].
Proof.
  intros x req first second.
  assert (U : unique_pairs (enrolled Sample.store))
    by (intros u o; simpl; lia).
  destruct (enrollments_interleaved Sample.of_number "alice@example.com"
              Sample.store U) as [_ H].
  destruct (H req _ (VStr x) (Bson.fromHex x) (Sample.clock 50 9)
              (Sample.clock 51 10) eq_refl eq_refl eq_refl eq_refl eq_refl
              eq_refl)
    as (L1 & L2 & _ & I2 & F2 & _); [discriminate|].
  split; [exact L1|]. split; [exact L2|]. split; [exact I2 | exact F2].
Defined.

Lemma unique_ids_insert : forall c g d,
  Terms.unique_ids c ->
  existsb (has_id (VId g)) c = false ->
  Terms.unique_ids (c ++ [("_id", VId g) :: d]).
Proof.
  intros c g d U X. unfold Terms.unique_ids in *. rewrite map_app.
  apply NoDup_app; [assumption | repeat constructor; auto | ].
  intros k Ik [<-|[]]. apply in_map_iff in Ik as (x & Ex & Ix).
  cbn [get_field String.eqb Ascii.eqb Bool.eqb] in Ex.
  change (or_null (get_field "_id" x) = VId g) in Ex.
  assert (H : has_id (VId g) x = true).
  { unfold has_id. destruct (get_field "_id" x) as [w|]; [|discriminate Ex].
    simpl in Ex. subst w. apply value_eqb_refl. }
  assert (Y : existsb (has_id (VId g)) c = true)
    by (apply existsb_exists; now exists x).
  congruence.
Qed.

Lemma insertOne_keeps_ids : forall d g c id c',
  get_field "_id" d = None ->
  Terms.unique_ids c ->
  insertOne d g c = Some (id, c') ->
  Terms.unique_ids c'.
Proof.
  intros d g c id c' Hd U I.
  apply insertOne_appends in I as (_ & -> & X); [|assumption].
  now apply unique_ids_insert.
Qed.

Lemma validated_no_id : forall F payload,
  Joi.validate F courseSchema [] (option_map VObj payload) = None ->
  get_field "_id" (spread payload) = None.
Proof.
  intros F [payload|] V; [|reflexivity]. cbn [spread option_map] in *.
  destruct (get_field "_id" payload) as [v|] eqn:G; [|reflexivity].
  apply validate_object_pass in V as [_ K].
  now apply (declared_key _ _ _ _ K) in G.
Qed.

Lemma updateOne_set_keeps_ids : forall q upd c,
  plain_update upd = true ->
  map (fun d => or_null (get_field "_id" d)) (snd (updateOne_set q upd c))
  = map (fun d => or_null (get_field "_id" d)) c.
Proof.
  intros q upd c P. induction c as [|d r IH]; cbn [updateOne_set];
    [reflexivity|].
  destruct (matches q d).
  - cbn [snd map]. f_equal.
    now rewrite assign_untouched by (now apply plain_update_no_id).
  - destruct (updateOne_set q upd r) as [res r']. cbn [snd map] in *.
    now rewrite IH.
Qed.

Lemma deleteOne_keeps_ids : forall q c,
  Terms.unique_ids c -> Terms.unique_ids (snd (deleteOne q c)).
Proof.
  intros q c. unfold Terms.unique_ids.
  assert (Sub : forall c x, In x (snd (deleteOne q c)) -> In x c).
  { induction c0 as [|d r IH]; cbn [deleteOne]; [auto|].
    destruct (matches q d); cbn [snd]; [now right|].
    destruct (deleteOne q r) as [n r']. cbn [snd] in *.
    intros x [<-|I]; [now left | right; now apply IH]. }
  induction c as [|d r IH]; cbn [deleteOne]; [auto|].
  intros U. inversion U as [|? ? Hn Hr]; subst.
  destruct (matches q d); cbn [snd]; [assumption|].
  specialize (Sub r). destruct (deleteOne q r) as [n r']. cbn [snd map] in *.
  constructor; [|auto].
  intros I. apply Hn. apply in_map_iff in I as (x & Ex & Ix).
  apply in_map_iff. exists x. auto.
Qed.

Lemma handler_keeps_ids : forall F oo go ep user req e s r s',
  ids_unique s ->
  handler F oo go ep user req e s = Some (r, s') ->
  ids_unique s'.
Proof.
  intros F oo go ep user req e s r s' (Uu & Uc & Ue) H.
  destruct (is_get ep) eqn:G.
  { apply get_handlers_read in H; [now subst | assumption]. }
  destruct ep; try discriminate G; cbn [handler] in H.
  - revert H. rewrite post_users_served.
    destruct (body req); [|intros E; injection E as _ <-; now repeat split].
    cbv zeta.
    destruct (negb _); [intros E; injection E as _ <-; now repeat split|].
    destruct (findOne _ _); [intros E; injection E as _ <-; now repeat split|].
    destruct (insertOne _ _ _) as [[id us]|] eqn:I;
      [|intros E; injection E as _ <-; now repeat split].
    intros E. injection E as _ <-.
    apply insertOne_keeps_ids in I; [now repeat split | reflexivity | assumption].
  - revert H. unfold post_courses.
    destruct (Joi.validate _ _ _ _) eqn:V;
      [intros E; injection E as _ <-; now repeat split|].
    destruct (insertOne _ _ _) as [[id cs]|] eqn:I;
      [|intros E; injection E as _ <-; now repeat split].
    intros E. injection E as _ <-.
    apply insertOne_keeps_ids in I; [now repeat split | | assumption].
    rewrite get_set_other by discriminate. now apply validated_no_id in V.
  - revert H. unfold put_course, updateOne.
    destruct (negb _); [intros E; injection E as _ <-; now repeat split|].
    destruct (plain_update _) eqn:P; [|discriminate].
    pose proof (updateOne_set_keeps_ids (by_id (params_id req)) _ (courses s) P)
      as K.
    destruct (updateOne_set _ _ _) as [res cs]. cbn [snd] in K.
    assert (Uc' : Terms.unique_ids cs)
      by (unfold Terms.unique_ids; now rewrite K).
    destruct (matchedCount res =? 0); intros E; injection E as _ <-;
      now repeat split.
  - revert H. unfold delete_course.
    destruct (negb _); [intros E; injection E as _ <-; now repeat split|].
    pose proof (deleteOne_keeps_ids (by_id (params_id req)) _ Uc) as K.
    destruct (deleteOne _ _) as [n cs]. cbn [snd] in K.
    destruct (n =? 0); intros E; injection E as _ <-; now repeat split.
  - destruct user as [u|]; [|injection H as _ <-; now repeat split].
    revert H. rewrite enroll_served.
    destruct (body req); [|intros E; injection E as _ <-; now repeat split].
    cbv zeta.
    destruct (negb (truthy_opt _));
      [intros E; injection E as _ <-; now repeat split|].
    destruct (negb (ObjectId_isValid _ _ _));
      [intros E; injection E as _ <-; now repeat split|].
    destruct (new_ObjectId oo e 1 _);
      [|intros E; injection E as _ <-; now repeat split].
    destruct (findOne _ _); [intros E; injection E as _ <-; now repeat split|].
    destruct (new_ObjectId oo e 2 _);
      [|intros E; injection E as _ <-; now repeat split].
    destruct (insertOne _ _ _) as [[id es]|] eqn:I;
      [|intros E; injection E as _ <-; now repeat split].
    intros E. injection E as _ <-.
    apply insertOne_keeps_ids in I; [now repeat split | reflexivity | assumption].
Qed.

(** Every route keeps the [_id]s of each collection distinct: a state
    with distinct ids is followed by a state with distinct ids, whatever
    the request. *)
Theorem serve_keeps_ids_unique :
  forall vt F oo go ep req e s r s',
    ids_unique s ->
    serve vt F oo go ep req e s = Some (r, s') ->
    ids_unique s'.
Proof.
  intros vt F oo go ep req e s r s' U. unfold serve, protected.
  destruct (required_role ep); [|now apply handler_keeps_ids].
  destruct (verifyUser vt req); [|intros E; now injection E as _ <-].
  destruct (checkRole _ _ s);
    [now apply handler_keeps_ids | intros E; now injection E as _ <-].
Qed.

Lemma serve_keeps_ids_unique_witness :
  let req := {| authorization := Sample.bearer "bob-token"; query := [];
                params_id := ""; body := Some Sample.payload |} in
  ids_unique
    (with_courses Sample.store
       (courses Sample.store ++ [course_record (Sample.oid 9) 70 Sample.payload])).
Proof.
  intros req.
  apply (serve_keeps_ids_unique Sample.verifyIdToken Sample.formats
           Sample.of_number Sample.group_order PostCourses req
           (Sample.clock 70 9) Sample.store
           (Send 200 (Json [("insertedId", VId (Sample.oid 9))]))).
  - repeat split; repeat constructor; simpl; intuition discriminate.
  - reflexivity.
Defined.

(** ** Pages of the listing *)

Lemma find_all : forall c, find [] c = c.
Proof.
  intros c. unfold find, matches. cbn [forallb].
  induction c as [|d r IH]; cbn [List.filter]; congruence.
Qed.

Lemma firstn_add : forall (A : Type) n m (l : list A),
  firstn n l ++ firstn m (skipn n l) = firstn (n + m) l.
Proof.
  intros A n m. induction n as [|n IH]; intros l; [reflexivity|].
  destruct l as [|x r]; cbn [firstn skipn Nat.add app].
  - now rewrite firstn_nil.
  - now rewrite IH.
Qed.

(** Two requests for consecutive pages [p] and [p + 1], with the same
    category, search and limit; pages and limit are given as decimal
    numerals, with [(p + 1) * limit] at most [2^53], and the search is
    within the modelled fragment.  Put end to end, their answers are the
    stretch of the selection that starts where the first page starts and
    is two pages long, so no course is skipped or repeated between
    them. *)
Theorem consecutive_pages :
  forall req1 req2 s page limit,
    let category := query_param "category" (query req1) in
    let search := query_param "search" (query req1) in
    query_param "category" (query req2) = category ->
    query_param "search" (query req2) = search ->
    given "page" 1 req1 page -> given "page" 1 req2 (page + 1) ->
    given "limit" 100 req1 limit -> given "limit" 100 req2 limit ->
    1 <= page -> 1 <= limit -> (page + 1) * limit <= two53 ->
    modelled_search search (courses s) ->
    exists keep l1 l2,
      (forall c, keep c = true <-> category_is category c /\ title_is search c)
      /\ all_courses req1 s = Some (Send 200 (JsonList l1), s)
      /\ all_courses req2 s = Some (Send 200 (JsonList l2), s)
      /\ l1 ++ l2
         = firstn (Z.to_nat (2 * limit))
             (skipn (Z.to_nat ((page - 1) * limit))
                (List.filter keep (courses s))).
Proof.
  intros req1 req2 s page limit category search C2 S2 P1 P2 L1 L2 H1 H2 Hb Hm.
  destruct (all_courses_page req1 s page limit) as (q & Hq & A1);
    try assumption; [nia|].
  destruct (all_courses_page req2 s (page + 1) limit) as (q2 & Hq2 & A2);
    try assumption; [lia | now rewrite S2 |].
  assert (E : q2 = q).
  { rewrite C2, S2 in Hq2. unfold category, search in Hq2. congruence. }
  subst q2.
  exists (matches q). do 2 eexists. split; [|split; [exact A1 | split; [exact A2|]]].
  - intros c. now apply all_courses_filter_spec.
  - fold (find q (courses s)).
    replace (page + 1 - 1) with page by lia.
    replace (Z.to_nat (page * limit))
      with (Z.to_nat limit + Z.to_nat ((page - 1) * limit))%nat by nia.
    rewrite <- skipn_skipn.
    replace (Z.to_nat (2 * limit)) with (Z.to_nat limit + Z.to_nat limit)%nat
      by lia.
    apply firstn_add.
Qed.

Lemma consecutive_pages_witness :
  let req p := {| authorization := None;
                  query := [("page", p); ("limit", "1")];
                  params_id := ""; body := None |} in
  exists l1 l2,
    all_courses (req "2") Sample.store
    = Some (Send 200 (JsonList l1), Sample.store)
    /\ all_courses (req "3") Sample.store
       = Some (Send 200 (JsonList l2), Sample.store)
    /\ l1 ++ l2 = [Sample.course 4 "React basics" 300 false;
                   Sample.course 5 "Node" 200 true].
Proof.
  intros req.
  assert (P2 : given "page" 1 (req "2") 2) by (repeat split; discriminate).
  assert (P3 : given "page" 1 (req "3") (2 + 1)) by (repeat split; discriminate).
  assert (L2 : given "limit" 100 (req "2") 1) by (repeat split; discriminate).
  assert (L3 : given "limit" 100 (req "3") 1) by (repeat split; discriminate).
  destruct (consecutive_pages (req "2") (req "3") Sample.store 2 1
              eq_refl eq_refl P2 P3 L2 L3)
    as (keep & l1 & l2 & K & H1 & H2 & H3);
    [lia | lia | unfold two53; lia | intros pattern E; discriminate E |].
  exists l1, l2. split; [exact H1|]. split; [exact H2|].
  rewrite H3.
  assert (F : List.filter keep (courses Sample.store) = courses Sample.store).
  { apply forallb_filter_id. apply forallb_forall. intros c _. apply K.
    split; exact I. }
  rewrite F. reflexivity.
Defined.

(** A request without parameters is answered with the first hundred
    courses in their natural order: what the first version of the route
    answered, as long as there are no more than a hundred courses. *)
Theorem plain_listing :
  forall req s,
    query req = [] ->
    all_courses req s
    = Some (Send 200 (JsonList (firstn 100 (courses s))), s)
    /\ ((List.length (courses s) <= 100)%nat ->
        all_courses req s = Legacy.all_courses s).
Proof.
  intros req s Q.
  assert (H : all_courses req s
              = Some (Send 200 (JsonList (firstn 100 (courses s))), s)).
  { destruct (all_courses_page req s 1 100) as (q & Hq & A).
    - unfold given. now rewrite Q.
    - unfold given. now rewrite Q.
    - lia.
    - lia.
    - unfold two53. lia.
    - intros pattern E. now rewrite Q in E.
    - rewrite Q in Hq. injection Hq as <-. rewrite A. now rewrite find_all. }
  split; [assumption|]. intros L. rewrite H. unfold Legacy.all_courses.
  now rewrite find_all, firstn_all2.
Qed.

Lemma plain_listing_witness :
  all_courses Sample.request0 Sample.store = Legacy.all_courses Sample.store.
Proof.
  destruct (plain_listing Sample.request0 Sample.store eq_refl) as [_ H].
  apply H. simpl. lia.
Defined.

(** ** Enrollment and the listing *)

Lemma find_ext : forall (A : Type) (f g : A -> bool) l,
  (forall x, f x = g x) -> List.find f l = List.find g l.
Proof.
  intros A f g l H. induction l as [|x r IH]; simpl; [reflexivity|].
  now rewrite H, IH.
Qed.

Lemma course_of_enrollment : forall cs g u x t,
  course_of cs (enrollment_record g u (Bson.fromHex x) t)
  = findOne (by_id x) cs.
Proof.
  intros cs g u x t. unfold course_of, findOne. apply find_ext.
  intros c. rewrite by_id_matches. unfold refers_to, has_id.
  change (get_field "courseId" (enrollment_record g u (Bson.fromHex x) t))
    with (Some (VId (Bson.fromHex x))).
  cbn [or_null]. now destruct (get_field "_id" c).
Qed.

(** [POST /enroll] does not ask whether the course exists.  After a
    successful enrollment, [GET /enrolled] lists what it listed before,
    followed by the new enrollment with its course when a course has the
    id, and by nothing when none has: an enrollment in an unknown course
    is stored and never shown. *)
Theorem enroll_then_listed :
  forall oo userEmail req b x e s,
    body req = Some b -> get_field "courseId" b = Some (VStr x) ->
    Bson.validateHexString x = true ->
    Terms.unique_ids (courses s) ->
    enrollments_of userEmail (Bson.fromHex x) s = [] ->
    existsb (has_id (VId (generated e))) (enrolled s) = false ->
    let record :=
      enrollment_record (generated e) userEmail (Bson.fromHex x) (now e) in
    let s1 := with_enrolled s (enrolled s ++ [record]) in
    enroll oo userEmail req e s
    = Some (Send 200 (Json [("insertedId", VId (generated e))]), s1)
    /\ enrolled_pipeline userEmail s1
       = enrolled_pipeline userEmail s
         ++ match findOne (by_id x) (courses s) with
            | Some c => [enrolled_entry record c]
            | None => []
            end.
Proof.
  intros oo u req b x e s Hb Hc Hv U Hn Hg record s1. split.
  - apply enroll_new with (b := b) (x := x); auto.
    now apply find_nil_findOne.
  - rewrite !enrolled_pipeline_join by assumption.
    unfold listForUser. cbn [enrolled courses with_enrolled s1].
    rewrite find_app, flat_map_app. f_equal.
    unfold find. cbn [List.filter].
    assert (M : matches [(["userEmail"], CEq (VStr u))] record = true).
    { unfold matches. cbn [forallb fst snd get_path]. rewrite andb_true_r.
      now apply cond_eq_holds. }
    rewrite M. cbn [flat_map]. rewrite app_nil_r.
    unfold record. now rewrite course_of_enrollment.
Qed.

Lemma enroll_then_listed_witness :
  let x := "00000000000000000000000b" in
  let req := {| authorization := Sample.bearer "alice-token"; query := [];
                params_id := ""; body := Some [("courseId", VStr x)] |} in
  let e := Sample.clock 50 9 in
  let s1 := with_enrolled Sample.store
              [enrollment_record (generated e) "alice@example.com"
                 (Bson.fromHex x) 50] in
  enroll Sample.of_number "alice@example.com" req e Sample.store
  = Some (Send 200 (Json [("insertedId", VId (generated e))]), s1)
  /\ enrolled_pipeline "alice@example.com" s1 = [].
Proof.
  intros x req e s1.
  destruct (enroll_then_listed Sample.of_number "alice@example.com"
              req _ x e Sample.store eq_refl eq_refl eq_refl)
    as [H1 H2]; try reflexivity.
  - repeat constructor; simpl; intuition discriminate.
  - split; [exact H1 | exact H2].
Defined.
